(** * MioTTS Cockpit: the service supervisor of [server.py]

    A shallow embedding of the supervision core of [server.py]
    ([ManagedService], [ServiceManager], [_apply_model_to_services],
    [change_model]) and the properties of it that the specification
    states.

    Conventions of the embedding.
    - A [ManagedService] object is referred to by its key in
      [ServiceManager.services]; its fields live in the [World].
    - Python's [dict] keeps insertion order, which [_start_order] and
      [change_model] iterate: [services] is an association list, looked
      up by first match.
    - The outside world (process exits, health probes, signal delivery,
      process creation) is an oracle [Env] indexed by a logical clock that
      advances at every [await].
    - Exceptions are the [Raise] outcome of the monad [M]; the mutations
      made before a raise persist, as in Python.
    - [startup_timeout], [startup_poll_interval] and [lines] are integers. *)

From Stdlib Require Import ZArith String Ascii DecimalString.
From stdpp Require Import base option list gmap strings relations.

Open Scope string_scope.
Open Scope list_scope.
Open Scope stdpp_scope.

(** ** Data model *)

(** [ManagedService._state]: "stopped", "starting", "running", "error". *)
Inductive LifecycleState : Type := stopped | starting | running | error.

#[export] Instance LifecycleState_eq_dec : EqDecision LifecycleState.
Proof. solve_decision. Defined.

(** [asyncio.subprocess.Process]: the pid and the [returncode] attribute,
    [None] while the child has not been seen to exit. *)
Record Process : Type := mkProcess { pid : nat; returncode : option Z }.

(** The fields of [ManagedService.__init__] that the supervisor reads
    ([cwd], [env_overrides], [port] and [log_path] only feed the spawn). *)
Record ManagedService : Type := mkService {
  svc_id : string;
  name : string;
  command : list string;
  health_url : option string;
  depends_on : list string;
  startup_timeout : Z;
  startup_poll_interval : Z;
  process : option Process;
  _log_file : bool;
  _state : LifecycleState
}.

Definition set_state (v : LifecycleState) (s : ManagedService) : ManagedService :=
  mkService (svc_id s) (name s) (command s) (health_url s) (depends_on s)
    (startup_timeout s) (startup_poll_interval s) (process s) (_log_file s) v.

Definition set_process (p : option Process) (s : ManagedService) : ManagedService :=
  mkService (svc_id s) (name s) (command s) (health_url s) (depends_on s)
    (startup_timeout s) (startup_poll_interval s) p (_log_file s) (_state s).

Definition set_log_file (b : bool) (s : ManagedService) : ManagedService :=
  mkService (svc_id s) (name s) (command s) (health_url s) (depends_on s)
    (startup_timeout s) (startup_poll_interval s) (process s) b (_state s).

Definition set_command (c : list string) (s : ManagedService) : ManagedService :=
  mkService (svc_id s) (name s) c (health_url s) (depends_on s)
    (startup_timeout s) (startup_poll_interval s) (process s) (_log_file s) (_state s).

Definition set_name (n : string) (s : ManagedService) : ManagedService :=
  mkService (svc_id s) n (command s) (health_url s) (depends_on s)
    (startup_timeout s) (startup_poll_interval s) (process s) (_log_file s) (_state s).

(** [ManagedService.__init__] for one entry of [services.yaml]. *)
Definition ManagedService_init (service_id : string) (cname : option string)
    (cmd : list string) (url : option string) (deps : list string)
    (timeout poll : option Z) : ManagedService :=
  mkService service_id (default service_id cname) cmd url deps
    (default 120%Z timeout) (default 5%Z poll) None false stopped.

(** [self.services]: an insertion-ordered dictionary. *)
Definition Services : Type := list (string * ManagedService).

(** [self.services.get(sid)]. *)
Fixpoint services_get (sid : string) (svcs : Services) : option ManagedService :=
  match svcs with
  | [] => None
  | (k, s) :: rest => if decide (k = sid) then Some s else services_get sid rest
  end.

(** In-place mutation of the object stored under [sid]. *)
Fixpoint services_update (sid : string) (f : ManagedService -> ManagedService)
    (svcs : Services) : Services :=
  match svcs with
  | [] => []
  | (k, s) :: rest =>
      if decide (k = sid) then (k, f s) :: rest
      else (k, s) :: services_update sid f rest
  end.

(** ** [ServiceManager._start_order] *)

(** [for dep in deps: visit(dep)] over the state (visited, order). *)
Fixpoint for_each_dep {S : Type} (f : string -> S -> option S)
    (deps : list string) (st : S) : option S :=
  match deps with
  | [] => Some st
  | d :: ds =>
      match f d st with
      | Some st' => for_each_dep f ds st'
      | None => None
      end
  end.

(** The nested function [visit] of [_start_order]; [fuel] bounds the
    recursion depth, [None] is fuel exhaustion. *)
Fixpoint visit (fuel : nat) (svcs : Services) (sid : string)
    (st : gset string * list string) : option (gset string * list string) :=
  match fuel with
  | O => None
  | S fuel' =>
      if decide (sid ∈ st.1) then Some st
      else
        let st1 := ({[sid]} ∪ st.1, st.2) in
        let after_deps :=
          match services_get sid svcs with
          | Some svc => for_each_dep (visit fuel' svcs) (depends_on svc) st1
          | None => Some st1
          end in
        match after_deps with
        | Some st2 => Some (st2.1, st2.2 ++ [sid])
        | None => None
        end
  end.

(** Every identifier the traversal can meet: the keys and the declared
    dependencies. *)
Definition universe (svcs : Services) : list string :=
  map fst svcs ++ concat (map (fun kv => depends_on kv.2) svcs).

Definition _start_order_fuel (fuel : nat) (svcs : Services) : option (list string) :=
  match for_each_dep (visit fuel svcs) (map fst svcs) (∅, []) with
  | Some st => Some st.2
  | None => None
  end.

(** [_start_order]: the recursion never goes deeper than the number of
    identifiers, see [_start_order_total]. *)
Definition _start_order (svcs : Services) : option (list string) :=
  _start_order_fuel (S (length (universe svcs))) svcs.

(** The dependency edge: [u] is a configured unit that declares [d]. *)
Definition declares (svcs : Services) (u d : string) : Prop :=
  exists svc, services_get u svcs = Some svc /\ d ∈ depends_on svc.

(** No unit reaches itself through declared dependencies. *)
Definition acyclic (svcs : Services) : Prop :=
  forall u, ~ tc (declares svcs) u u.

(** [d] occurs strictly before [u] in [order]. *)
Definition strictly_before (d u : string) (order : list string) : Prop :=
  exists l1 l2 l3, order = l1 ++ d :: l2 ++ u :: l3.

(** The invariant of the traversal on (visited, order), for an
    acyclic configuration. *)
Record dfs_inv (svcs : Services) (V : gset string) (O : list string) : Prop :=
  mk_dfs_inv {
    inv_visited : forall x, x ∈ O -> x ∈ V;
    inv_nodup : NoDup O;
    inv_closed : forall u d, u ∈ O -> declares svcs u d -> strictly_before d u O
  }.

(** What one call adds: [O' = O ++ new], the new identifiers were
    unvisited, and [V'] is [V] plus them. *)
Definition extends (V : gset string) (O : list string)
    (V' : gset string) (O' : list string) : Prop :=
  exists new, O' = O ++ new /\
    (forall x, x ∈ V' <-> x ∈ V \/ x ∈ new) /\
    (forall x, x ∈ new -> x ∉ V).

(** What the order is computed from: keys and [depends_on], in order. *)
Definition dependency_table (svcs : Services) : list (string * list string) :=
  map (fun kv => (kv.1, depends_on kv.2)) svcs.

(** ** The world and its effects *)

Inductive Signal : Type := SIGTERM | SIGKILL.

(** Exceptions the supervisor raises or lets through. *)
Inductive Exn : Type :=
| RuntimeError (msg : string)
| KeyError (msg : string)
| IndexError (msg : string)
| ValueError (msg : string)
| OSError
| HTTPException (status_code : Z) (detail : string).

(** Observable effects, in the order they happen.  [EvSkip], [EvWait]
    and [EvStop] record what the orchestrator did or observed: a unit
    found [running], the value [wait_healthy] returned, and a call of
    [stop]. *)
Inductive Event : Type :=
| EvSpawn (sid : string) (argv : list string) (p : nat)
| EvProbe (sid : string) (status : option Z)
| EvSleep (sid : string) (seconds : Z)
| EvWait (sid : string) (healthy : bool)
| EvSkip (sid : string)
| EvKillpg (sid : string) (sig : Signal) (delivered : bool)
| EvStop (sid : string)
| EvSaveState (model : string).

#[export] Instance Signal_eq_dec : EqDecision Signal.
Proof. solve_decision. Defined.

#[export] Instance Event_eq_dec : EqDecision Event.
Proof. solve_decision. Defined.

(** The environment, indexed by the logical clock:
    - [spawn t argv]: the pid [create_subprocess_exec] returns, [None]
      when it raises;
    - [exit_status p t]: the exit code the event loop records for the
      child [p] at instant [t], [None] while it runs;
    - [http_get url t]: the status code of the probe, [None] when the
      request raises;
    - [killpg p t]: [false] when [os.getpgid]/[os.killpg] raise
      [ProcessLookupError]. *)
Record Env : Type := mkEnv {
  spawn : nat -> list string -> option nat;
  exit_status : nat -> nat -> option Z;
  http_get : string -> nat -> option Z;
  killpg : nat -> nat -> bool
}.

(** The supervisor's mutable state: [manager.services],
    [manager._starting], the persisted [state.json] ([current_model]),
    the clock and the effects so far. *)
Record World : Type := mkWorld {
  services : Services;
  _starting : bool;
  state_file : option string;
  clock : nat;
  trace : list Event
}.

Definition with_services (f : Services -> Services) (w : World) : World :=
  mkWorld (f (services w)) (_starting w) (state_file w) (clock w) (trace w).

Definition with_starting (b : bool) (w : World) : World :=
  mkWorld (services w) b (state_file w) (clock w) (trace w).

Definition with_state_file (m : option string) (w : World) : World :=
  mkWorld (services w) (_starting w) m (clock w) (trace w).

Definition with_event (e : Event) (w : World) : World :=
  mkWorld (services w) (_starting w) (state_file w) (clock w) (trace w ++ [e]).

Inductive Outcome (A : Type) : Type :=
| Ret (a : A)
| Raise (e : Exn)
| OutOfFuel.
Arguments Ret {A} a.
Arguments Raise {A} e.
Arguments OutOfFuel {A}.

(** State and exceptions. *)
Definition M (A : Type) : Type := World -> Outcome A * World.

#[export] Instance M_ret : MRet M := fun A a w => (Ret a, w).

#[export] Instance M_bind : MBind M := fun A B k m w =>
  match m w with
  | (Ret a, w') => k a w'
  | (Raise e, w') => (Raise e, w')
  | (OutOfFuel, w') => (OutOfFuel, w')
  end.

Definition raise {A : Type} (e : Exn) : M A := fun w => (Raise e, w).
Definition out_of_fuel {A : Type} : M A := fun w => (OutOfFuel, w).
Definition get_world : M World := fun w => (Ret w, w).
Definition modify_world (f : World -> World) : M unit := fun w => (Ret tt, f w).
Definition emit (e : Event) : M unit := modify_world (with_event e).

(** [try: body finally: fin], for a [fin] that does not raise. *)
Definition try_finally {A : Type} (body : M A) (fin : World -> World) : M A :=
  fun w => let '(r, w') := body w in (r, fin w').

(** [for x in xs: body(x)]. *)
Fixpoint for_each {A : Type} (xs : list A) (body : A -> M unit) : M unit :=
  match xs with
  | [] => mret tt
  | x :: rest => body x ;; for_each rest body
  end.

(** [self.process is None or self.process.returncode is not None]. *)
Definition not_alive (s : ManagedService) : bool :=
  match process s with
  | None => true
  | Some p => bool_decide (returncode p ≠ None)
  end.

(** [self.process and self.process.returncode is not None]. *)
Definition has_exited (s : ManagedService) : bool :=
  match process s with
  | None => false
  | Some p => bool_decide (returncode p ≠ None)
  end.

Section Supervisor.

Variable env : Env.

(** The event loop records a child's exit code once it has exited. *)
Definition reap (t : nat) (s : ManagedService) : ManagedService :=
  match process s with
  | Some p =>
      match returncode p with
      | None => set_process (Some (mkProcess (pid p) (exit_status env (pid p) t))) s
      | Some _ => s
      end
  | None => s
  end.

(** A suspension point: the clock advances and exits are recorded. *)
Definition await : M unit :=
  modify_world (fun w =>
    mkWorld (map (fun kv => (kv.1, reap (S (clock w)) kv.2)) (services w))
      (_starting w) (state_file w) (S (clock w)) (trace w)).

(** The object bound to a local variable such as [svc]: its key is known
    to be present. *)
Definition the (sid : string) : M ManagedService :=
  w ← get_world;
  match services_get sid (services w) with
  | Some s => mret s
  | None => raise (KeyError sid)
  end.

Definition mutate (sid : string) (f : ManagedService -> ManagedService) : M unit :=
  modify_world (with_services (services_update sid f)).

(** ** [ManagedService] *)

(** The [state] property: its getter resets [_state] to "stopped" when
    no live process backs a state other than "starting". *)
Definition state_getter (s : ManagedService) : LifecycleState * ManagedService :=
  if decide (_state s = starting) then (_state s, s)
  else if not_alive s then (stopped, set_state stopped s)
  else (_state s, s).

Definition state (sid : string) : M LifecycleState :=
  s ← the sid;
  mutate sid (fun s => (state_getter s).2);;
  mret (state_getter s).1.

(** [ManagedService.start]. *)
Definition start (sid : string) : M unit :=
  s ← the sid;
  if negb (not_alive s) then
    raise (RuntimeError (name s +:+ " is already running"))
  else
    mutate sid (set_log_file true);;
    mutate sid (set_state starting);;
    await;;
    w ← get_world;
    match spawn env (clock w) (command s) with
    | None => raise OSError
    | Some p =>
        mutate sid (set_process (Some (mkProcess p None)));;
        emit (EvSpawn sid (command s) p)
    end.

(** [not self.health_url]. *)
Definition no_health_url (s : ManagedService) : bool :=
  match health_url s with
  | None => true
  | Some url => bool_decide (url = "")
  end.

(** The [while elapsed < self.startup_timeout] loop of [wait_healthy];
    one unit of [fuel] per iteration. *)
Fixpoint wait_healthy_loop (fuel : nat) (sid url : string) (elapsed : Z) : M bool :=
  s ← the sid;
  if bool_decide (elapsed < startup_timeout s)%Z then
    match fuel with
    | O => out_of_fuel
    | S fuel' =>
        if has_exited s then
          mutate sid (set_state error);; mret false
        else
          await;;
          w ← get_world;
          let resp := http_get env url (clock w) in
          emit (EvProbe sid resp);;
          if bool_decide (resp = Some 200%Z) then
            mutate sid (set_state running);; mret true
          else
            await;;
            s' ← the sid;
            emit (EvSleep sid (startup_poll_interval s'));;
            wait_healthy_loop fuel' sid url (elapsed + startup_poll_interval s')%Z
    end
  else
    mutate sid (set_state error);; mret false.

(** [ManagedService.wait_healthy]. *)
Definition wait_healthy (fuel : nat) (sid : string) : M bool :=
  s ← the sid;
  healthy ←
    (if no_health_url s then
       await;;
       emit (EvSleep sid 2%Z);;
       mutate sid (set_state running);;
       mret true
     else
       wait_healthy_loop fuel sid (default "" (health_url s)) 0%Z);
  emit (EvWait sid healthy);;
  mret healthy.

(** [ManagedService.stop]. *)
Definition stop (sid : string) : M unit :=
  s ← the sid;
  emit (EvStop sid);;
  if not_alive s then
    mutate sid (set_state stopped)
  else
    let p := default 0 (pid <$> process s) in
    w ← get_world;
    emit (EvKillpg sid SIGTERM (killpg env p (clock w)));;
    await;;
    s' ← the sid;
    (if not_alive s' then mret tt
     else
       w' ← get_world;
       emit (EvKillpg sid SIGKILL (killpg env p (clock w'))));;
    mutate sid (set_state stopped);;
    mutate sid (set_log_file false).

(** ** [ServiceManager] *)

(** [str(n)] for an integer. *)
Definition str_of_Z (n : Z) : string := NilZero.string_of_int (Z.to_int n).

(** One iteration of the loop of [start_all]. *)
Definition start_all_step (fuel : nat) (sid : string) : M unit :=
  _ ← the sid;
  st ← state sid;
  if decide (st = running) then emit (EvSkip sid)
  else
    start sid;;
    healthy ← wait_healthy fuel sid;
    if (healthy : bool) then mret tt
    else
      s ← the sid;
      raise (RuntimeError (name s +:+ " failed to become healthy within "
                           +:+ str_of_Z (startup_timeout s) +:+ "s")).

(** [ServiceManager.start_all]. *)
Definition start_all (fuel : nat) : M unit :=
  w ← get_world;
  if _starting w then raise (RuntimeError "Already starting")
  else
    modify_world (with_starting true);;
    try_finally
      (w1 ← get_world;
       match _start_order (services w1) with
       | None => out_of_fuel
       | Some order => for_each order (start_all_step fuel)
       end)
      (with_starting false).

(** [ServiceManager.stop_all]. *)
Definition stop_all : M unit :=
  w ← get_world;
  match _start_order (services w) with
  | None => out_of_fuel
  | Some order => for_each (rev order) (fun sid => _ ← the sid; stop sid)
  end.

(** One iteration of the dependency loop of [start_service]. *)
Definition start_dependency (fuel : nat) (dep_id : string) : M unit :=
  w ← get_world;
  match services_get dep_id (services w) with
  | None => mret tt
  | Some _ =>
      st ← state dep_id;
      if decide (st = running) then emit (EvSkip dep_id)
      else
        start dep_id;;
        _ ← wait_healthy fuel dep_id;
        mret tt
  end.

(** [ServiceManager.start_service]. *)
Definition start_service (fuel : nat) (service_id : string) : M unit :=
  w ← get_world;
  match services_get service_id (services w) with
  | None => raise (KeyError ("Unknown service: " +:+ service_id))
  | Some svc =>
      for_each (depends_on svc) (start_dependency fuel);;
      start service_id;;
      _ ← wait_healthy fuel service_id;
      mret tt
  end.

(** [ServiceManager.stop_service]. *)
Definition stop_service (service_id : string) : M unit :=
  w ← get_world;
  match services_get service_id (services w) with
  | None => raise (KeyError ("Unknown service: " +:+ service_id))
  | Some _ =>
      for_each (map fst (services w)) (fun other =>
        o ← the other;
        if bool_decide (service_id ∈ depends_on o) then
          st ← state other;
          if decide (st = stopped) then mret tt else stop other
        else mret tt);;
      stop service_id
  end.

(** ** Model selection *)

(** [cmd.index(flag)]: the first position of [flag], [None] for
    [ValueError]. *)
Fixpoint list_index (flag : string) (cmd : list string) : option nat :=
  match cmd with
  | [] => None
  | x :: rest =>
      if decide (x = flag) then Some 0
      else S <$> list_index flag rest
  end.

(** The substitution block that [_apply_model_to_services] repeats:
    [try: idx = cmd.index(flag); cmd[idx + 1] = value
     except ValueError: pass]. *)
Definition substitute_command_arg (flag value : string) (cmd : list string)
    : Exn + list string :=
  match list_index flag cmd with
  | None => inr cmd
  | Some idx =>
      if decide (idx + 1 < length cmd) then inr (<[idx + 1 := value]> cmd)
      else inl (IndexError "list assignment index out of range")
  end.

Definition lift_sum {A : Type} (r : Exn + A) : M A :=
  match r with
  | inl e => raise e
  | inr a => mret a
  end.

(** [s.split("/")]. *)
Fixpoint split_slash (s : string) : list string :=
  match s with
  | EmptyString => [EmptyString]
  | String c rest =>
      if decide (c = "/"%char) then EmptyString :: split_slash rest
      else
        match split_slash rest with
        | hd :: tl => String c hd :: tl
        | [] => [String c EmptyString]
        end
  end.

(** [model_id.split("/")[-1]]. *)
Definition short_name (model_id : string) : string :=
  List.last (split_slash model_id) EmptyString.

(** The first block of [_apply_model_to_services]: [if vllm_svc: ...]. *)
Definition apply_to_vllm (model_id gpu_mem_util : string) : M unit :=
  w ← get_world;
  match services_get "vllm" (services w) with
  | Some vllm_svc =>
      cmd ← lift_sum (substitute_command_arg "--model" model_id (command vllm_svc));
      cmd ← lift_sum (substitute_command_arg "--gpu-memory-utilization" gpu_mem_util cmd);
      mutate "vllm" (set_command cmd);;
      mutate "vllm" (set_name ("vLLM (" +:+ short_name model_id +:+ ")"))
  | None => mret tt
  end.

(** The second block: [if miotts_svc: ...]. *)
Definition apply_to_miotts (model_id : string) : M unit :=
  w ← get_world;
  match services_get "miotts" (services w) with
  | Some miotts_svc =>
      cmd ← lift_sum (substitute_command_arg "--llm-model" model_id (command miotts_svc));
      mutate "miotts" (set_command cmd)
  | None => mret tt
  end.

(** [_apply_model_to_services]. *)
Definition _apply_model_to_services (model_id gpu_mem_util : string) : M unit :=
  apply_to_vllm model_id gpu_mem_util;;
  apply_to_miotts model_id.

(** [_save_state({"current_model": model_id})]. *)
Definition _save_state (model_id : string) : M unit :=
  modify_world (with_state_file (Some model_id));;
  emit (EvSaveState model_id).

(** [any(s.state in ("running", "starting") for s in ...values())]:
    the generator stops at the first hit, and every [s.state] it
    evaluates runs the getter. *)
Fixpoint any_running_or_starting (keys : list string) : M bool :=
  match keys with
  | [] => mret false
  | k :: rest =>
      st ← state k;
      if bool_decide (st = running \/ st = starting) then mret true
      else any_running_or_starting rest
  end.

(** [change_model]; [models] is [_config["miotts"]["models"]] as pairs
    ([id], [gpu_memory_utilization]). *)
Definition change_model (fuel : nat) (models : list (string * string))
    (model_id : string) : M string :=
  match List.find (fun m => bool_decide (m.1 = model_id)) models with
  | None => raise (HTTPException 400 ("Unknown model: " +:+ model_id))
  | Some model =>
      w ← get_world;
      was_running ← any_running_or_starting (map fst (services w));
      (if (was_running : bool) then stop_all else mret tt);;
      _apply_model_to_services model_id model.2;;
      _save_state model_id;;
      (if (was_running : bool) then start_all fuel else mret tt);;
      mret model_id
  end.

End Supervisor.

(** ** Log retrieval *)

(** [p in l] on strings. *)
Fixpoint contains (p l : string) : bool :=
  String.prefix p l ||
  match l with
  | EmptyString => false
  | String _ l' => contains p l'
  end.

(** [deque(f, maxlen=n)] for [n >= 0], and [xs[-n:]] for [n > 0]: the
    last [n] elements. *)
Definition last_n {A : Type} (n : nat) (xs : list A) : list A :=
  drop (length xs - n) xs.

(** [xs[-n:]] for an integer [n]: the last [n] elements when [n > 0],
    everything when [n = 0], and [xs[|n|:]] when [n < 0]. *)
Definition slice_from_neg {A : Type} (n : Z) (xs : list A) : list A :=
  if decide (0 < n)%Z then last_n (Z.to_nat n) xs
  else drop (Z.to_nat (- n)) xs.

(** [not any(p in l for p in filter_patterns)]. *)
Definition is_meaningful (filter_patterns : list string) (l : string) : bool :=
  negb (existsb (fun p => contains p l) filter_patterns).

(** The lines [get_logs] joins; [file] is the content of the log as
    the lines a file iteration yields, [None] when it does not exist.
    [deque] rejects a negative [maxlen] with [ValueError]. *)
Definition get_logs_lines (file : option (list string)) (lines : Z)
    (filter_patterns : option (list string)) : Exn + list string :=
  match file with
  | None => inr []
  | Some f =>
      if decide (lines < 0)%Z then inl (ValueError "maxlen must be non-negative")
      else
        match filter_patterns with
        | Some (p :: ps) =>
            let all_lines := last_n (Z.to_nat (lines * 3)) f in
            let filtered := List.filter (is_meaningful (p :: ps)) all_lines in
            inr (slice_from_neg lines filtered)
        | _ => inr (last_n (Z.to_nat lines) f)
        end
  end.

(** [ManagedService.get_logs]. *)
Definition get_logs (file : option (list string)) (lines : Z)
    (filter_patterns : option (list string)) : Exn + string :=
  match get_logs_lines file lines filter_patterns with
  | inl e => inl e
  | inr ls => inr (String.concat "" ls)
  end.

(** The double-quote character. *)
Definition dquote : ascii := ascii_of_nat 34.

Definition HEALTH_CHECK_PATTERNS : list string :=
  [ String dquote "GET /health HTTP";
    String dquote "GET /v1/models HTTP";
    String dquote "GET /v1/health HTTP" ].

(** ** Observations on worlds and traces *)

Definition svc_of (sid : string) (w : World) : option ManagedService :=
  services_get sid (services w).

Definition state_of (sid : string) (w : World) : option LifecycleState :=
  _state <$> svc_of sid w.

(** The configuration of a unit: what [start], [wait_healthy], [stop]
    and the [state] getter never assign. *)
Definition static (s : ManagedService) :
    string * string * list string * option string * list string * Z * Z :=
  (svc_id s, name s, command s, health_url s, depends_on s,
   startup_timeout s, startup_poll_interval s).

Definition statics (svcs : Services) :=
  map (fun kv => (kv.1, static kv.2)) svcs.

(** The unit an event is about. *)
Definition ev_unit (e : Event) : option string :=
  match e with
  | EvSpawn u _ _ | EvProbe u _ | EvSleep u _ | EvWait u _
  | EvSkip u | EvKillpg u _ _ | EvStop u => Some u
  | EvSaveState _ => None
  end.

Definition launched (e : Event) : option string :=
  match e with EvSpawn u _ _ => Some u | _ => None end.

(** The units launched, in order. *)
Definition launches (evs : list Event) : list string := omap launched evs.

Definition stop_called (e : Event) : option string :=
  match e with EvStop u => Some u | _ => None end.

(** The units [stop] was called on, in order. *)
Definition stop_calls (evs : list Event) : list string := omap stop_called evs.

Definition passed_unit (e : Event) : option string :=
  match e with
  | EvSkip u => Some u
  | EvWait u true => Some u
  | _ => None
  end.

(** The units that reported healthy: found [running], or for which
    [wait_healthy] returned [True]. *)
Definition passed (evs : list Event) : list string := omap passed_unit evs.

Definition visited_unit (e : Event) : option string :=
  match e with
  | EvSkip u => Some u
  | EvSpawn u _ _ => Some u
  | _ => None
  end.

(** The units the start loop dealt with: skipped or launched. *)
Definition visits (evs : list Event) : list string := omap visited_unit evs.

Definition is_signal (e : Event) : bool :=
  match e with EvKillpg _ _ _ => true | _ => false end.

(** The signals sent (or attempted). *)
Definition signals (evs : list Event) : list Event := List.filter is_signal evs.

Definition sleep_of (e : Event) : Z :=
  match e with EvSleep _ d => d | _ => 0%Z end.

(** Total time spent in [asyncio.sleep]. *)
Definition slept (evs : list Event) : Z := foldr (fun e acc => (sleep_of e + acc)%Z) 0%Z evs.

Definition is_probe (e : Event) : bool :=
  match e with EvProbe _ _ => true | _ => false end.

(** Number of health probes issued. *)
Definition probes (evs : list Event) : nat := length (List.filter is_probe evs).

(** A probe or a sleep of the polling loop of [sid]. *)
Definition polling (sid : string) (e : Event) : Prop :=
  match e with
  | EvProbe u _ | EvSleep u _ => u = sid
  | _ => False
  end.

(** The failure [start_all] raises for a unit that did not become
    healthy. *)
Definition health_failure (s : ManagedService) : Exn :=
  RuntimeError (name s +:+ " failed to become healthy within "
                +:+ str_of_Z (startup_timeout s) +:+ "s").

(** The events of one iteration of [start_all] on [sid], from [w] to
    [w'], by outcome: the unit was found running; it was launched and
    became healthy; it was launched and did not; or the iteration was
    cut short (unknown key, live process, failed spawn, fuel). *)
Inductive start_block (sid : string) (w w' : World) :
    Outcome unit -> list Event -> Prop :=
| sb_skip s :
    svc_of sid w = Some s -> (state_getter s).1 = running ->
    state_of sid w' = Some running ->
    start_block sid w w' (Ret tt) [EvSkip sid]
| sb_healthy s p mid :
    svc_of sid w = Some s -> (state_getter s).1 <> running ->
    Forall (polling sid) mid ->
    state_of sid w' = Some running ->
    start_block sid w w' (Ret tt)
      (EvSpawn sid (command s) p :: mid ++ [EvWait sid true])
| sb_unhealthy s s' p mid :
    svc_of sid w = Some s -> svc_of sid w' = Some s' ->
    Forall (polling sid) mid ->
    start_block sid w w' (Raise (health_failure s'))
      (EvSpawn sid (command s) p :: mid ++ [EvWait sid false])
| sb_cut r evs :
    r <> Ret tt -> passed evs = [] ->
    evs = [] \/ (exists s p mid, svc_of sid w = Some s /\
                   evs = EvSpawn sid (command s) p :: mid /\
                   Forall (polling sid) mid) ->
    start_block sid w w' r evs.

(** A run of [for x in xs: body(x)] whose iterations satisfy [spec]:
    it ends after the last element, or at the first iteration that does
    not return. *)
Inductive loop_run {A : Type} (spec : A -> World -> Outcome unit -> World -> Prop) :
    list A -> World -> Outcome unit -> World -> Prop :=
| loop_done w : loop_run spec [] w (Ret tt) w
| loop_next x xs w w1 r w' :
    spec x w (Ret tt) w1 -> loop_run spec xs w1 r w' ->
    loop_run spec (x :: xs) w r w'
| loop_stop x xs w r w' :
    r <> Ret tt -> spec x w r w' -> loop_run spec (x :: xs) w r w'.

(** *** Frames: what an operation leaves alone *)

(** Between [w] and [w']: the configuration is unchanged, the [_state]
    of the units outside [P] is unchanged, and the new events are about
    units in [P]; the flag and the persisted selection are untouched. *)
Record frame (P : string -> Prop) (w w' : World) : Prop := mk_frame {
  fr_static : statics (services w') = statics (services w);
  fr_others : forall v, ~ P v -> state_of v w' = state_of v w;
  fr_starting : _starting w' = _starting w;
  fr_state_file : state_file w' = state_file w;
  fr_trace : exists evs, trace w' = trace w ++ evs /\
                         Forall (fun e => exists u, ev_unit e = Some u /\ P u) evs
}.

(** An operation keeps the frame, whatever its outcome. *)
Definition keeps {A : Type} (P : string -> Prop) (m : M A) : Prop :=
  forall w r w', m w = (r, w') -> frame P w w'.

(** One iteration of the loop of [start_all], with its frame. *)
Definition start_step (sid : string) (w : World) (r : Outcome unit) (w' : World) : Prop :=
  (exists evs, trace w' = trace w ++ evs /\ start_block sid w w' r evs) /\
  frame (eq sid) w w'.

(** One iteration of the loop of [stop_all], with its frame. *)
Definition stop_step (sid : string) (w : World) (r : Outcome unit) (w' : World) : Prop :=
  match svc_of sid w with
  | None => r = Raise (KeyError sid) /\ w' = w
  | Some s =>
      r = Ret tt /\
      exists sigs, trace w' = trace w ++ EvStop sid :: sigs /\
        Forall (fun e => is_signal e = true /\ ev_unit e = Some sid) sigs /\
        state_of sid w' = Some stopped
  end /\
  frame (eq sid) w w'.

(** Every declared dependency is a configured unit. *)
Definition deps_declared (svcs : Services) : Prop :=
  forall u d, declares svcs u d -> d ∈ map fst svcs.

(** An identifier the traversal can reach: a key, or a dependency that
    a configured unit declares. *)
Definition known (svcs : Services) (x : string) : Prop :=
  x ∈ map fst svcs \/ exists u, declares svcs u x.

(** The invariant of the traversal that holds on every configuration:
    the order is visited, duplicate-free and made of known
    identifiers. *)
Definition dfs_pre (svcs : Services) (V : gset string) (O : list string) : Prop :=
  (forall x, x ∈ O -> x ∈ V) /\ NoDup O /\ (forall x, x ∈ O -> known svcs x).

(** The events of one iteration of the dependency loop of
    [start_service] on [d]: [d] is not configured; it was found
    running; it was launched and waited for (whatever the answer); or
    the iteration was cut short. *)
Inductive dep_block (d : string) (w w' : World) :
    Outcome unit -> list Event -> Prop :=
| db_absent : svc_of d w = None -> dep_block d w w' (Ret tt) []
| db_skip s :
    svc_of d w = Some s -> (state_getter s).1 = running ->
    dep_block d w w' (Ret tt) [EvSkip d]
| db_started s p mid b :
    svc_of d w = Some s -> Forall (polling d) mid ->
    dep_block d w w' (Ret tt) (EvSpawn d (command s) p :: mid ++ [EvWait d b])
| db_cut r evs :
    r <> Ret tt ->
    evs = [] \/ (exists s p mid, svc_of d w = Some s /\
                   evs = EvSpawn d (command s) p :: mid /\
                   Forall (polling d) mid) ->
    dep_block d w w' r evs.

Definition dep_step (d : string) (w : World) (r : Outcome unit) (w' : World) : Prop :=
  (exists evs, trace w' = trace w ++ evs /\ dep_block d w w' r evs) /\
  frame (eq d) w w'.

(** [d] was dealt with in [evs]: found running, or launched and waited
    for. *)
Definition dep_satisfied (d : string) (evs : list Event) : Prop :=
  EvSkip d ∈ evs \/
  (exists argv p b, EvSpawn d argv p ∈ evs /\ EvWait d b ∈ evs).

(** Some unit is "running" or "starting", as [change_model] tests it. *)
Definition some_unit_active (w : World) : Prop :=
  exists u s, svc_of u w = Some s /\
    ((state_getter s).1 = running \/ (state_getter s).1 = starting).

(** What a reconfiguration leaves alone in a unit: the dependencies,
    the process, the log file and the state. *)
Definition runtime (s : ManagedService) :
    list string * option Process * bool * LifecycleState :=
  (depends_on s, process s, _log_file s, _state s).

Definition runtimes (svcs : Services) :=
  map (fun kv => (kv.1, runtime kv.2)) svcs.

(** A reconfiguration step: it leaves trace, flags and the runtime of
    every unit alone, fails only with [IndexError], and its outcome and
    resulting configuration are functions of the configuration. *)
Definition reconfigures (m : M unit) : Prop :=
  forall w r w', m w = (r, w') ->
    trace w' = trace w /\ _starting w' = _starting w /\
    state_file w' = state_file w /\
    runtimes (services w') = runtimes (services w) /\
    (r = Ret tt \/ exists msg, r = Raise (IndexError msg)) /\
    forall w2, statics (services w2) = statics (services w) ->
      exists w2', m w2 = (r, w2') /\
                  statics (services w2') = statics (services w').

(** The number of iterations the polling loop can make: the least [n]
    with [n * poll >= timeout]. *)
Definition max_polls (s : ManagedService) : nat :=
  Z.to_nat ((startup_timeout s + startup_poll_interval s - 1)
            / startup_poll_interval s).

(** [fuel] covers the polling loop of every unit that has a health
    URL, and the poll interval of such a unit is positive. *)
Definition fuelled (fuel : nat) (svcs : Services) : Prop :=
  forall u s, services_get u svcs = Some s -> no_health_url s = false ->
    (0 < startup_poll_interval s)%Z /\ max_polls s <= fuel.

(** ** How a start ends early *)

Section Outcomes.

Variable env : Env.

(** Why one iteration of [start_all] on [sid], run from [w], did not
    return, with the events it left: the key is not configured; the
    unit has a live process in a state other than "running", so [start]
    refuses it; the process could not be created; [wait_healthy]
    answered [False]; or the polling loop used up the [fuel]. *)
Inductive start_cut (fuel : nat) (sid : string) (w : World) :
    Outcome unit -> list Event -> Prop :=
| cut_unknown :
    svc_of sid w = None ->
    start_cut fuel sid w (Raise (KeyError sid)) []
| cut_live s :
    svc_of sid w = Some s -> (state_getter s).1 <> running ->
    not_alive s = false ->
    start_cut fuel sid w (Raise (RuntimeError (name s +:+ " is already running"))) []
| cut_spawn s :
    svc_of sid w = Some s -> not_alive s = true ->
    spawn env (S (clock w)) (command s) = None ->
    start_cut fuel sid w (Raise OSError) []
| cut_unhealthy s p mid :
    svc_of sid w = Some s -> not_alive s = true ->
    spawn env (S (clock w)) (command s) = Some p ->
    Forall (polling sid) mid ->
    start_cut fuel sid w (Raise (health_failure s))
      (EvSpawn sid (command s) p :: mid ++ [EvWait sid false])
| cut_fuel s p mid :
    svc_of sid w = Some s -> not_alive s = true ->
    spawn env (S (clock w)) (command s) = Some p ->
    Forall (polling sid) mid -> probes mid = fuel ->
    no_health_url s = false ->
    (startup_poll_interval s * Z.of_nat fuel < startup_timeout s)%Z ->
    start_cut fuel sid w OutOfFuel (EvSpawn sid (command s) p :: mid).

(** The loop of [start_all] over [order], run from [w], ended early
    with [r] and the events [evs]: the units [done] before [u] in the
    order reported healthy one after the other, and the iteration on
    [u] was cut. *)
Definition start_all_cut (fuel : nat) (order : list string) (w : World)
    (r : Outcome unit) (evs : list Event) : Prop :=
  exists done u rest wu evs_done evs_u,
    order = done ++ u :: rest /\
    for_each done (start_all_step env fuel) w = (Ret tt, wu) /\
    trace wu = trace w ++ evs_done /\ evs = evs_done ++ evs_u /\
    passed evs = done /\
    start_cut fuel u wu r evs_u.

End Outcomes.

(** [stop] on the unit [s], called at [w], ends with SIGKILL: the
    process is live and its exit is not recorded during the wait that
    follows SIGTERM. *)
Definition stop_escalates (env : Env) (w : World) (s : ManagedService) : bool :=
  negb (not_alive s) && negb (not_alive (reap env (S (clock w)) s)).

(** The outcome of [change_model] when its [start_all] ended with [r]. *)
Definition restart_outcome (model_id : string) (r : Outcome unit) : Outcome string :=
  match r with
  | Ret _ => Ret model_id
  | Raise e => Raise e
  | OutOfFuel => OutOfFuel
  end.

(** ** Sample configurations *)

(** [order] lists every declared dependency before the unit declaring
    it: a certificate that the configuration has no cycle. *)
Definition respects_order (order : list string) (svcs : Services) : bool :=
  forallb (fun kv =>
    forallb (fun d =>
      match list_index d order, list_index kv.1 order with
      | Some i, Some j => bool_decide (i < j)
      | _, _ => false
      end) (depends_on kv.2)) svcs.

(** A unit as [services.yaml] declares it, with a health URL. *)
Definition sample_unit (sid : string) (cmd : list string) (deps : list string)
    (timeout poll : Z) : ManagedService :=
  ManagedService_init sid None cmd (Some ("http://localhost/" +:+ sid))
    deps (Some timeout) (Some poll).

(** Three units in a chain, declared dependents first. *)
Definition chain : Services :=
  [ ("C", sample_unit "C" ["run-c"] ["B"] 120 5);
    ("B", sample_unit "B" ["run-b"] ["A"] 120 5);
    ("A", sample_unit "A" ["run-a"] [] 120 5) ].

(** The two units of the shipped configuration; [vllm] is running with
    pid 1, [miotts] is stopped. *)
Definition vllm_running : ManagedService :=
  set_state running
    (set_process (Some (mkProcess 1 None))
       (sample_unit "vllm"
          ["vllm"; "serve"; "--model"; "old/model";
           "--gpu-memory-utilization"; "0.5"] [] 120 5)).

Definition miotts_stopped : ManagedService :=
  sample_unit "miotts" ["miotts"; "--llm-model"; "old/model"] ["vllm"] 120 5.

Definition cockpit : Services :=
  [ ("vllm", vllm_running); ("miotts", miotts_stopped) ].

(** The chain with ["A"] already running, with pid 1. *)
Definition chain_a_running : Services :=
  [ ("C", sample_unit "C" ["run-c"] ["B"] 120 5);
    ("B", sample_unit "B" ["run-b"] ["A"] 120 5);
    ("A", set_state running
            (set_process (Some (mkProcess 1 None))
               (sample_unit "A" ["run-a"] [] 120 5))) ].

(** ["B"] declares a dependency that is not configured. *)
Definition dangling : Services :=
  [ ("A", sample_unit "A" ["run-a"] [] 120 5);
    ("B", sample_unit "B" ["run-b"] ["A"; "ghost"] 120 5) ].

Definition boot (svcs : Services) : World := mkWorld svcs false None 0 [].

(** Every spawn succeeds, no process exits by itself, every probe
    answers 200. *)
Definition env_healthy : Env :=
  mkEnv (fun t _ => Some (100 + t)) (fun _ _ => None)
        (fun _ _ => Some 200%Z) (fun _ _ => true).

(** As [env_healthy], but every probe answers 503. *)
Definition env_unready : Env :=
  mkEnv (fun t _ => Some (100 + t)) (fun _ _ => None)
        (fun _ _ => Some 503%Z) (fun _ _ => true).

(** As [env_healthy], but the process with pid 1 is seen exited with
    code [-15] at the next suspension point. *)
Definition env_old_exits : Env :=
  mkEnv (fun t _ => Some (100 + t))
        (fun p _ => if decide (p = 1) then Some (-15)%Z else None)
        (fun _ _ => Some 200%Z) (fun _ _ => true).

(** Every child exits with code 1 as soon as it is started. *)
Definition env_crashing : Env :=
  mkEnv (fun t _ => Some (100 + t)) (fun _ _ => Some 1%Z)
        (fun _ _ => None) (fun _ _ => false).

(** A unit whose startup failed and whose process has exited. *)
Definition crashed_unit : ManagedService :=
  set_state error
    (set_process (Some (mkProcess 7 (Some 1%Z)))
       (sample_unit "A" ["run-a"] [] 120 5)).

(** A log whose tail is health-probe noise. *)
Definition noisy_log : list string :=
  [ "INFO model loaded";
    "INFO: 127.0.0.1 - " +:+ String dquote "GET /health HTTP/1.1" +:+ String dquote " 200 OK";
    "INFO: 127.0.0.1 - " +:+ String dquote "GET /health HTTP/1.1" +:+ String dquote " 200 OK";
    "INFO: 127.0.0.1 - " +:+ String dquote "GET /health HTTP/1.1" +:+ String dquote " 200 OK" ].

(** * Properties *)

(** ** Association-list dictionary *)

Lemma services_get_Some_key sid svcs s :
  services_get sid svcs = Some s -> sid ∈ map fst svcs.
Proof.
  induction svcs as [|[k v] rest IH]; simpl; [discriminate|].
  destruct (decide (k = sid)) as [->|Hne]; intros H.
  - apply list_elem_of_here.
  - apply list_elem_of_further. auto.
Qed.

Lemma services_get_key_Some sid svcs :
  sid ∈ map fst svcs -> exists s, services_get sid svcs = Some s.
Proof.
  induction svcs as [|[k v] rest IH]; simpl; intros H.
  - inversion H.
  - destruct (decide (k = sid)) as [->|Hne]; [eauto|].
    apply elem_of_cons in H as [H|H]; [congruence|auto].
Qed.

Lemma services_get_None_key sid svcs :
  services_get sid svcs = None <-> sid ∉ map fst svcs.
Proof.
  split.
  - intros H Hin. apply services_get_key_Some in Hin as [s Hs]. congruence.
  - intros H. destruct (services_get sid svcs) eqn:E; [|done].
    apply services_get_Some_key in E. done.
Qed.

Lemma elem_of_rev {A : Type} (l : list A) (x : A) : x ∈ rev l <-> x ∈ l.
Proof. rewrite !list_elem_of_In. symmetry. apply in_rev. Qed.

Lemma elem_of_snoc {A : Type} (l : list A) (x y : A) :
  x ∈ l ++ [y] <-> x ∈ l \/ x = y.
Proof. rewrite elem_of_app, list_elem_of_singleton. tauto. Qed.

(** ** The traversal of [_start_order] *)

Section StartOrder.

Variable svcs : Services.

Lemma extends_refl V O : extends V O V O.
Proof. exists []. rewrite app_nil_r. set_solver. Qed.

Lemma extends_trans V1 O1 V2 O2 V3 O3 :
  extends V1 O1 V2 O2 -> extends V2 O2 V3 O3 -> extends V1 O1 V3 O3.
Proof.
  intros (n1 & -> & Hv1 & Hd1) (n2 & -> & Hv2 & Hd2).
  exists (n1 ++ n2). rewrite app_assoc. split; [done|]. split.
  - intros x. rewrite Hv2, Hv1, elem_of_app. tauto.
  - intros x [H|H]%elem_of_app; [auto|].
    intros HV. apply (Hd2 x H). apply Hv1. auto.
Qed.

Lemma extends_stack V O V' O' x :
  extends V O V' O' -> (x ∈ V' /\ x ∉ O') -> x ∈ V /\ x ∉ O.
Proof.
  intros (new & -> & Hv & Hd) [HV HO].
  rewrite elem_of_app in HO. apply Hv in HV as [HV|HV]; tauto.
Qed.

Lemma extends_order_mono V O V' O' x :
  extends V O V' O' -> x ∈ O -> x ∈ O'.
Proof. intros (new & -> & _) H. apply elem_of_app. auto. Qed.

Lemma strictly_before_app d u O new :
  strictly_before d u O -> strictly_before d u (O ++ new).
Proof.
  intros (l1 & l2 & l3 & ->). exists l1, l2, (l3 ++ new).
  rewrite <- app_assoc. simpl. by rewrite <- app_assoc.
Qed.

Lemma strictly_before_snoc d u O : d ∈ O -> strictly_before d u (O ++ [u]).
Proof.
  intros (l1 & l2 & ->)%list_elem_of_split. exists l1, l2, [].
  by rewrite <- app_assoc.
Qed.

Hypothesis Hacyclic : acyclic svcs.

Lemma tc_declares_r x y z :
  tc (declares svcs) x y -> declares svcs y z -> tc (declares svcs) x z.
Proof. intros H1 H2. eapply tc_r; eauto. Qed.

(** The loop over the dependencies, given the property of [visit] at
    the same fuel. *)
Lemma for_each_dep_visit_correct fuel
    (IH : forall sid V O V' O',
        dfs_inv svcs V O ->
        (forall x, x ∈ V -> x ∉ O -> tc (declares svcs) x sid) ->
        visit fuel svcs sid (V, O) = Some (V', O') ->
        extends V O V' O' /\ dfs_inv svcs V' O' /\ sid ∈ O') :
  forall deps V O V' O',
    dfs_inv svcs V O ->
    (forall x d, x ∈ V -> x ∉ O -> d ∈ deps -> tc (declares svcs) x d) ->
    for_each_dep (visit fuel svcs) deps (V, O) = Some (V', O') ->
    extends V O V' O' /\ dfs_inv svcs V' O' /\ (forall d, d ∈ deps -> d ∈ O').
Proof.
  induction deps as [|d ds IHds]; intros V O V' O' Hinv Hstack Hrun; simpl in Hrun.
  - injection Hrun as <- <-. split; [apply extends_refl|]. split; [done|].
    intros d Hd. inversion Hd.
  - destruct (visit fuel svcs d (V, O)) as [[V1 O1]|] eqn:Hv; [|discriminate].
    apply IH in Hv as (Hext1 & Hinv1 & Hd1); [|done|].
    2:{ intros x Hx Hx'. apply (Hstack x d); [done|done|apply list_elem_of_here]. }
    apply IHds in Hrun as (Hext2 & Hinv2 & Hds); [|done|].
    2:{ intros x d' Hx Hx' Hd'.
        destruct (extends_stack _ _ _ _ x Hext1 (conj Hx Hx')) as [HxV HxO].
        apply (Hstack x d'); [done|done|by apply list_elem_of_further]. }
    split; [eapply extends_trans; eauto|]. split; [done|].
    intros d' [->|Hd']%elem_of_cons; [|auto].
    eapply extends_order_mono; eauto.
Qed.

Lemma visit_correct fuel : forall sid V O V' O',
  dfs_inv svcs V O ->
  (forall x, x ∈ V -> x ∉ O -> tc (declares svcs) x sid) ->
  visit fuel svcs sid (V, O) = Some (V', O') ->
  extends V O V' O' /\ dfs_inv svcs V' O' /\ sid ∈ O'.
Proof.
  induction fuel as [|fuel IH]; intros sid V O V' O' Hinv Hstack Hrun;
    simpl in Hrun; [discriminate|].
  destruct (decide (sid ∈ V)) as [HV|HV].
  - injection Hrun as <- <-. split; [apply extends_refl|]. split; [done|].
    destruct (decide (sid ∈ O)) as [|HO]; [done|].
    exfalso. apply (Hacyclic sid). auto.
  - assert (HsidO : sid ∉ O) by (intros H; apply HV, Hinv, H).
    assert (Hinv1 : dfs_inv svcs ({[sid]} ∪ V) O).
    { destruct Hinv. split; [set_solver|done|done]. }
    destruct (services_get sid svcs) as [svc|] eqn:Hget.
    + destruct (for_each_dep (visit fuel svcs) (depends_on svc) ({[sid]} ∪ V, O))
        as [[V2 O2]|] eqn:Hloop; [|discriminate].
      simpl in Hrun. injection Hrun as <- <-.
      apply (for_each_dep_visit_correct fuel IH) in Hloop
        as ((new & -> & Hv & Hd) & Hinv2 & Hdeps); [|done|].
      2:{ intros x d [Hx%elem_of_singleton|Hx]%elem_of_union HxO Hd; [subst x|].
          - apply tc_once. by exists svc.
          - eapply tc_declares_r; [by apply Hstack|]. by exists svc. }
      assert (Hsid2 : sid ∉ O ++ new).
      { intros [H|H]%elem_of_app; [done|]. apply (Hd _ H). set_solver. }
      split; [|split].
      * exists (new ++ [sid]). rewrite app_assoc. split; [done|]. split.
        -- intros x. rewrite Hv, elem_of_app, elem_of_union, elem_of_singleton.
           rewrite list_elem_of_singleton. tauto.
        -- intros x [H| ->]%elem_of_snoc; [|done].
           intros HxV. apply (Hd _ H). set_solver.
      * destruct Hinv2 as [Hs2 Hn2 Hc2]. split.
        -- intros x [H| ->]%elem_of_snoc; [auto|].
           apply Hv. left. set_solver.
        -- apply NoDup_app. split; [done|]. split; [|apply NoDup_singleton].
           intros x Hx Hx'%list_elem_of_singleton. by subst x.
        -- intros u d [H| ->]%elem_of_snoc Hdecl.
           ++ apply strictly_before_app. auto.
           ++ apply strictly_before_snoc. apply Hdeps.
              destruct Hdecl as (svc' & Hg & Hin). congruence.
      * apply elem_of_app. right. apply list_elem_of_here.
    + simpl in Hrun. injection Hrun as <- <-. split; [|split].
      * exists [sid]. split; [done|]. split.
        -- intros x. rewrite elem_of_union, elem_of_singleton, list_elem_of_singleton. tauto.
        -- intros x Hx%list_elem_of_singleton. by subst x.
      * destruct Hinv as [Hs Hn Hc]. split.
        -- intros x [H| ->]%elem_of_snoc; set_solver.
        -- apply NoDup_app. split; [done|]. split; [|apply NoDup_singleton].
           intros x Hx Hx'%list_elem_of_singleton. by subst x.
        -- intros u d [H| ->]%elem_of_snoc Hdecl.
           ++ apply strictly_before_app. auto.
           ++ destruct Hdecl as (svc' & Hg & Hin). congruence.
      * apply elem_of_app. right. apply list_elem_of_here.
Qed.

End StartOrder.

(** *** Termination of the traversal *)

Section StartOrderTotal.

Variable svcs : Services.

Let U : gset string := list_to_set (universe svcs).

Lemma depends_on_universe sid svc d :
  services_get sid svcs = Some svc -> d ∈ depends_on svc -> d ∈ universe svcs.
Proof.
  unfold universe. intros Hget Hd. apply elem_of_app. right.
  induction svcs as [|[k v] rest IH]; simpl in *; [discriminate|].
  apply elem_of_app. destruct (decide (k = sid)).
  - left. congruence.
  - right. auto.
Qed.

Lemma for_each_dep_visit_total fuel
    (IH : forall sid V O, sid ∈ universe svcs -> size (U ∖ V) < fuel ->
        exists V' O', visit fuel svcs sid (V, O) = Some (V', O') /\ V ⊆ V') :
  forall deps V O,
    (forall d, d ∈ deps -> d ∈ universe svcs) -> size (U ∖ V) < fuel ->
    exists V' O', for_each_dep (visit fuel svcs) deps (V, O) = Some (V', O') /\ V ⊆ V'.
Proof.
  induction deps as [|d ds IHds]; intros V O Hdeps Hfuel; simpl.
  - by exists V, O.
  - destruct (IH d V O) as (V1 & O1 & -> & Hsub); [apply Hdeps, list_elem_of_here|done|].
    destruct (IHds V1 O1) as (V2 & O2 & -> & Hsub2).
    + intros d' Hd'. by apply Hdeps, list_elem_of_further.
    + eapply Nat.le_lt_trans; [|exact Hfuel].
      apply subseteq_size. set_solver.
    + exists V2, O2. split; [done|set_solver].
Qed.

Lemma visit_total fuel : forall sid V O,
  sid ∈ universe svcs -> size (U ∖ V) < fuel ->
  exists V' O', visit fuel svcs sid (V, O) = Some (V', O') /\ V ⊆ V'.
Proof.
  induction fuel as [|fuel IH]; intros sid V O Hsid Hfuel; [lia|].
  simpl. destruct (decide (sid ∈ V)) as [HV|HV]; [by exists V, O|].
  assert (Hlt : size (U ∖ ({[sid]} ∪ V)) < size (U ∖ V)).
  { apply subset_size. apply strict_spec_alt. split; [set_solver|].
    intros Heq. assert (sid ∈ U ∖ V) as Hin.
    { apply elem_of_difference. split; [by apply elem_of_list_to_set|done]. }
    rewrite <- Heq in Hin. set_solver. }
  destruct (services_get sid svcs) as [svc|] eqn:Hget.
  - destruct (for_each_dep_visit_total fuel IH (depends_on svc) ({[sid]} ∪ V) O)
      as (V2 & O2 & -> & Hsub).
    + intros d Hd. eapply depends_on_universe; eauto.
    + lia.
    + simpl. eexists _, _. split; [done|set_solver].
  - simpl. eexists _, _. split; [done|set_solver].
Qed.

Lemma _start_order_total : exists order, _start_order svcs = Some order.
Proof.
  unfold _start_order, _start_order_fuel.
  destruct (for_each_dep_visit_total (S (length (universe svcs)))
              (visit_total _) (map fst svcs) ∅ []) as (V & O & -> & _).
  - intros d Hd. unfold universe. apply elem_of_app. auto.
  - apply Nat.lt_succ_r.
    etransitivity; [apply subseteq_size with (Y := U); set_solver|].
    unfold U. generalize (universe svcs). clear. intros l.
    induction l as [|x l IH].
    + done.
    + rewrite list_to_set_cons, size_union_alt, size_singleton. simpl.
      assert (size (list_to_set l ∖ {[x]} : gset string) <= size (list_to_set l : gset string)).
      { apply subseteq_size. set_solver. }
      lia.
  - by exists O.
Qed.

End StartOrderTotal.

(** *** The order depends on the dependency table only *)

Lemma universe_table svcs :
  universe svcs =
  map fst (dependency_table svcs) ++ concat (map snd (dependency_table svcs)).
Proof.
  unfold universe, dependency_table. by rewrite !map_map.
Qed.

Lemma keys_table svcs : map fst svcs = map fst (dependency_table svcs).
Proof. unfold dependency_table. by rewrite map_map. Qed.

Lemma services_get_table svcs svcs' sid :
  dependency_table svcs = dependency_table svcs' ->
  depends_on <$> services_get sid svcs = depends_on <$> services_get sid svcs'.
Proof.
  revert svcs'. induction svcs as [|[k v] rest IH]; intros [|[k' v'] rest'] Heq;
    simpl in *; try discriminate; [done|].
  injection Heq as -> Hd Hrest.
  destruct (decide (k' = sid)); simpl; [by rewrite Hd|auto].
Qed.

Lemma for_each_dep_ext {S : Type} (f g : string -> S -> option S) deps st :
  (forall d s, f d s = g d s) -> for_each_dep f deps st = for_each_dep g deps st.
Proof.
  intros Hfg. revert st. induction deps as [|d ds IH]; intros st; simpl; [done|].
  rewrite Hfg. destruct (g d st); auto.
Qed.

Lemma visit_table svcs svcs' fuel sid st :
  dependency_table svcs = dependency_table svcs' ->
  visit fuel svcs sid st = visit fuel svcs' sid st.
Proof.
  intros Heq. revert sid st. induction fuel as [|fuel IH]; intros sid st; simpl; [done|].
  destruct (decide (sid ∈ st.1)); [done|].
  pose proof (services_get_table svcs svcs' sid Heq) as Hg.
  destruct (services_get sid svcs) as [s|], (services_get sid svcs') as [s'|];
    simpl in Hg; try discriminate; [|done].
  injection Hg as ->.
  by rewrite (for_each_dep_ext _ _ _ _ IH).
Qed.

Lemma _start_order_table svcs svcs' :
  dependency_table svcs = dependency_table svcs' ->
  _start_order svcs = _start_order svcs'.
Proof.
  intros Heq. unfold _start_order, _start_order_fuel.
  rewrite !universe_table, !keys_table, Heq.
  by rewrite (for_each_dep_ext _ _ _ _
               (fun d s => visit_table svcs svcs' _ d s Heq)).
Qed.

(** *** The computed order *)

Lemma dfs_inv_empty svcs : dfs_inv svcs ∅ [].
Proof.
  split.
  - intros x Hx. inversion Hx.
  - apply NoDup_nil_2.
  - intros u d Hu. inversion Hu.
Qed.

Lemma _start_order_inv svcs order :
  acyclic svcs -> _start_order svcs = Some order ->
  NoDup order /\
  (forall k, k ∈ map fst svcs -> k ∈ order) /\
  (forall u d, declares svcs u d -> strictly_before d u order).
Proof.
  intros Hac. unfold _start_order, _start_order_fuel.
  destruct (for_each_dep _ _ _) as [[V O]|] eqn:Hrun; [|discriminate].
  intros [= <-]. simpl.
  apply (for_each_dep_visit_correct svcs _ (visit_correct svcs Hac _))
    in Hrun as (_ & Hinv & Hkeys); [|apply dfs_inv_empty|set_solver].
  destruct Hinv as [_ Hnd Hcl]. split; [done|]. split; [done|].
  intros u d Hdecl. apply Hcl; [|done].
  destruct Hdecl as (svc & Hget & _). eapply Hkeys, services_get_Some_key, Hget.
Qed.

(** C3: for an acyclic dependency configuration the computed start
    order exists, lists no unit twice, places every declared dependency
    strictly before the unit that declares it, and is the same for any
    unit set with the same identifiers and dependencies in the same
    order. *)
Theorem start_order_topological (svcs : Services) :
  acyclic svcs ->
  exists order,
    _start_order svcs = Some order /\
    NoDup order /\
    (forall u d, declares svcs u d -> strictly_before d u order) /\
    (forall svcs', dependency_table svcs' = dependency_table svcs ->
                   _start_order svcs' = Some order).
Proof.
  intros Hac. destruct (_start_order_total svcs) as [order Horder].
  exists order. split; [done|].
  destruct (_start_order_inv svcs order Hac Horder) as (Hnd & _ & Hbefore).
  split; [done|]. split; [done|].
  intros svcs' Heq. by rewrite (_start_order_table svcs' svcs Heq).
Qed.

(** ** Runs of the supervisor *)


Lemma services_get_update sid v f l :
  services_get v (services_update sid f l) =
  if decide (v = sid) then f <$> services_get v l else services_get v l.
Proof.
  induction l as [|[k s] rest IH]; simpl.
  - by destruct (decide (v = sid)).
  - destruct (decide (k = sid)) as [->|Hk]; simpl.
    + destruct (decide (sid = v)) as [->|Hv].
      * by rewrite decide_True.
      * by rewrite decide_False by congruence.
    + destruct (decide (k = v)) as [->|Hv]; [|done].
      by rewrite decide_False.
Qed.

Lemma services_get_map (g : ManagedService -> ManagedService) v l :
  services_get v (map (fun kv => (kv.1, g kv.2)) l) = g <$> services_get v l.
Proof.
  induction l as [|[k s] rest IH]; simpl; [done|].
  by destruct (decide (k = v)).
Qed.

Lemma statics_update sid f l :
  (forall s, static (f s) = static s) ->
  statics (services_update sid f l) = statics l.
Proof.
  intros Hf. induction l as [|[k s] rest IH]; simpl; [done|].
  destruct (decide (k = sid)); simpl; [by rewrite Hf|by rewrite IH].
Qed.

Lemma statics_map (g : ManagedService -> ManagedService) l :
  (forall s, static (g s) = static s) ->
  statics (map (fun kv => (kv.1, g kv.2)) l) = statics l.
Proof.
  intros Hg. induction l as [|[k s] rest IH]; simpl; [done|].
  by rewrite Hg, IH.
Qed.

Lemma statics_get l l' v :
  statics l' = statics l ->
  static <$> services_get v l' = static <$> services_get v l.
Proof.
  revert l'. induction l as [|[k s] rest IH]; intros [|[k' s'] rest'] Heq;
    simpl in *; try discriminate; [done|].
  injection Heq; intros Hrest; intros; subst k'.
  destruct (decide (k = v)); [cbn; unfold static; congruence|auto].
Qed.

Lemma statics_table l l' :
  statics l' = statics l -> dependency_table l' = dependency_table l.
Proof.
  revert l'. induction l as [|[k s] rest IH]; intros [|[k' s'] rest'] Heq;
    simpl in *; try discriminate; [done|].
  injection Heq; intros Hrest; intros; subst k'. f_equal; [|auto].
  simpl. congruence.
Qed.

Lemma statics_keys l l' : statics l' = statics l -> map fst l' = map fst l.
Proof.
  intros H. apply (f_equal (map fst)) in H. unfold statics in H.
  by rewrite !map_map in H.
Qed.

Ltac run_simpl :=
  cbv [mbind M_bind the get_world mret M_ret raise out_of_fuel mutate
       modify_world emit await] in *; simpl in *.

Ltac get_simpl :=
  unfold state_of, svc_of in *; simpl;
  repeat first
    [ rewrite services_get_update
    | rewrite services_get_map
    | rewrite decide_True by done ].

Section Runs.
Variable env : Env.

Lemma reap_static t s : static (reap env t s) = static s.
Proof. unfold reap. by destruct (process s) as [[p [c|]]|]. Qed.

Lemma reap_state t s : _state (reap env t s) = _state s.
Proof. unfold reap. by destruct (process s) as [[p [c|]]|]. Qed.

Lemma reap_not_alive t s : not_alive s = true -> reap env t s = s.
Proof.
  unfold reap, not_alive. destruct (process s) as [[p [c|]]|]; try done.
Qed.

Lemma frame_refl P w : frame P w w.
Proof. split; try done. exists []. by rewrite app_nil_r. Qed.

Lemma frame_trans P w1 w2 w3 : frame P w1 w2 -> frame P w2 w3 -> frame P w1 w3.
Proof.
  intros [Hs1 Ho1 Hf1 Hm1 (e1 & Ht1 & He1)] [Hs2 Ho2 Hf2 Hm2 (e2 & Ht2 & He2)].
  split; try congruence.
  - intros v Hv. rewrite Ho2, Ho1; done.
  - exists (e1 ++ e2). rewrite Ht2, Ht1, app_assoc. split; [done|].
    by apply Forall_app.
Qed.

Lemma frame_weaken (P Q : string -> Prop) w w' :
  (forall u, P u -> Q u) -> frame P w w' -> frame Q w w'.
Proof.
  intros HPQ [Hs Ho Hf Hm (e & Ht & He)]. split; try done.
  - intros v Hv. apply Ho. auto.
  - exists e. split; [done|]. eapply Forall_impl; [exact He|].
    intros x (u & Hu & HP). eauto.
Qed.

Lemma keeps_ret {A} P (a : A) : keeps P (mret a : M A).
Proof. intros w r w' [= <- <-]. apply frame_refl. Qed.

Lemma keeps_raise {A} P e : keeps P (raise e : M A).
Proof. intros w r w' [= <- <-]. apply frame_refl. Qed.

Lemma keeps_out_of_fuel {A} P : keeps P (out_of_fuel : M A).
Proof. intros w r w' [= <- <-]. apply frame_refl. Qed.

Lemma keeps_get_world P : keeps P get_world.
Proof. intros w r w' [= <- <-]. apply frame_refl. Qed.

Lemma keeps_bind {A B} P (m : M A) (k : A -> M B) :
  keeps P m -> (forall a, keeps P (k a)) -> keeps P (m ≫= k).
Proof.
  intros Hm Hk w r w'. unfold mbind, M_bind.
  destruct (m w) as [[a|e|] w1] eqn:Hrun; specialize (Hm _ _ _ Hrun).
  - intros Hk'. eapply frame_trans; [exact Hm|]. eapply Hk, Hk'.
  - by intros [= <- <-].
  - by intros [= <- <-].
Qed.

Lemma keeps_the P sid : keeps P (the sid).
Proof.
  unfold the. apply keeps_bind; [apply keeps_get_world|].
  intros w. destruct (services_get sid (services w)); [apply keeps_ret|apply keeps_raise].
Qed.

Lemma keeps_mutate (P : string -> Prop) sid f :
  P sid -> (forall s, static (f s) = static s) -> keeps P (mutate sid f).
Proof.
  intros HP Hf w r w' [= <- <-]. split; simpl; try done.
  - by apply statics_update.
  - intros v Hv. unfold state_of, svc_of. simpl.
    rewrite services_get_update, decide_False; [done|]. by intros ->.
  - exists []. by rewrite app_nil_r.
Qed.

Lemma keeps_await P : keeps P (await env).
Proof.
  intros w r w' [= <- <-]. split; simpl; try done.
  - apply statics_map, reap_static.
  - intros v Hv. unfold state_of, svc_of. simpl.
    rewrite services_get_map. destruct (services_get v (services w)); simpl; [|done].
    by rewrite reap_state.
  - exists []. by rewrite app_nil_r.
Qed.

Lemma keeps_emit (P : string -> Prop) e u :
  ev_unit e = Some u -> P u -> keeps P (emit e).
Proof.
  intros He HP w r w' [= <- <-]. split; simpl; try done.
  exists [e]. split; [done|]. apply Forall_singleton. eauto.
Qed.

Lemma keeps_for_each {A} P (l : list A) body :
  (forall x, x ∈ l -> keeps P (body x)) -> keeps P (for_each l body).
Proof.
  induction l as [|x l IH]; intros Hb; simpl; [apply keeps_ret|].
  apply keeps_bind; [apply Hb, list_elem_of_here|].
  intros _. apply IH. intros y Hy. by apply Hb, list_elem_of_further.
Qed.

Ltac keeps_tac :=
  repeat first
    [ apply keeps_bind; [|intros ?]
    | apply keeps_ret | apply keeps_raise | apply keeps_out_of_fuel
    | apply keeps_get_world | apply keeps_the | apply keeps_await
    | apply keeps_mutate; [done|done]
    | eapply keeps_emit; [reflexivity|done]
    | match goal with |- keeps _ (if ?b then _ else _) => destruct b end
    | match goal with |- keeps _ (match ?x with _ => _ end) => destruct x end ].

Lemma keeps_state (P : string -> Prop) sid : P sid -> keeps P (state sid).
Proof.
  intros HP. unfold state. apply keeps_bind; [apply keeps_the|]. intros s.
  apply keeps_bind; [|intros; apply keeps_ret].
  apply keeps_mutate; [done|]. intros s'. unfold state_getter.
  destruct (decide _); [done|]. by destruct (not_alive s').
Qed.

Lemma keeps_start (P : string -> Prop) sid : P sid -> keeps P (start env sid).
Proof. intros HP. unfold start. keeps_tac. Qed.

Lemma keeps_wait_healthy_loop (P : string -> Prop) fuel sid url elapsed :
  P sid -> keeps P (wait_healthy_loop env fuel sid url elapsed).
Proof.
  intros HP. revert elapsed. induction fuel as [|fuel IH]; intros elapsed; simpl.
  - keeps_tac.
  - keeps_tac. apply IH.
Qed.

Lemma keeps_wait_healthy (P : string -> Prop) fuel sid :
  P sid -> keeps P (wait_healthy env fuel sid).
Proof.
  intros HP. unfold wait_healthy.
  apply keeps_bind; [apply keeps_the|]. intros s.
  apply keeps_bind.
  - destruct (no_health_url s); [keeps_tac|by apply keeps_wait_healthy_loop].
  - intros b. keeps_tac.
Qed.

Lemma keeps_stop (P : string -> Prop) sid : P sid -> keeps P (stop env sid).
Proof. intros HP. unfold stop. keeps_tac. Qed.

Lemma keeps_start_all_step (P : string -> Prop) fuel sid :
  P sid -> keeps P (start_all_step env fuel sid).
Proof.
  intros HP. unfold start_all_step.
  apply keeps_bind; [apply keeps_the|]. intros _.
  apply keeps_bind; [by apply keeps_state|]. intros st.
  destruct (decide (st = running)); [keeps_tac|].
  apply keeps_bind; [by apply keeps_start|]. intros _.
  apply keeps_bind; [by apply keeps_wait_healthy|]. intros b.
  keeps_tac.
Qed.

(** *** What each method does *)

Lemma bind_run {A B : Type} (m : M A) (k : A -> M B) w :
  (m ≫= k) w =
  match m w with
  | (Ret a, w1) => k a w1
  | (Raise e, w1) => (Raise e, w1)
  | (OutOfFuel, w1) => (OutOfFuel, w1)
  end.
Proof. reflexivity. Qed.

Lemma the_run sid w :
  the sid w =
  match svc_of sid w with
  | Some s => (Ret s, w)
  | None => (Raise (KeyError sid), w)
  end.
Proof. unfold the, svc_of. rewrite bind_run. simpl. by destruct (services_get _ _). Qed.

Lemma emit_run e w : emit e w = (Ret tt, with_event e w).
Proof. reflexivity. Qed.

Lemma mutate_run sid f w :
  mutate sid f w = (Ret tt, with_services (services_update sid f) w).
Proof. reflexivity. Qed.

Lemma state_shape sid w :
  state sid w =
  match svc_of sid w with
  | Some s => (Ret (state_getter s).1,
               with_services (services_update sid (fun s => (state_getter s).2)) w)
  | None => (Raise (KeyError sid), w)
  end.
Proof.
  unfold state, svc_of. run_simpl. by destruct (services_get sid (services w)).
Qed.

Lemma state_getter_cases s :
  state_getter s =
  if decide (_state s = starting) then (starting, s)
  else if not_alive s then (stopped, set_state stopped s)
  else (_state s, s).
Proof. unfold state_getter. destruct (decide _) as [->|]; done. Qed.

Lemma state_getter_state s : _state (state_getter s).2 = (state_getter s).1.
Proof.
  unfold state_getter. destruct (decide _); [done|]. by destruct (not_alive s).
Qed.

Lemma state_getter_process s : process (state_getter s).2 = process s.
Proof.
  unfold state_getter. destruct (decide _); [done|]. by destruct (not_alive s).
Qed.

Lemma state_getter_running s :
  (state_getter s).1 = running -> _state s = running /\ not_alive s = false.
Proof.
  unfold state_getter. destruct (decide _) as [E|E]; simpl; [congruence|].
  destruct (not_alive s); simpl; [discriminate|done].
Qed.

Lemma state_run sid w r w' :
  state sid w = (r, w') ->
  trace w' = trace w /\
  match r with
  | Ret st => exists s, svc_of sid w = Some s /\ st = (state_getter s).1 /\
                        svc_of sid w' = Some (state_getter s).2
  | Raise e => w' = w /\ svc_of sid w = None
  | OutOfFuel => False
  end.
Proof.
  rewrite state_shape. destruct (svc_of sid w) as [s|] eqn:Hs; intros [= <- <-].
  - split; [done|]. exists s. split; [done|]. split; [done|].
    get_simpl. by rewrite Hs.
  - done.
Qed.

(** [start]: the outcomes. *)
Lemma start_run sid w r w' :
  start env sid w = (r, w') ->
  match r with
  | Ret _ => exists s p s', svc_of sid w = Some s /\ not_alive s = true /\
       trace w' = trace w ++ [EvSpawn sid (command s) p] /\
       svc_of sid w' = Some s' /\ _state s' = starting /\ not_alive s' = false
  | Raise e =>
      trace w' = trace w /\
      (e = KeyError sid \/ e = OSError \/
       exists s, svc_of sid w = Some s /\ not_alive s = false /\ w' = w /\
                 e = RuntimeError (name s +:+ " is already running"))
  | OutOfFuel => False
  end.
Proof.
  unfold start, svc_of. run_simpl.
  destruct (services_get sid (services w)) as [s|] eqn:Hs.
  2:{ intros [= <- <-]. auto. }
  destruct (not_alive s) eqn:Hal; simpl.
  2:{ intros [= <- <-]. split; [done|]. right. right. by exists s. }
  destruct (spawn env _ _) as [p|]; simpl.
  2:{ intros [= <- <-]. auto. }
  intros [= <- <-]. simpl. eexists s, p, _. split; [done|]. split; [done|].
  split; [done|]. get_simpl. rewrite Hs. simpl.
  split; [reflexivity|]. split; [|done]. simpl. by rewrite reap_state.
Qed.

Lemma omap_silent {A B : Type} (f : A -> option B) (l : list A) :
  Forall (fun e => f e = None) l -> omap f l = [].
Proof. induction 1 as [|e l He _ IH]; [done|]. cbn. by rewrite He. Qed.

Lemma polling_silent sid evs :
  Forall (polling sid) evs ->
  launches evs = [] /\ stop_calls evs = [] /\ passed evs = [] /\
  visits evs = [] /\ signals evs = [].
Proof.
  intros H. repeat split; try apply omap_silent;
    try (eapply Forall_impl; [exact H|]; by intros []).
  induction H as [|e l He _ IH]; [done|]. by destruct e.
Qed.

(** The polling loop: its events are probes and sleeps of [sid], every
    failed probe is followed by one sleep of the poll interval, and the
    last probe was issued while [elapsed] was below the timeout. *)
Lemma wait_healthy_loop_run sid url (T p : Z) fuel : forall elapsed w r w',
  (startup_timeout <$> svc_of sid w) = Some T ->
  (startup_poll_interval <$> svc_of sid w) = Some p ->
  wait_healthy_loop env fuel sid url elapsed w = (r, w') ->
  exists evs, trace w' = trace w ++ evs /\ Forall (polling sid) evs /\
    (0 < probes evs -> (elapsed + p * (Z.of_nat (probes evs) - 1) < T)%Z) /\
    match r with
    | Ret true =>
        state_of sid w' = Some running /\
        slept evs = (p * (Z.of_nat (probes evs) - 1))%Z /\
        exists evs0, evs = evs0 ++ [EvProbe sid (Some 200%Z)]
    | Ret false =>
        state_of sid w' = Some error /\
        slept evs = (p * Z.of_nat (probes evs))%Z /\
        ((has_exited <$> svc_of sid w') = Some true \/
         (T <= elapsed + slept evs)%Z)
    | Raise _ => False
    | OutOfFuel =>
        probes evs = fuel /\ slept evs = (p * Z.of_nat fuel)%Z /\
        (elapsed + p * Z.of_nat fuel < T)%Z
    end.
Proof.
  induction fuel as [|fuel IH]; intros elapsed w r w' HT Hp.
  - simpl. unfold svc_of in *. run_simpl.
    destruct (services_get sid (services w)) as [s|] eqn:Hs; [|discriminate].
    injection HT as HT. injection Hp as Hp. rewrite HT.
    case_bool_decide; intros [= <- <-]; simpl.
    + exists []. rewrite app_nil_r. split; [done|]. split; [done|].
      split; [cbn; lia|]. cbn. split; [done|]. split; lia.
    + exists []. rewrite app_nil_r. split; [done|]. split; [done|].
      split; [cbn; lia|]. cbn. get_simpl. rewrite Hs. simpl.
      split; [done|]. split; [lia|]. right. lia.
  - simpl. unfold svc_of in HT, Hp.
    destruct (services_get sid (services w)) as [s|] eqn:Hs; [|discriminate].
    injection HT as HT. injection Hp as Hp.
    unfold mbind at 1, M_bind at 1, the at 1. unfold mbind at 1, M_bind at 1.
    unfold get_world at 1. rewrite Hs. unfold mret at 1, M_ret at 1.
    rewrite HT. case_bool_decide as Hguard.
    2:{ run_simpl. intros [= <- <-]. simpl.
        exists []. rewrite app_nil_r. split; [done|]. split; [done|].
        split; [cbn; lia|]. cbn. get_simpl. rewrite Hs. simpl.
        split; [done|]. split; [lia|]. right. lia. }
    destruct (has_exited s) eqn:Hex.
    { run_simpl. intros [= <- <-]. simpl.
      exists []. rewrite app_nil_r. split; [done|]. split; [done|].
      split; [cbn; lia|]. cbn. get_simpl. rewrite Hs. simpl.
      split; [done|]. split; [lia|]. left. exact (f_equal Some Hex). }
    unfold mbind at 1, M_bind at 1, await at 1, modify_world at 1.
    unfold mbind at 1, M_bind at 1, get_world at 1.
    unfold mbind at 1, M_bind at 1, emit at 1, modify_world at 1.
    cbn [clock services _starting state_file trace with_event].
    set (t1 := S (clock w)).
    set (resp := http_get env url t1).
    case_bool_decide as Hresp.
    { run_simpl. intros [= <- <-]. simpl.
      exists [EvProbe sid resp]. split; [done|].
      split; [by apply Forall_singleton|]. cbn. split; [lia|].
      get_simpl. rewrite Hs. simpl. split; [done|]. split; [lia|].
      exists []. by rewrite Hresp. }
    unfold mbind at 1, M_bind at 1, await at 1, modify_world at 1.
    cbn [clock services _starting state_file trace with_event].
    match goal with |- context [(the sid ≫= _) ?x] => set (w2 := x) end.
    set (s2 := reap env (S t1) (reap env t1 s)).
    assert (Hs2 : svc_of sid w2 = Some s2).
    { subst w2. get_simpl. by rewrite Hs. }
    assert (Hp2 : startup_poll_interval s2 = p).
    { pose proof (reap_static (S t1) (reap env t1 s)) as H1.
      pose proof (reap_static t1 s) as H2. unfold static in H1, H2.
      subst s2. congruence. }
    assert (HT2 : startup_timeout s2 = T).
    { pose proof (reap_static (S t1) (reap env t1 s)) as H1.
      pose proof (reap_static t1 s) as H2. unfold static in H1, H2.
      subst s2. congruence. }
    rewrite bind_run, the_run, Hs2, bind_run, emit_run, Hp2.
    intros Hrec. apply IH in Hrec as (evs & Htr & Hpoll & Hlast & Hres).
    2:{ change (svc_of sid (with_event (EvSleep sid p) w2)) with (svc_of sid w2).
        rewrite Hs2. simpl. by rewrite HT2. }
    2:{ change (svc_of sid (with_event (EvSleep sid p) w2)) with (svc_of sid w2).
        rewrite Hs2. simpl. by rewrite Hp2. }
    exists (EvProbe sid resp :: EvSleep sid p :: evs).
    split. { rewrite Htr. subst w2. simpl. by rewrite <- !app_assoc. }
    split. { by repeat constructor. }
    assert (Hpr : probes (EvProbe sid resp :: EvSleep sid p :: evs) = S (probes evs))
      by reflexivity.
    assert (Hsl : slept (EvProbe sid resp :: EvSleep sid p :: evs) = (p + slept evs)%Z)
      by reflexivity.
    rewrite Hpr, Hsl. split.
    { intros _. destruct (probes evs) as [|n] eqn:Hn; [lia|]. lia. }
    destruct r as [[|]| |].
    + destruct Hres as (Hst & Hslept & evs0 & ->). split; [done|].
      split; [lia|]. by exists (EvProbe sid resp :: EvSleep sid p :: evs0).
    + destruct Hres as (Hst & Hslept & Hwhy). split; [done|].
      split; [lia|]. destruct Hwhy; [by left|right; lia].
    + done.
    + destruct Hres as (Hn & Hslept & Hlt). split; [by rewrite Hn|].
      split; lia.
Qed.

Lemma no_health_url_false s :
  no_health_url s = false -> exists url, health_url s = Some url /\ url <> "".
Proof.
  unfold no_health_url. destruct (health_url s) as [url|]; [|done].
  case_bool_decide; [done|]. eauto.
Qed.

(** [wait_healthy]: its events are the polling events followed by the
    returned value; the state is then [running] or [error]. *)
Lemma wait_healthy_run fuel sid w r w' :
  wait_healthy env fuel sid w = (r, w') ->
  exists evs, Forall (polling sid) evs /\
    match r with
    | Ret b => trace w' = trace w ++ evs ++ [EvWait sid b] /\
               state_of sid w' = Some (if b then running else error)
    | _ => trace w' = trace w ++ evs
    end.
Proof.
  unfold wait_healthy. rewrite bind_run, the_run.
  destruct (svc_of sid w) as [s|] eqn:Hs.
  2:{ intros [= <- <-]. exists []. by rewrite app_nil_r. }
  rewrite bind_run. destruct (no_health_url s) eqn:Hurl.
  - run_simpl. intros [= <- <-]. simpl. exists [EvSleep sid 2%Z].
    split; [by apply Forall_singleton|]. rewrite <- app_assoc. split; [done|].
    get_simpl. unfold svc_of in Hs. by rewrite Hs.
  - destruct (wait_healthy_loop _ _ _ _ _ _) as [r1 w1] eqn:Hloop.
    eapply wait_healthy_loop_run in Hloop as (evs & Htr & Hpoll & _ & Hres).
    2,3: by rewrite Hs.
    destruct r1 as [b| |].
    + rewrite bind_run, emit_run. intros [= <- <-]. exists evs. split; [done|].
      simpl. rewrite Htr, <- app_assoc. split; [done|].
      unfold state_of, svc_of in *. simpl.
      destruct b; by destruct Hres as [-> _].
    + done.
    + intros [= <- <-]. by exists evs.
Qed.

Lemma for_each_loop_run {A : Type} (body : A -> M unit)
    (spec : A -> World -> Outcome unit -> World -> Prop) :
  (forall x w r w', body x w = (r, w') -> spec x w r w') ->
  forall xs w r w', for_each xs body w = (r, w') -> loop_run spec xs w r w'.
Proof.
  intros Hspec. induction xs as [|x xs IH]; intros w r w'; simpl.
  - intros [= <- <-]. constructor.
  - rewrite bind_run. destruct (body x w) as [[[]|e|] w1] eqn:Hx.
    + intros Hrest. eapply loop_next; eauto.
    + intros [= <- <-]. apply loop_stop; [done|auto].
    + intros [= <- <-]. apply loop_stop; [done|auto].
Qed.

(** [stop]: it returns whenever the unit exists; on a unit without a
    live process it sends nothing. *)
Lemma stop_run sid w r w' :
  stop env sid w = (r, w') ->
  match svc_of sid w with
  | None => r = Raise (KeyError sid) /\ w' = w
  | Some s =>
      r = Ret tt /\
      exists sigs, trace w' = trace w ++ EvStop sid :: sigs /\
        Forall (fun e => is_signal e = true /\ ev_unit e = Some sid) sigs /\
        state_of sid w' = Some stopped /\
        (not_alive s = true ->
           sigs = [] /\ clock w' = clock w /\
           svc_of sid w' = Some (set_state stopped s)) /\
        (not_alive s = false ->
           (_log_file <$> svc_of sid w') = Some false /\
           exists d rest, sigs = EvKillpg sid SIGTERM d :: rest)
  end.
Proof.
  unfold stop. rewrite bind_run, the_run.
  destruct (svc_of sid w) as [s|] eqn:Hs; [|by intros [= <- <-]].
  rewrite bind_run, emit_run. unfold svc_of in Hs.
  destruct (not_alive s) eqn:Hal.
  - rewrite mutate_run. intros [= <- <-]. split; [done|]. exists [].
    split; [done|]. split; [done|]. get_simpl. rewrite Hs. simpl.
    split; [done|]. split; [done|]. done.
  - run_simpl.
    match goal with |- context [services_get sid ?l] =>
      assert (Hs1 : services_get sid l = Some (reap env (S (clock w)) s))
        by (get_simpl; by rewrite Hs) end.
    rewrite Hs1.
    destruct (not_alive (reap env (S (clock w)) s)) eqn:Hal1;
      intros [= <- <-]; (split; [done|]); simpl.
    + eexists [_]. rewrite <- app_assoc. split; [done|].
      split; [by repeat constructor|]. get_simpl. rewrite Hs. simpl.
      split; [done|]. split; [done|]. intros _. split; [done|]. eauto.
    + eexists [_; _]. rewrite <- !app_assoc. split; [done|].
      split; [by repeat constructor|]. get_simpl. rewrite Hs. simpl.
      split; [done|]. split; [done|]. intros _. split; [done|]. eauto.
Qed.

(** One iteration of [start_all]. *)
Lemma start_all_step_run fuel sid w r w' :
  start_all_step env fuel sid w = (r, w') ->
  exists evs, trace w' = trace w ++ evs /\ start_block sid w w' r evs.
Proof.
  unfold start_all_step. rewrite bind_run, the_run.
  destruct (svc_of sid w) as [s|] eqn:Hs.
  2:{ intros [= <- <-]. exists []. rewrite app_nil_r. split; [done|].
      apply sb_cut; auto. }
  rewrite bind_run, state_shape, Hs.
  set (w0 := with_services _ w).
  assert (Hs0 : svc_of sid w0 = Some (state_getter s).2).
  { subst w0. get_simpl. unfold svc_of in Hs. by rewrite Hs. }
  destruct (decide ((state_getter s).1 = running)) as [Hrun|Hrun].
  { rewrite emit_run. intros [= <- <-]. exists [EvSkip sid]. split; [done|].
    eapply sb_skip; eauto. unfold state_of.
    change (svc_of sid (with_event (EvSkip sid) w0)) with (svc_of sid w0).
    rewrite Hs0. simpl. by rewrite state_getter_state, Hrun. }
  rewrite bind_run. destruct (start env sid w0) as [r1 w1] eqn:Hstart.
  apply start_run in Hstart. destruct r1 as [[]|e|]; [|
    intros [= <- <-]; destruct Hstart as [Htr _]; exists [];
    rewrite app_nil_r; split; [done|]; apply sb_cut; auto | done].
  destruct Hstart as (s0 & p & s1 & Hs0' & Hal & Htr1 & Hs1 & Hst1 & Hal1).
  assert (s0 = (state_getter s).2) as -> by congruence.
  assert (Hcmd : command (state_getter s).2 = command s).
  { unfold state_getter. destruct (decide _); [done|]. by destruct (not_alive s). }
  rewrite Hcmd in Htr1.
  rewrite bind_run. destruct (wait_healthy env fuel sid w1) as [r2 w2] eqn:Hwait.
  apply wait_healthy_run in Hwait as (mid & Hpoll & Hres).
  destruct (polling_silent _ _ Hpoll) as (_ & _ & Hpassed & _).
  destruct r2 as [[|]|e|].
  - intros [= <- <-]. destruct Hres as [Htr2 Hst2].
    exists (EvSpawn sid (command s) p :: mid ++ [EvWait sid true]). split.
    { rewrite Htr2, Htr1. subst w0. simpl. by rewrite <- app_assoc. }
    eapply sb_healthy; eauto.
  - destruct Hres as [Htr2 Hst2]. rewrite bind_run, the_run.
    destruct (svc_of sid w2) as [s2|] eqn:Hs2.
    2:{ unfold state_of in Hst2. by rewrite Hs2 in Hst2. }
    intros [= <- <-].
    exists (EvSpawn sid (command s) p :: mid ++ [EvWait sid false]). split.
    { rewrite Htr2, Htr1. subst w0. simpl. by rewrite <- app_assoc. }
    by apply (sb_unhealthy sid w w2 s s2 p mid).
  - intros [= <- <-]. exists (EvSpawn sid (command s) p :: mid). split.
    { rewrite Hres, Htr1. subst w0. simpl. by rewrite <- app_assoc. }
    apply sb_cut; [done|exact Hpassed|right; by exists s, p, mid].
  - intros [= <- <-]. exists (EvSpawn sid (command s) p :: mid). split.
    { rewrite Hres, Htr1. subst w0. simpl. by rewrite <- app_assoc. }
    apply sb_cut; [done|exact Hpassed|right; by exists s, p, mid].
Qed.

(** *** Projections of the events of one iteration *)

Lemma polling_not_spawn sid mid u argv p :
  Forall (polling sid) mid -> EvSpawn u argv p ∉ mid.
Proof. intros H Hin. rewrite Forall_forall in H. by apply H in Hin. Qed.

Lemma polling_not_wait sid mid u b :
  Forall (polling sid) mid -> EvWait u b ∉ mid.
Proof. intros H Hin. rewrite Forall_forall in H. by apply H in Hin. Qed.

Lemma launched_block sid argv p mid tl :
  Forall (polling sid) mid -> launches tl = [] ->
  launches (EvSpawn sid argv p :: mid ++ tl) = [sid].
Proof.
  intros Hm Htl. unfold launches in *. cbn. rewrite omap_app, Htl.
  destruct (polling_silent _ _ Hm) as (H & _). unfold launches in H. by rewrite H.
Qed.

Lemma start_block_quiet sid w w' r evs :
  start_block sid w w' r evs -> signals evs = [] /\ stop_calls evs = [].
Proof.
  assert (Hmid : forall a p mid tl, Forall (polling sid) mid ->
            signals tl = [] -> stop_calls tl = [] ->
            signals (EvSpawn sid a p :: mid ++ tl) = [] /\
            stop_calls (EvSpawn sid a p :: mid ++ tl) = []).
  { intros a p mid tl Hm H1 H2. destruct (polling_silent _ _ Hm) as (_ & Hs & _ & _ & Hg).
    unfold signals, stop_calls in *. cbn. rewrite List.filter_app, omap_app.
    by rewrite H1, H2, Hs, Hg. }
  destruct 1 as [| | |r evs Hr Hp [->|(s & p & mid & Hs & -> & Hm)]]; auto.
  rewrite <- (app_nil_r mid). by apply Hmid.
Qed.

Lemma start_block_launches sid w w' r evs :
  start_block sid w w' r evs -> launches evs = [] \/ launches evs = [sid].
Proof.
  destruct 1 as [| | |r evs Hr Hp [->|(s & p & mid & Hs & -> & Hm)]];
    [by left|right; by apply launched_block..|by left|right].
  rewrite <- (app_nil_r mid). by apply launched_block.
Qed.

Lemma start_block_ret sid w w' evs :
  start_block sid w w' (Ret tt) evs ->
  passed evs = [sid] /\ visits evs = [sid] /\ state_of sid w' = Some running /\
  (exists s, svc_of sid w = Some s /\
     ((state_getter s).1 = running /\ launches evs = [] \/
      (state_getter s).1 <> running /\ launches evs = [sid])).
Proof.
  inversion 1 as [s Hs Hrun Hst|s p mid Hs Hrun Hm Hst| |]; subst.
  - repeat split; try done. exists s. split; [done|]. by left.
  - destruct (polling_silent _ _ Hm) as (_ & _ & Hp & Hv & _).
    split; [|split; [|split]].
    + unfold passed in *. cbn. by rewrite omap_app, Hp.
    + unfold visits in *. cbn. by rewrite omap_app, Hv.
    + done.
    + exists s. split; [done|]. right. split; [done|]. by apply launched_block.
  - done.
Qed.

Lemma start_block_fail sid w w' r evs :
  start_block sid w w' r evs -> r <> Ret tt -> passed evs = [].
Proof.
  destruct 1 as [| |s s' p mid Hs Hs' Hm|]; try done. intros _.
  destruct (polling_silent _ _ Hm) as (_ & _ & Hp & _).
  unfold passed in *. cbn. by rewrite omap_app, Hp.
Qed.

Lemma start_block_spawn sid w w' r evs t1 u argv p t2 :
  start_block sid w w' r evs -> evs = t1 ++ EvSpawn u argv p :: t2 ->
  t1 = [] /\ u = sid /\ exists s, svc_of sid w = Some s /\ argv = command s.
Proof.
  assert (Hcase : forall s p0 mid tl,
            svc_of sid w = Some s ->
            Forall (polling sid) mid -> EvSpawn u argv p ∉ tl ->
            EvSpawn sid (command s) p0 :: mid ++ tl = t1 ++ EvSpawn u argv p :: t2 ->
            t1 = [] /\ u = sid /\ exists s, svc_of sid w = Some s /\ argv = command s).
  { intros s p0 mid tl Hs Hm Htl Heq. destruct t1 as [|e t1]; simpl in Heq.
    - injection Heq as <- <- <- _. eauto.
    - injection Heq as _ Heq. exfalso.
      assert (Hin : EvSpawn u argv p ∈ mid ++ tl).
      { rewrite Heq. apply elem_of_app. right. apply list_elem_of_here. }
      apply elem_of_app in Hin as [Hin|Hin]; [|done].
      by apply (polling_not_spawn _ _ _ _ _ Hm) in Hin. }
  destruct 1 as [s Hs| s p0 mid Hs _ Hm| s s' p0 mid Hs _ Hm
                |r evs Hr Hp [->|(s & p0 & mid & Hs & -> & Hm)]]; intros Heq.
  - destruct t1 as [|e [|e' t1]]; discriminate.
  - eapply Hcase; eauto. by intros [Hx|Hx%elem_of_nil]%elem_of_cons.
  - eapply Hcase; eauto. by intros [Hx|Hx%elem_of_nil]%elem_of_cons.
  - by destruct t1.
  - rewrite <- (app_nil_r mid) in Heq. eapply Hcase; eauto. apply not_elem_of_nil.
Qed.

Lemma start_block_unhealthy sid w w' r evs u :
  start_block sid w w' r evs -> EvWait u false ∈ evs ->
  u = sid /\ exists evs0 s, evs = evs0 ++ [EvWait sid false] /\
    svc_of sid w' = Some s /\ r = Raise (health_failure s).
Proof.
  destruct 1 as [s Hs| s p0 mid Hs _ Hm| s s' p0 mid Hs Hs' Hm
                |r evs Hr Hp [->|(s & p0 & mid & Hs & -> & Hm)]]; intros Hin.
  - apply list_elem_of_singleton in Hin. discriminate.
  - apply elem_of_cons in Hin as [Hin|Hin]; [discriminate|].
    apply elem_of_app in Hin as [Hin|Hin].
    + by apply (polling_not_wait _ _ _ _ Hm) in Hin.
    + apply list_elem_of_singleton in Hin. discriminate.
  - apply elem_of_cons in Hin as [Hin|Hin]; [discriminate|].
    apply elem_of_app in Hin as [Hin|Hin].
    + by apply (polling_not_wait _ _ _ _ Hm) in Hin.
    + apply list_elem_of_singleton in Hin. injection Hin as ->.
      split; [done|]. exists (EvSpawn sid (command s) p0 :: mid), s'. done.
  - by apply elem_of_nil in Hin.
  - apply elem_of_cons in Hin as [Hin|Hin]; [discriminate|].
    by apply (polling_not_wait _ _ _ _ Hm) in Hin.
Qed.

Lemma start_step_run fuel sid w r w' :
  start_all_step env fuel sid w = (r, w') -> start_step sid w r w'.
Proof.
  intros H. split; [by eapply start_all_step_run|].
  by eapply (keeps_start_all_step (eq sid)).
Qed.

Lemma frame_svc_some P w w' v s :
  frame P w w' -> svc_of v w = Some s ->
  exists s', svc_of v w' = Some s' /\ static s' = static s.
Proof.
  intros [Hst _ _ _ _] Hs. pose proof (statics_get _ _ v Hst) as H.
  unfold svc_of in *. rewrite Hs in H.
  destruct (services_get v (services w')) as [s'|]; [|done].
  exists s'. split; [done|]. cbn in H. congruence.
Qed.

Lemma frame_svc_none P w w' v :
  frame P w w' -> svc_of v w = None -> svc_of v w' = None.
Proof.
  intros [Hst _ _ _ _] Hs. pose proof (statics_get _ _ v Hst) as H.
  unfold svc_of in *. rewrite Hs in H.
  by destruct (services_get v (services w')).
Qed.

(** *** The loop of [start_all] *)

Lemma start_loop_frame l w r w' :
  loop_run start_step l w r w' -> frame (fun u => u ∈ l) w w'.
Proof.
  induction 1 as [w|x xs w w1 r w' [_ Hf] _ IH|x xs w r w' _ [_ Hf]].
  - apply frame_refl.
  - eapply frame_trans.
    + eapply frame_weaken; [|exact Hf]. intros u <-. apply list_elem_of_here.
    + eapply frame_weaken; [|exact IH]. intros u Hu. by apply list_elem_of_further.
  - eapply frame_weaken; [|exact Hf]. intros u <-. apply list_elem_of_here.
Qed.

Lemma start_loop_events l w r w' :
  loop_run start_step l w r w' ->
  exists evs, trace w' = trace w ++ evs /\
    signals evs = [] /\ stop_calls evs = [] /\
    launches evs `sublist_of` l /\
    passed evs `prefix_of` l /\
    (r = Ret tt -> passed evs = l /\ visits evs = l) /\
    (forall t1 u argv p t2, evs = t1 ++ EvSpawn u argv p :: t2 ->
       exists l2, l = passed t1 ++ u :: l2) /\
    (forall u, EvWait u false ∈ evs ->
       exists evs0 s, evs = evs0 ++ [EvWait u false] /\
         svc_of u w' = Some s /\ r = Raise (health_failure s)).
Proof.
  induction 1 as [w|x xs w w1 r w' [(e1 & Ht1 & Hb) Hf] Hrest IH
                 |x xs w r w' Hr [(e1 & Ht1 & Hb) Hf]].
  - exists []. rewrite app_nil_r. repeat split; try done.
    + intros t1 u argv p t2 Heq. by destruct t1.
    + intros u Hu. by apply elem_of_nil in Hu.
  - destruct IH as (e2 & Ht2 & Hsig & Hstop & Hl & Hp & Hret & Hsp & Hun).
    destruct (start_block_quiet _ _ _ _ _ Hb) as [Hsig1 Hstop1].
    destruct (start_block_ret _ _ _ _ Hb) as (Hp1 & Hv1 & Hst1 & _).
    exists (e1 ++ e2). split; [by rewrite Ht2, Ht1, app_assoc|].
    unfold signals, stop_calls, launches, passed, visits in *.
    rewrite List.filter_app, !omap_app, Hsig, Hsig1, Hstop, Hstop1, Hp1, Hv1.
    split; [done|]. split; [done|]. split.
    { destruct (start_block_launches _ _ _ _ _ Hb) as [Hl1|Hl1];
        unfold launches in Hl1; rewrite Hl1; simpl.
      - by apply sublist_cons.
      - by apply sublist_skip. }
    split; [by apply prefix_cons|]. split.
    { intros Hr. destruct (Hret Hr) as [-> ->]. done. }
    split.
    + intros t1 u argv p t2 Heq.
      assert (Hnotin : EvSpawn u argv p ∈ e1 ++ e2)
        by (rewrite Heq; apply elem_of_app; right; apply list_elem_of_here).
      clear Hnotin. apply app_eq_app in Heq as [l [[-> Heq]|[-> Heq]]].
      * destruct l as [|e l]; simpl in Heq.
        -- subst e2. destruct (Hsp [] u argv p t2 eq_refl) as [l2 ->].
           exists l2. rewrite app_nil_r in Hp1. by rewrite Hp1.
        -- injection Heq as <- Heq.
           destruct (start_block_spawn _ _ _ _ _ _ _ _ _ _ Hb eq_refl) as (-> & -> & _).
           by exists xs.
      * destruct (Hsp _ _ _ _ _ Heq) as [l2 ->]. exists l2.
        by rewrite omap_app, Hp1.
    + intros u [Hu|Hu]%elem_of_app.
      * by destruct (start_block_unhealthy _ _ _ _ _ _ Hb Hu) as (_ & ? & ? & _ & _ & ?).
      * destruct (Hun u Hu) as (evs0 & s & -> & Hs & ->).
        exists (e1 ++ evs0), s. by rewrite app_assoc.
  - destruct (start_block_quiet _ _ _ _ _ Hb) as [Hsig1 Hstop1].
    pose proof (start_block_fail _ _ _ _ _ Hb Hr) as Hp1.
    exists e1. split; [done|]. split; [done|]. split; [done|]. split.
    { destruct (start_block_launches _ _ _ _ _ Hb) as [->| ->].
      - apply sublist_nil_l.
      - apply sublist_skip, sublist_nil_l. }
    rewrite Hp1. split; [apply prefix_nil|]. split; [done|]. split.
    + intros t1 u argv p t2 Heq.
      destruct (start_block_spawn _ _ _ _ _ _ _ _ _ _ Hb Heq) as (-> & -> & _).
      by exists xs.
    + intros u Hu.
      destruct (start_block_unhealthy _ _ _ _ _ _ Hb Hu) as (-> & evs0 & s & ? & ? & ?).
      by exists evs0, s.
Qed.

(** The units that passed stay [running] to the end of the loop. *)
Lemma start_loop_running l w r w' :
  NoDup l -> loop_run start_step l w r w' ->
  exists evs, trace w' = trace w ++ evs /\
    forall u, u ∈ passed evs -> state_of u w' = Some running.
Proof.
  intros Hnd Hrun. induction Hrun as [w|x xs w w1 r w' [(e1 & Ht1 & Hb) Hf] Hrest IH
                                     |x xs w r w' Hr [(e1 & Ht1 & Hb) Hf]].
  - exists []. rewrite app_nil_r. split; [done|]. intros u Hu. by apply elem_of_nil in Hu.
  - apply NoDup_cons in Hnd as [Hx Hnd].
    destruct (IH Hnd) as (e2 & Ht2 & Hst).
    destruct (start_block_ret _ _ _ _ Hb) as (Hp1 & _ & Hst1 & _).
    exists (e1 ++ e2). split; [by rewrite Ht2, Ht1, app_assoc|].
    intros u. unfold passed in *. rewrite omap_app, Hp1.
    intros [Hu|Hu]%elem_of_app; [|auto].
    apply list_elem_of_singleton in Hu as ->.
    destruct (start_loop_frame _ _ _ _ Hrest) as [_ Ho _ _ _].
    by rewrite Ho.
  - exists e1. split; [done|]. rewrite (start_block_fail _ _ _ _ _ Hb Hr).
    intros u Hu. by apply elem_of_nil in Hu.
Qed.

(** From a state in which no unit of the list is [running], a loop
    that completes launched every unit, in order. *)
Lemma start_loop_launches_all l w w' :
  NoDup l ->
  (forall u, u ∈ l -> state_of u w <> Some running) ->
  loop_run start_step l w (Ret tt) w' ->
  exists evs, trace w' = trace w ++ evs /\ launches evs = l.
Proof.
  intros Hnd Hidle Hrun. remember (Ret tt) as r eqn:Hr.
  induction Hrun as [w|x xs w w1 r w' [(e1 & Ht1 & Hb) Hf] Hrest IH
                    |x xs w r w' Hr' [(e1 & Ht1 & Hb) Hf]]; [| |done].
  - exists []. by rewrite app_nil_r.
  - apply NoDup_cons in Hnd as [Hx Hnd].
    destruct (start_block_ret _ _ _ _ Hb) as (_ & _ & _ & s & Hs & Hcase).
    destruct Hcase as [[Hrun _]|[_ Hl1]].
    { exfalso. apply (Hidle x); [apply list_elem_of_here|].
      apply state_getter_running in Hrun as [Hrun _].
      unfold state_of. by rewrite Hs, <- Hrun. }
    destruct IH as (e2 & Ht2 & Hl2); [done| |done|].
    { intros u Hu. destruct Hf as [_ Ho _ _ _]. rewrite Ho.
      - by apply Hidle, list_elem_of_further.
      - by intros ->. }
    exists (e1 ++ e2). split; [by rewrite Ht2, Ht1, app_assoc|].
    unfold launches in *. by rewrite omap_app, Hl1, Hl2.
Qed.

(** *** The loop of [stop_all] *)

Lemma keeps_stop_body (P : string -> Prop) sid :
  P sid -> keeps P (_ ← the sid; stop env sid).
Proof. intros HP. apply keeps_bind; [apply keeps_the|]. intros _. by apply keeps_stop. Qed.

Lemma stop_step_run sid w r w' :
  (_ ← the sid; stop env sid) w = (r, w') -> stop_step sid w r w'.
Proof.
  intros H. split; [|by eapply (keeps_stop_body (eq sid))].
  revert H. rewrite bind_run, the_run.
  destruct (svc_of sid w) as [s|] eqn:Hs; [|by intros [= <- <-]].
  intros H%stop_run. rewrite Hs in H.
  destruct H as (-> & sigs & Htr & Hsigs & Hst & _). split; [done|]. by exists sigs.
Qed.

Lemma signals_silent sigs :
  Forall (fun e => is_signal e = true /\ exists u, ev_unit e = Some u) sigs ->
  launches sigs = [] /\ stop_calls sigs = [] /\ passed sigs = [] /\ visits sigs = [].
Proof.
  intros H. repeat split; apply omap_silent;
    (eapply Forall_impl; [exact H|]); by intros [] [? ?].
Qed.

Lemma stop_loop_frame l w r w' :
  loop_run stop_step l w r w' -> frame (fun u => u ∈ l) w w'.
Proof.
  induction 1 as [w|x xs w w1 r w' [_ Hf] _ IH|x xs w r w' _ [_ Hf]].
  - apply frame_refl.
  - eapply frame_trans.
    + eapply frame_weaken; [|exact Hf]. intros u <-. apply list_elem_of_here.
    + eapply frame_weaken; [|exact IH]. intros u Hu. by apply list_elem_of_further.
  - eapply frame_weaken; [|exact Hf]. intros u <-. apply list_elem_of_here.
Qed.

Lemma stop_loop_events l w r w' :
  loop_run stop_step l w r w' ->
  exists evs, trace w' = trace w ++ evs /\
    launches evs = [] /\ passed evs = [] /\
    stop_calls evs `prefix_of` l /\
    (r = Ret tt -> stop_calls evs = l) /\
    ((forall u, u ∈ l -> is_Some (svc_of u w)) -> r = Ret tt) /\
    (NoDup l -> forall u, u ∈ stop_calls evs -> state_of u w' = Some stopped).
Proof.
  induction 1 as [w|x xs w w1 r w' [Hb Hf] Hrest IH|x xs w r w' Hr [Hb Hf]].
  - exists []. rewrite app_nil_r. repeat split; try done.
    intros _ u Hu. by apply elem_of_nil in Hu.
  - destruct IH as (e2 & Ht2 & Hl2 & Hp2 & Hpre & Hret & Hall & Hst).
    destruct (svc_of x w) as [s|] eqn:Hs; [|by destruct Hb].
    destruct Hb as (_ & sigs & Ht1 & Hsigs & Hst1).
    destruct (signals_silent sigs) as (Hl1 & Hc1 & Hp1 & _).
    { eapply Forall_impl; [exact Hsigs|]. intros e [? ?]. eauto. }
    exists ((EvStop x :: sigs) ++ e2). split; [by rewrite Ht2, Ht1, app_assoc|].
    unfold launches, passed, stop_calls in *. rewrite !omap_app. cbn.
    rewrite Hl1, Hl2, Hp1, Hp2, Hc1. simpl.
    split; [done|]. split; [done|]. split; [by apply prefix_cons|].
    split; [by intros ->%Hret|]. split.
    + intros Hk. apply Hall. intros u Hu.
      destruct (Hk u (list_elem_of_further _ _ _ Hu)) as [su Hsu].
      destruct (frame_svc_some _ _ _ _ _ Hf Hsu) as (s' & -> & _). eauto.
    + intros [Hx Hnd]%NoDup_cons u [->|Hu]%elem_of_cons; [|auto].
      destruct (stop_loop_frame _ _ _ _ Hrest) as [_ Ho _ _ _]. by rewrite Ho.
  - destruct (svc_of x w) as [s|] eqn:Hs.
    { by destruct Hb as [-> _]. }
    destruct Hb as [-> ->]. exists []. rewrite app_nil_r.
    repeat split; try done.
    + apply prefix_nil.
    + intros Hk. destruct (Hk x (list_elem_of_here _ _)) as [? Hsome]. congruence.
    + intros _ u Hu. by apply elem_of_nil in Hu.
Qed.

End Runs.


(** *** The order lists no unit twice and only known identifiers *)

Section StartOrderShape.

Variable svcs : Services.

Lemma extends_visited V O V' O' x : extends V O V' O' -> x ∈ V -> x ∈ V'.
Proof. intros (new & _ & Hv & _) Hx. apply Hv. by left. Qed.

Lemma for_each_dep_visit_shape fuel
    (IH : forall sid V O V' O', dfs_pre svcs V O -> known svcs sid ->
        visit fuel svcs sid (V, O) = Some (V', O') ->
        dfs_pre svcs V' O' /\ extends V O V' O' /\ sid ∈ V') :
  forall deps V O V' O',
    dfs_pre svcs V O -> (forall d, d ∈ deps -> known svcs d) ->
    for_each_dep (visit fuel svcs) deps (V, O) = Some (V', O') ->
    dfs_pre svcs V' O' /\ extends V O V' O' /\ (forall d, d ∈ deps -> d ∈ V').
Proof.
  induction deps as [|d ds IHds]; intros V O V' O' Hpre Hdeps Hrun; simpl in Hrun.
  - injection Hrun as <- <-. split; [done|]. split; [apply extends_refl|].
    intros d Hd. by apply elem_of_nil in Hd.
  - destruct (visit fuel svcs d (V, O)) as [[V1 O1]|] eqn:Hv; [|discriminate].
    apply IH in Hv as (Hpre1 & Hext1 & Hd1); [|done|apply Hdeps, list_elem_of_here].
    apply IHds in Hrun as (Hpre2 & Hext2 & Hin2); [|done|].
    2:{ intros d' Hd'. by apply Hdeps, list_elem_of_further. }
    split; [done|]. split; [eapply extends_trans; eauto|].
    intros d' [->|Hd']%elem_of_cons; [|auto].
    eapply extends_visited; eauto.
Qed.

Lemma visit_shape fuel : forall sid V O V' O',
  dfs_pre svcs V O -> known svcs sid ->
  visit fuel svcs sid (V, O) = Some (V', O') ->
  dfs_pre svcs V' O' /\ extends V O V' O' /\ sid ∈ V'.
Proof.
  induction fuel as [|fuel IH]; intros sid V O V' O' Hpre Hsid Hrun;
    simpl in Hrun; [discriminate|].
  destruct (decide (sid ∈ V)) as [HV|HV].
  { injection Hrun as <- <-. split; [done|]. split; [apply extends_refl|done]. }
  destruct Hpre as (Hsub & Hnd & Huni).
  assert (Hpre1 : dfs_pre svcs ({[sid]} ∪ V) O).
  { split; [|done]. intros x Hx. apply elem_of_union. right. auto. }
  assert (Hfin : forall V2 O2, dfs_pre svcs V2 O2 -> extends ({[sid]} ∪ V) O V2 O2 ->
            dfs_pre svcs V2 (O2 ++ [sid]) /\ extends V O V2 (O2 ++ [sid]) /\ sid ∈ V2).
  { intros V2 O2 (Hs2 & Hn2 & Hu2) (new & -> & Hv & Hd).
    assert (HsV2 : sid ∈ V2).
    { apply Hv. left. apply elem_of_union. left. by apply elem_of_singleton. }
    assert (HsO2 : sid ∉ O ++ new).
    { intros [H|H]%elem_of_app; [by apply HV, Hsub|].
      apply (Hd _ H). apply elem_of_union. left. by apply elem_of_singleton. }
    split; [|split; [|done]].
    - split; [|split].
      + intros x [Hx| ->]%elem_of_snoc; auto.
      + apply NoDup_app. split; [done|]. split; [|apply NoDup_singleton].
        intros x Hx Hx'%list_elem_of_singleton. by subst x.
      + intros x [Hx| ->]%elem_of_snoc; auto.
    - exists (new ++ [sid]). rewrite app_assoc. split; [done|]. split.
      + intros x. rewrite Hv, elem_of_snoc, elem_of_union, elem_of_singleton. tauto.
      + intros x [Hx| ->]%elem_of_snoc; [|done].
        intros HxV. apply (Hd _ Hx). apply elem_of_union. by right. }
  destruct (services_get sid svcs) as [svc|] eqn:Hget.
  - destruct (for_each_dep (visit fuel svcs) (depends_on svc) ({[sid]} ∪ V, O))
      as [[V2 O2]|] eqn:Hloop; [|discriminate].
    simpl in Hrun. injection Hrun as <- <-.
    apply (for_each_dep_visit_shape fuel IH) in Hloop as (Hpre2 & Hext2 & _); [|done|].
    + by apply Hfin.
    + intros d Hd. right. exists sid, svc. done.
  - simpl in Hrun. injection Hrun as <- <-. apply Hfin; [done|apply extends_refl].
Qed.

Lemma _start_order_shape order :
  _start_order svcs = Some order ->
  NoDup order /\
  (forall x, x ∈ order -> known svcs x) /\
  (forall k, k ∈ map fst svcs -> k ∈ order).
Proof.
  unfold _start_order, _start_order_fuel.
  destruct (for_each_dep _ _ _) as [[V O]|] eqn:Hrun; [|discriminate].
  intros [= <-]. simpl.
  apply (for_each_dep_visit_shape _ (visit_shape _)) in Hrun
    as ((_ & Hnd & Huni) & (new & -> & Hv & _) & Hin).
  - split; [done|]. split; [done|]. intros k Hk.
    apply Hin, Hv in Hk as [Hk|Hk]; [by apply elem_of_empty in Hk|done].
  - split; [|split]; [|apply NoDup_nil_2|]; intros x Hx; by apply elem_of_nil in Hx.
  - intros d Hd. by left.
Qed.

Lemma _start_order_declared order :
  deps_declared svcs -> _start_order svcs = Some order ->
  forall x, x ∈ order -> is_Some (services_get x svcs).
Proof.
  intros Hdecl Horder x Hx.
  destruct (_start_order_shape order Horder) as (_ & Hknown & _).
  apply services_get_key_Some.
  destruct (Hknown x Hx) as [Hkey|[u Hu]]; [done|]. eapply Hdecl, Hu.
Qed.

End StartOrderShape.

(** *** The number of polls *)

Lemma max_polls_covers s :
  (0 < startup_poll_interval s)%Z ->
  (startup_timeout s <= startup_poll_interval s * Z.of_nat (max_polls s))%Z.
Proof.
  unfold max_polls. generalize (startup_timeout s) (startup_poll_interval s).
  intros T p Hp. destruct (Z.le_gt_cases T 0) as [HT|HT]; [nia|].
  assert (0 <= (T + p - 1) / p)%Z by (apply Z.div_pos; lia).
  rewrite Z2Nat.id by done.
  pose proof (Z.mod_pos_bound (T + p - 1) p Hp).
  pose proof (Z.div_mod (T + p - 1) p). lia.
Qed.

Lemma max_polls_bound s (n : nat) :
  (0 < startup_poll_interval s)%Z ->
  (0 < n -> (startup_poll_interval s * (Z.of_nat n - 1) < startup_timeout s)%Z) ->
  n <= max_polls s.
Proof.
  unfold max_polls. generalize (startup_timeout s) (startup_poll_interval s).
  intros T p Hp Hn. destruct n as [|n]; [lia|].
  specialize (Hn ltac:(lia)).
  assert (Z.of_nat (S n) <= (T + p - 1) / p)%Z; [|lia].
  apply Z.div_le_lower_bound; lia.
Qed.

Lemma max_polls_pos s :
  (0 < startup_poll_interval s)%Z -> (0 < startup_timeout s)%Z -> 0 < max_polls s.
Proof.
  unfold max_polls. generalize (startup_timeout s) (startup_poll_interval s).
  intros T p Hp HT.
  assert (1 <= (T + p - 1) / p)%Z by (apply Z.div_le_lower_bound; lia). lia.
Qed.

(** ** The outcomes of a start *)

Lemma static_fields s s' :
  static s' = static s ->
  name s' = name s /\ command s' = command s /\ health_url s' = health_url s /\
  depends_on s' = depends_on s /\ startup_timeout s' = startup_timeout s /\
  startup_poll_interval s' = startup_poll_interval s.
Proof. unfold static. intros H. repeat split; congruence. Qed.

Lemma health_failure_static s s' :
  static s' = static s -> health_failure s' = health_failure s.
Proof.
  intros H. destruct (static_fields _ _ H) as (Hn & _ & _ & _ & HT & _).
  unfold health_failure. by rewrite Hn, HT.
Qed.

Lemma fuelled_statics fuel l l' :
  statics l' = statics l -> fuelled fuel l -> fuelled fuel l'.
Proof.
  intros Hst Hf u s' Hs' Hurl. pose proof (statics_get _ _ u Hst) as H.
  rewrite Hs' in H. destruct (services_get u l) as [s|] eqn:Hs; [|done].
  cbn in H. assert (Hstat : static s' = static s) by congruence.
  destruct (static_fields _ _ Hstat) as (_ & _ & Hu & _ & HT & Hp).
  destruct (Hf u s Hs) as [H1 H2].
  { unfold no_health_url in *. by rewrite <- Hu. }
  unfold max_polls in *. rewrite Hp, HT. done.
Qed.

Section StartOutcomes.

Variable env : Env.

Lemma state_getter_static s : static (state_getter s).2 = static s.
Proof.
  unfold state_getter. destruct (decide _); [done|]. by destruct (not_alive s).
Qed.

Lemma not_alive_state_getter s : not_alive (state_getter s).2 = not_alive s.
Proof. unfold not_alive. by rewrite state_getter_process. Qed.

(** [wait_healthy] runs out of fuel only in the polling loop of a unit
    with a health URL, after [fuel] probes that did not use up the
    timeout. *)
Lemma wait_healthy_out_of_fuel fuel sid w w' s :
  svc_of sid w = Some s ->
  wait_healthy env fuel sid w = (OutOfFuel, w') ->
  no_health_url s = false /\
  exists mid, trace w' = trace w ++ mid /\ Forall (polling sid) mid /\
    probes mid = fuel /\
    (startup_poll_interval s * Z.of_nat fuel < startup_timeout s)%Z.
Proof.
  intros Hs. unfold wait_healthy. rewrite bind_run, the_run, Hs, bind_run.
  destruct (no_health_url s) eqn:Hurl.
  { run_simpl. done. }
  destruct (wait_healthy_loop _ _ _ _ _ _) as [r1 w1] eqn:Hloop.
  eapply (wait_healthy_loop_run env sid _ (startup_timeout s) (startup_poll_interval s))
    in Hloop as (evs & Htr & Hpoll & _ & Hres); [|by rewrite Hs..].
  destruct r1 as [b|e|]; [by rewrite bind_run, emit_run|done|].
  intros [= <-]. split; [done|]. destruct Hres as (Hn & _ & Hlt).
  exists evs. split; [done|]. split; [done|]. split; [done|]. lia.
Qed.

(** [start]: which of its three ways a call took. *)
Lemma start_cases sid w s r w' :
  svc_of sid w = Some s -> start env sid w = (r, w') ->
  (not_alive s = false /\ w' = w /\
   r = Raise (RuntimeError (name s +:+ " is already running"))) \/
  (not_alive s = true /\ spawn env (S (clock w)) (command s) = None /\
   r = Raise OSError /\ trace w' = trace w) \/
  (not_alive s = true /\ r = Ret tt /\
   exists p, spawn env (S (clock w)) (command s) = Some p /\
     trace w' = trace w ++ [EvSpawn sid (command s) p]).
Proof.
  unfold start, svc_of. intros Hs. run_simpl. rewrite Hs.
  destruct (not_alive s) eqn:Hal; simpl.
  2:{ intros [= <- <-]. by left. }
  destruct (spawn env _ _) as [p|] eqn:Hsp; simpl.
  2:{ intros [= <- <-]. right. left. done. }
  intros [= <- <-]. right. right. split; [done|]. split; [done|]. by exists p.
Qed.

(** One iteration of [start_all] that does not return. *)
Lemma start_all_step_cut fuel sid w r w' :
  start_all_step env fuel sid w = (r, w') -> r <> Ret tt ->
  exists evs, trace w' = trace w ++ evs /\ start_cut env fuel sid w r evs.
Proof.
  unfold start_all_step. rewrite bind_run, the_run.
  destruct (svc_of sid w) as [s|] eqn:Hs.
  2:{ intros [= <- <-] _. exists []. rewrite app_nil_r. split; [done|].
      by apply cut_unknown. }
  rewrite bind_run, state_shape, Hs.
  set (w0 := with_services _ w).
  assert (Hs0 : svc_of sid w0 = Some (state_getter s).2).
  { subst w0. get_simpl. unfold svc_of in Hs. by rewrite Hs. }
  destruct (static_fields _ _ (state_getter_static s)) as (Hname & Hcmd & _).
  destruct (decide ((state_getter s).1 = running)) as [Hrun|Hrun].
  { rewrite emit_run. by intros [= <- <-] []. }
  rewrite bind_run. destruct (start env sid w0) as [r1 w1] eqn:Hstart.
  pose proof (keeps_start env (eq sid) sid eq_refl _ _ _ Hstart) as Hf1.
  destruct (start_cases _ _ _ _ _ Hs0 Hstart)
    as [(Hal & -> & ->)|[(Hal & Hsp & -> & Htr1)|(Hal & -> & p & Hsp & Htr1)]];
    rewrite not_alive_state_getter in Hal; rewrite ?Hname, ?Hcmd in *;
    change (clock w0) with (clock w) in *; change (trace w0) with (trace w) in *.
  { intros [= <- <-] _. exists []. rewrite app_nil_r.
    split; [done|]. by apply (cut_live env fuel sid w s). }
  { intros [= <- <-] _. exists []. rewrite app_nil_r.
    split; [done|]. by apply (cut_spawn env fuel sid w s). }
  destruct (frame_svc_some _ _ _ _ _ Hf1 Hs0) as (s1 & Hs1 & Hstat1).
  rewrite state_getter_static in Hstat1.
  rewrite bind_run.
  destruct (wait_healthy env fuel sid w1) as [r2 w2] eqn:Hwait.
  pose proof (keeps_wait_healthy env (eq sid) fuel sid eq_refl _ _ _ Hwait) as Hf2.
  pose proof (wait_healthy_run env _ _ _ _ _ Hwait) as (mid & Hpoll & Hres).
  destruct r2 as [[|]|e|].
  - by intros [= <- <-] [].
  - destruct Hres as [Htr2 Hst2].
    destruct (frame_svc_some _ _ _ _ _ Hf2 Hs1) as (s2 & Hs2 & Hstat2).
    rewrite bind_run, the_run, Hs2. intros [= <- <-] _.
    exists (EvSpawn sid (command s) p :: mid ++ [EvWait sid false]). split.
    { rewrite Htr2, Htr1. by rewrite <- app_assoc. }
    replace (RuntimeError _) with (health_failure s).
    { by apply (cut_unhealthy env fuel sid w s). }
    rewrite <- (health_failure_static s s2) by congruence. done.
  - exfalso. pose proof (keeps_the (eq sid) sid) as _.
    revert Hwait. unfold wait_healthy. rewrite bind_run, the_run, Hs1, bind_run.
    destruct (no_health_url s1); [by run_simpl|].
    destruct (wait_healthy_loop _ _ _ _ _ _) as [r3 w3] eqn:Hloop.
    eapply (wait_healthy_loop_run env sid _ (startup_timeout s1)
              (startup_poll_interval s1)) in Hloop as (evs & _ & _ & _ & Hr3);
      [|by rewrite Hs1..].
    destruct r3 as [b|e'|]; [by rewrite bind_run, emit_run|done|done].
  - intros [= <- <-] _.
    destruct (wait_healthy_out_of_fuel _ _ _ _ _ Hs1 Hwait)
      as (Hurl & mid' & Htr2 & Hpoll' & Hn & Hlt).
    destruct (static_fields _ _ Hstat1) as (_ & _ & Hu & _ & HT & Hp).
    exists (EvSpawn sid (command s) p :: mid'). split.
    { rewrite Htr2, Htr1. by rewrite <- app_assoc. }
    apply (cut_fuel env fuel sid w s); try done.
    + unfold no_health_url in *. by rewrite <- Hu.
    + by rewrite <- Hp, <- HT.
Qed.

(** The loop of [start_all] when it does not return: where it was cut. *)
Lemma start_loop_cut fuel l : forall w r w',
  for_each l (start_all_step env fuel) w = (r, w') -> r <> Ret tt ->
  exists evs, trace w' = trace w ++ evs /\ start_all_cut env fuel l w r evs.
Proof.
  induction l as [|x l IH]; intros w r w'; simpl.
  { by intros [= <- <-] []. }
  rewrite bind_run. destruct (start_all_step env fuel x w) as [r1 w1] eqn:Hx.
  destruct (start_all_step_run env _ _ _ _ _ Hx) as (e1 & Ht1 & Hb).
  destruct r1 as [[]|e|].
  - intros Hrest Hr.
    destruct (IH _ _ _ Hrest Hr)
      as (e2 & Ht2 & done & u & rest & wu & ed & eu & -> & Hdone & Htu & -> & Hp & Hcut).
    destruct (start_block_ret _ _ _ _ Hb) as (Hp1 & _).
    exists (e1 ++ ed ++ eu). split; [by rewrite Ht2, Ht1, <- app_assoc|].
    exists (x :: done), u, rest, wu, (e1 ++ ed), eu.
    split; [done|]. split; [simpl; by rewrite bind_run, Hx|].
    split; [by rewrite Htu, Ht1, <- app_assoc|]. split; [by rewrite <- app_assoc|].
    split; [|done]. unfold passed in *. by rewrite omap_app, Hp1, Hp.
  - intros [= <- <-] Hr.
    destruct (start_all_step_cut _ _ _ _ _ Hx Hr) as (eu & Htu & Hcut).
    assert (eu = e1) as -> by (rewrite Ht1 in Htu; by apply app_inv_head in Htu).
    exists e1. split; [done|]. exists [], x, l, w, [], e1.
    split; [done|]. split; [done|]. split; [by rewrite app_nil_r|].
    split; [done|]. split; [by apply (start_block_fail _ _ _ _ _ Hb)|done].
  - intros [= <- <-] Hr.
    destruct (start_all_step_cut _ _ _ _ _ Hx Hr) as (eu & Htu & Hcut).
    assert (eu = e1) as -> by (rewrite Ht1 in Htu; by apply app_inv_head in Htu).
    exists e1. split; [done|]. exists [], x, l, w, [], e1.
    split; [done|]. split; [done|]. split; [by rewrite app_nil_r|].
    split; [done|]. split; [by apply (start_block_fail _ _ _ _ _ Hb)|done].
Qed.

(** The flag is not touched by the iterations. *)
Lemma start_loop_flag fuel l w r w' :
  for_each l (start_all_step env fuel) w = (r, w') -> _starting w' = _starting w.
Proof.
  intros H. eapply (keeps_for_each (fun _ => True)) in H; [by destruct H|].
  intros x _. by apply keeps_start_all_step.
Qed.

Lemma start_loop_statics fuel l w r w' :
  for_each l (start_all_step env fuel) w = (r, w') ->
  statics (services w') = statics (services w).
Proof.
  intros H. eapply (keeps_for_each (fun _ => True)) in H; [by destruct H|].
  intros x _. by apply keeps_start_all_step.
Qed.

(** With fuel for every polling loop, an iteration is never cut for
    want of fuel. *)
Lemma start_cut_fuelled fuel sid w evs :
  fuelled fuel (services w) -> ~ start_cut env fuel sid w OutOfFuel evs.
Proof.
  intros Hf Hcut. inversion Hcut as [| | | |s p mid Hs _ _ _ _ Hurl Hlt]; subst.
  destruct (Hf sid s Hs Hurl) as [Hp Hn].
  pose proof (max_polls_covers s Hp). nia.
Qed.

Lemma start_all_cut_fuelled fuel order w evs :
  fuelled fuel (services w) -> ~ start_all_cut env fuel order w OutOfFuel evs.
Proof.
  intros Hf (done & u & rest & wu & ed & eu & _ & Hdone & _ & _ & _ & Hcut).
  eapply start_cut_fuelled; [|exact Hcut].
  eapply fuelled_statics; [|exact Hf]. by eapply start_loop_statics.
Qed.

(** A unit that was waited for was launched. *)
Lemma start_block_waited sid w w' r evs u b :
  start_block sid w w' r evs -> EvWait u b ∈ evs -> u ∈ launches evs.
Proof.
  assert (Hsp : forall a p tl, sid ∈ launches (EvSpawn sid a p :: tl)).
  { intros. unfold launches. cbn. apply list_elem_of_here. }
  assert (Hw : forall a p mid c, Forall (polling sid) mid ->
            EvWait u b ∈ EvSpawn sid a p :: mid ++ [EvWait sid c] -> u = sid).
  { intros a p mid c Hm [Hu|Hu]%elem_of_cons; [discriminate|].
    apply elem_of_app in Hu as [Hu|Hu].
    - by apply (polling_not_wait _ _ _ _ Hm) in Hu.
    - apply list_elem_of_singleton in Hu. by injection Hu. }
  destruct 1 as [s Hs| s p0 mid Hs _ Hm| s s' p0 mid Hs Hs' Hm
                |r evs Hr Hp [->|(s & p0 & mid & Hs & -> & Hm)]]; intros Hin.
  - apply list_elem_of_singleton in Hin. discriminate.
  - rewrite (Hw _ _ _ _ Hm Hin). apply Hsp.
  - rewrite (Hw _ _ _ _ Hm Hin). apply Hsp.
  - by apply elem_of_nil in Hin.
  - apply elem_of_cons in Hin as [Hin|Hin]; [discriminate|].
    by apply (polling_not_wait _ _ _ _ Hm) in Hin.
Qed.

Lemma start_loop_waited l w r w' :
  loop_run start_step l w r w' ->
  exists evs, trace w' = trace w ++ evs /\
    forall u b, EvWait u b ∈ evs -> u ∈ launches evs.
Proof.
  induction 1 as [w|x xs w w1 r w' [(e1 & Ht1 & Hb) Hf] Hrest IH
                 |x xs w r w' Hr [(e1 & Ht1 & Hb) Hf]].
  - exists []. rewrite app_nil_r. split; [done|]. intros u b Hu. by apply elem_of_nil in Hu.
  - destruct IH as (e2 & Ht2 & Hw).
    exists (e1 ++ e2). split; [by rewrite Ht2, Ht1, app_assoc|].
    intros u b. unfold launches in *. rewrite omap_app, !elem_of_app.
    intros [Hu|Hu]; [left; by eapply start_block_waited|right; eauto].
  - exists e1. split; [done|]. intros u b Hu. by eapply start_block_waited.
Qed.

End StartOutcomes.

Section Orchestrator.

Variable env : Env.

(** *** [start_all] and [stop_all] as loops *)

Lemma start_all_busy fuel w :
  _starting w = true ->
  start_all env fuel w = (Raise (RuntimeError "Already starting"), w).
Proof. intros H. unfold start_all. rewrite bind_run. simpl. by rewrite H. Qed.

Lemma start_all_run fuel w order r w' :
  _starting w = false -> _start_order (services w) = Some order ->
  start_all env fuel w = (r, w') ->
  exists w1, loop_run start_step order (with_starting true w) r w1 /\
             w' = with_starting false w1.
Proof.
  intros Hflag Horder. unfold start_all. rewrite bind_run. simpl. rewrite Hflag.
  rewrite bind_run. simpl. unfold try_finally. rewrite bind_run. simpl.
  rewrite Horder.
  destruct (for_each order (start_all_step env fuel) (with_starting true w))
    as [r1 w1] eqn:Hloop.
  intros [= <- <-]. exists w1. split; [|done].
  eapply for_each_loop_run; [|exact Hloop]. intros. by eapply start_step_run.
Qed.

Lemma stop_all_run w order r w' :
  _start_order (services w) = Some order ->
  stop_all env w = (r, w') -> loop_run stop_step (rev order) w r w'.
Proof.
  intros Horder. unfold stop_all. rewrite bind_run. simpl. rewrite Horder.
  intros Hloop. eapply for_each_loop_run; [|exact Hloop].
  intros x w0 r0 w0' H. apply stop_step_run with (env := env). exact H.
Qed.

Lemma start_block_skipped sid w w' r evs u :
  start_block sid w w' r evs -> EvSkip u ∈ evs ->
  u = sid /\ exists s, svc_of sid w = Some s /\ (state_getter s).1 = running.
Proof.
  assert (Hmid : forall a p mid tl, Forall (polling sid) mid ->
            EvSkip u ∉ tl -> EvSkip u ∉ EvSpawn sid a p :: mid ++ tl).
  { intros a p mid tl Hm Htl [Hu|Hu]%elem_of_cons; [discriminate|].
    apply elem_of_app in Hu as [Hu|Hu]; [|done].
    rewrite Forall_forall in Hm. by apply Hm in Hu. }
  assert (Hwait : forall b, EvSkip u ∉ [EvWait sid b]).
  { intros b Hu%list_elem_of_singleton. discriminate. }
  destruct 1 as [s Hs Hrun Hst|s p mid Hs Hrun Hm Hst|s s' p mid Hs Hs' Hm
                |r evs Hr Hp [->|(s & p & mid & Hs & -> & Hm)]]; intros Hu.
  - apply list_elem_of_singleton in Hu. injection Hu as ->. eauto.
  - by apply Hmid in Hu.
  - by apply Hmid in Hu.
  - by apply elem_of_nil in Hu.
  - rewrite <- (app_nil_r mid) in Hu. apply Hmid in Hu; [done|done|apply not_elem_of_nil].
Qed.

(** A unit the loop skipped was [running] before the loop. *)
Lemma start_loop_skips l w r w' :
  NoDup l -> loop_run start_step l w r w' ->
  exists evs, trace w' = trace w ++ evs /\
    forall u, EvSkip u ∈ evs -> state_of u w = Some running.
Proof.
  intros Hnd Hrun.
  induction Hrun as [w|x xs w w1 r w' [(e1 & Ht1 & Hb) Hf] Hrest IH
                    |x xs w r w' Hr [(e1 & Ht1 & Hb) Hf]].
  - exists []. rewrite app_nil_r. split; [done|]. intros u Hu. by apply elem_of_nil in Hu.
  - apply NoDup_cons in Hnd as [Hx Hnd]. destruct (IH Hnd) as (e2 & Ht2 & Hsk).
    exists (e1 ++ e2). split; [by rewrite Ht2, Ht1, app_assoc|].
    intros u [Hu|Hu]%elem_of_app.
    + destruct (start_block_skipped _ _ _ _ _ _ Hb Hu) as (-> & s & Hs & Hrun).
      apply state_getter_running in Hrun as [Hrun _].
      unfold state_of. by rewrite Hs, <- Hrun.
    + pose proof (Hsk u Hu) as Hst. destruct Hf as [_ Ho _ _ _].
      rewrite <- Ho; [done|]. intros ->.
      destruct (start_loop_events _ _ _ _ Hrest) as (e2' & Ht2' & _ & _ & _ & Hpre & _).
      assert (e2' = e2) as -> by (rewrite Ht2 in Ht2'; by apply app_inv_head in Ht2').
      assert (Hin : u ∈ passed e2).
      { unfold passed. apply list_elem_of_omap. by exists (EvSkip u). }
      destruct Hpre as [k ->]. apply Hx, elem_of_app. by left.
  - exists e1. split; [done|]. intros u Hu.
    destruct (start_block_skipped _ _ _ _ _ _ Hb Hu) as (-> & s & Hs & Hrun).
    apply state_getter_running in Hrun as [Hrun _].
    unfold state_of. by rewrite Hs, <- Hrun.
Qed.

(** *** Starting after the dependencies *)

Lemma elem_of_passed d evs :
  d ∈ passed evs <-> EvSkip d ∈ evs \/ EvWait d true ∈ evs.
Proof.
  unfold passed. rewrite list_elem_of_omap. split.
  - intros ([] & He & Hp); simpl in Hp; try discriminate.
    + destruct healthy; [|discriminate]. injection Hp as ->. by right.
    + injection Hp as ->. by left.
  - intros [H|H]; eexists; (split; [exact H|done]).
Qed.

Lemma NoDup_split_unique {A : Type} (x : A) l1 l2 l1' l2' :
  NoDup (l1 ++ x :: l2) -> l1 ++ x :: l2 = l1' ++ x :: l2' -> l1 = l1'.
Proof.
  revert l1'. induction l1 as [|a l1 IH]; intros [|a' l1'] Hnd Heq; simpl in *.
  - done.
  - injection Heq as <- Heq. apply NoDup_cons in Hnd as [Hx _].
    exfalso. apply Hx. rewrite Heq. set_solver.
  - injection Heq as -> Heq. apply NoDup_cons in Hnd as [Hx _].
    exfalso. apply Hx. set_solver.
  - injection Heq as <- Heq. apply NoDup_cons in Hnd as [_ Hnd].
    f_equal. eauto.
Qed.

Lemma start_all_after_dependencies fuel w r w' t1 u argv p t2 d :
  acyclic (services w) ->
  start_all env fuel w = (r, w') ->
  trace w' = trace w ++ t1 ++ EvSpawn u argv p :: t2 ->
  declares (services w) u d ->
  d ∈ passed t1.
Proof.
  intros Hac Hrun Htr Hdecl.
  destruct (_starting w) eqn:Hflag.
  { rewrite start_all_busy in Hrun by done. injection Hrun as _ <-.
    rewrite <- (app_nil_r (trace w)) in Htr at 1. apply app_inv_head in Htr.
    by destruct t1. }
  destruct (_start_order_total (services w)) as [order Horder].
  destruct (start_all_run _ _ _ _ _ Hflag Horder Hrun) as (w1 & Hloop & ->).
  destruct (start_loop_events _ _ _ _ Hloop) as (evs & Htr1 & _ & _ & _ & _ & _ & Hsp & _).
  simpl in Htr, Htr1. rewrite Htr1 in Htr. apply app_inv_head in Htr.
  destruct (Hsp _ _ _ _ _ Htr) as [l2 Hl2].
  destruct (_start_order_inv _ _ Hac Horder) as (Hnd & _ & Hbefore).
  destruct (Hbefore u d Hdecl) as (a & b & c & Habc).
  assert (Heq : passed t1 = a ++ d :: b).
  { apply (NoDup_split_unique u _ l2 _ c).
    - by rewrite <- Hl2.
    - rewrite <- Hl2, Habc. by rewrite <- app_assoc. }
  rewrite Heq. set_solver.
Qed.

Lemma keeps_start_dependency (P : string -> Prop) fuel d :
  P d -> keeps P (start_dependency env fuel d).
Proof.
  intros HP. unfold start_dependency.
  apply keeps_bind; [apply keeps_get_world|]. intros w.
  destruct (services_get d (services w)); [|apply keeps_ret].
  apply keeps_bind; [by apply keeps_state|]. intros st.
  destruct (decide (st = running)).
  { eapply keeps_emit; [reflexivity|done]. }
  apply keeps_bind; [by apply keeps_start|]. intros _.
  apply keeps_bind; [by apply keeps_wait_healthy|]. intros b. apply keeps_ret.
Qed.

Lemma start_dependency_run fuel d w r w' :
  start_dependency env fuel d w = (r, w') -> dep_step d w r w'.
Proof.
  intros Hrun. split; [|by eapply (keeps_start_dependency (eq d))].
  revert Hrun. unfold start_dependency. rewrite bind_run. simpl.
  destruct (services_get d (services w)) as [s|] eqn:Hs.
  2:{ intros [= <- <-]. exists []. rewrite app_nil_r. split; [done|]. by apply db_absent. }
  rewrite bind_run, state_shape. unfold svc_of at 1. rewrite Hs.
  set (w0 := with_services _ w).
  destruct (decide ((state_getter s).1 = running)) as [Hrun|Hrun].
  { rewrite emit_run. intros [= <- <-]. exists [EvSkip d]. split; [done|].
    by eapply db_skip. }
  rewrite bind_run. destruct (start env d w0) as [r1 w1] eqn:Hstart.
  apply start_run in Hstart. destruct r1 as [[]|e|]; [|
    intros [= <- <-]; destruct Hstart as [Htr _]; exists [];
    rewrite app_nil_r; split; [done|]; apply db_cut; auto | done].
  destruct Hstart as (s0 & p & s1 & Hs0 & Hal & Htr1 & Hs1 & Hst1 & Hal1).
  assert (Hcmd : command s0 = command s).
  { assert (s0 = (state_getter s).2) as ->.
    { subst w0. revert Hs0. get_simpl. rewrite Hs. simpl. congruence. }
    unfold state_getter. destruct (decide _); [done|]. by destruct (not_alive s). }
  rewrite Hcmd in Htr1.
  rewrite bind_run. destruct (wait_healthy env fuel d w1) as [r2 w2] eqn:Hwait.
  apply wait_healthy_run in Hwait as (mid & Hpoll & Hres).
  destruct r2 as [b|e|]; intros [= <- <-].
  - destruct Hres as [Htr2 _].
    exists (EvSpawn d (command s) p :: mid ++ [EvWait d b]). split.
    { rewrite Htr2, Htr1. subst w0. simpl. by rewrite <- app_assoc. }
    by eapply db_started.
  - exists (EvSpawn d (command s) p :: mid). split.
    { rewrite Hres, Htr1. subst w0. simpl. by rewrite <- app_assoc. }
    apply db_cut; [done|right; by exists s, p, mid].
  - exists (EvSpawn d (command s) p :: mid). split.
    { rewrite Hres, Htr1. subst w0. simpl. by rewrite <- app_assoc. }
    apply db_cut; [done|right; by exists s, p, mid].
Qed.

Lemma polling_about sid mid :
  Forall (polling sid) mid -> Forall (fun e => ev_unit e = Some sid) mid.
Proof.
  intros H. eapply Forall_impl; [exact H|]. intros [] He; simpl in *; by subst.
Qed.

Lemma dep_block_about d w w' r evs :
  dep_block d w w' r evs -> Forall (fun e => ev_unit e = Some d) evs.
Proof.
  destruct 1 as [|s Hs Hr|s p mid b Hs Hm|r evs Hr [->|(s & p & mid & Hs & -> & Hm)]].
  - constructor.
  - by repeat constructor.
  - constructor; [done|]. apply Forall_app. split; [by apply polling_about|].
    by repeat constructor.
  - constructor.
  - constructor; [done|]. by apply polling_about.
Qed.

Lemma dep_loop_frame l w r w' :
  loop_run dep_step l w r w' -> frame (fun u => u ∈ l) w w'.
Proof.
  induction 1 as [w|x xs w w1 r w' [_ Hf] _ IH|x xs w r w' _ [_ Hf]].
  - apply frame_refl.
  - eapply frame_trans.
    + eapply frame_weaken; [|exact Hf]. intros u <-. apply list_elem_of_here.
    + eapply frame_weaken; [|exact IH]. intros u Hu. by apply list_elem_of_further.
  - eapply frame_weaken; [|exact Hf]. intros u <-. apply list_elem_of_here.
Qed.

Lemma dep_satisfied_app_l d e1 e2 : dep_satisfied d e1 -> dep_satisfied d (e1 ++ e2).
Proof.
  intros [H|(a & p & b & H1 & H2)]; [left|right; exists a, p, b];
    rewrite ?elem_of_app; auto.
Qed.

Lemma dep_satisfied_app_r d e1 e2 : dep_satisfied d e2 -> dep_satisfied d (e1 ++ e2).
Proof.
  intros [H|(a & p & b & H1 & H2)]; [left|right; exists a, p, b];
    rewrite ?elem_of_app; auto.
Qed.

(** The dependency loop of [start_service]: it touches the listed
    units only, and when it completes every configured one of them was
    found running or launched and waited for. *)
Lemma dep_loop_events l w r w' :
  loop_run dep_step l w r w' ->
  exists evs, trace w' = trace w ++ evs /\
    Forall (fun e => exists d, ev_unit e = Some d /\ d ∈ l) evs /\
    (r = Ret tt ->
     forall d, d ∈ l -> is_Some (svc_of d w) -> dep_satisfied d evs).
Proof.
  induction 1 as [w|x xs w w1 r w' [(e1 & Ht1 & Hb) Hf] Hrest IH
                 |x xs w r w' Hr [(e1 & Ht1 & Hb) Hf]].
  - exists []. rewrite app_nil_r. split; [done|]. split; [done|].
    intros _ d Hd. by apply elem_of_nil in Hd.
  - destruct IH as (e2 & Ht2 & Hab2 & Hsat2).
    exists (e1 ++ e2). split; [by rewrite Ht2, Ht1, app_assoc|]. split.
    { apply Forall_app. split.
      - eapply Forall_impl; [exact (dep_block_about _ _ _ _ _ Hb)|].
        intros e He. exists x. split; [done|apply list_elem_of_here].
      - eapply Forall_impl; [exact Hab2|].
        intros e (d & Hd & Hin). exists d. split; [done|by apply list_elem_of_further]. }
    intros Hret d Hd [s Hs].
    destruct (decide (d = x)) as [->|Hne].
    + apply dep_satisfied_app_l.
      inversion Hb as [Hnone|s0 Hs0 Hrun|s0 p mid b Hs0 Hm|]; subst.
      * congruence.
      * left. apply list_elem_of_here.
      * right. exists (command s0), p, b. split; [apply list_elem_of_here|].
        apply list_elem_of_further, elem_of_app. right. apply list_elem_of_here.
      * done.
    + apply dep_satisfied_app_r. apply Hsat2; [done| |].
      * apply elem_of_cons in Hd as [Hd|Hd]; [done|done].
      * destruct (frame_svc_some _ _ _ _ _ Hf Hs) as (s' & Hs' & _). eauto.
  - exists e1. split; [done|]. split; [|done].
    eapply Forall_impl; [exact (dep_block_about _ _ _ _ _ Hb)|].
    intros e He. exists x. split; [done|apply list_elem_of_here].
Qed.

Lemma start_service_run fuel sid w r w' svc :
  svc_of sid w = Some svc ->
  start_service env fuel sid w = (r, w') ->
  exists evs_deps evs_self,
    trace w' = trace w ++ evs_deps ++ evs_self /\
    Forall (fun e => exists d, ev_unit e = Some d /\ d ∈ depends_on svc) evs_deps /\
    (evs_self = [] \/
     exists p rest s, evs_self = EvSpawn sid (command s) p :: rest /\
       Forall (fun e => ev_unit e = Some sid) rest /\
       forall d, d ∈ depends_on svc -> is_Some (svc_of d w) ->
                 dep_satisfied d evs_deps).
Proof.
  intros Hsvc. unfold start_service. rewrite bind_run. simpl.
  unfold svc_of in Hsvc. rewrite Hsvc. rewrite bind_run.
  destruct (for_each (depends_on svc) (start_dependency env fuel) w) as [r1 w1] eqn:Hloop.
  apply (for_each_loop_run _ dep_step (start_dependency_run fuel)) in Hloop.
  destruct (dep_loop_events _ _ _ _ Hloop) as (evs & Htr & Hab & Hsat).
  destruct r1 as [[]|e|].
  2,3: intros [= <- <-]; exists evs, []; rewrite app_nil_r; auto.
  rewrite bind_run. destruct (start env sid w1) as [r2 w2] eqn:Hstart.
  apply start_run in Hstart. destruct r2 as [[]|e|]; [| |done].
  2:{ intros [= <- <-]. destruct Hstart as [Htr2 _]. exists evs, [].
      rewrite app_nil_r, Htr2. auto. }
  destruct Hstart as (s0 & p & s1 & Hs0 & Hal & Htr2 & Hs1 & Hst1 & Hal1).
  rewrite bind_run. destruct (wait_healthy env fuel sid w2) as [r3 w3] eqn:Hwait.
  apply wait_healthy_run in Hwait as (mid & Hpoll & Hres).
  assert (Hgoal : forall tl, Forall (fun e => ev_unit e = Some sid) tl ->
            trace w3 = trace w2 ++ mid ++ tl ->
            exists evs_deps evs_self,
              trace w3 = trace w ++ evs_deps ++ evs_self /\
              Forall (fun e => exists d, ev_unit e = Some d /\ d ∈ depends_on svc)
                evs_deps /\
              (evs_self = [] \/
               exists p rest s, evs_self = EvSpawn sid (command s) p :: rest /\
                 Forall (fun e => ev_unit e = Some sid) rest /\
                 forall d, d ∈ depends_on svc -> is_Some (svc_of d w) ->
                           dep_satisfied d evs_deps)).
  { intros tl Htl Htr3. exists evs, (EvSpawn sid (command s0) p :: mid ++ tl).
    split. { rewrite Htr3, Htr2, Htr. by rewrite <- !app_assoc. }
    split; [done|]. right. exists p, (mid ++ tl), s0. split; [done|]. split.
    - apply Forall_app. split; [by apply polling_about|done].
    - by apply Hsat. }
  destruct r3 as [b|e|]; intros [= <- <-].
  - destruct Hres as [Htr3 _]. apply (Hgoal [EvWait sid b]); [by repeat constructor|done].
  - apply (Hgoal []); [done|by rewrite app_nil_r].
  - apply (Hgoal []); [done|by rewrite app_nil_r].
Qed.

(** C1 (as amended): [start_all] on an acyclic configuration launches
    a unit only after every dependency it declares has reported healthy
    (was found running, or [wait_healthy] returned [True] for it);
    [start_service] deals with the direct dependencies only: before it
    launches the requested unit, each configured direct dependency was
    found running or was launched and waited for, and no other unit is
    touched. *)
Theorem start_after_dependencies (fuel : nat) (w : World) :
  (acyclic (services w) ->
   forall r w' t1 u argv p t2 d,
     start_all env fuel w = (r, w') ->
     trace w' = trace w ++ t1 ++ EvSpawn u argv p :: t2 ->
     declares (services w) u d ->
     EvSkip d ∈ t1 \/ EvWait d true ∈ t1) /\
  (forall sid svc r w',
     svc_of sid w = Some svc ->
     start_service env fuel sid w = (r, w') ->
     exists evs_deps evs_self,
       trace w' = trace w ++ evs_deps ++ evs_self /\
       Forall (fun e => exists d, ev_unit e = Some d /\ d ∈ depends_on svc) evs_deps /\
       (evs_self = [] \/
        exists p rest s, evs_self = EvSpawn sid (command s) p :: rest /\
          Forall (fun e => ev_unit e = Some sid) rest /\
          forall d, d ∈ depends_on svc -> is_Some (svc_of d w) ->
                    dep_satisfied d evs_deps)).
Proof.
  split.
  - intros Hac r w' t1 u argv p t2 d Hrun Htr Hdecl.
    apply elem_of_passed. eapply start_all_after_dependencies; eauto.
  - intros sid svc r w' Hsvc Hrun. eapply start_service_run; eauto.
Qed.

(** *** The start order across a run *)

Lemma frame_start_order P w w' :
  frame P w w' -> _start_order (services w') = _start_order (services w).
Proof. intros [Hst _ _ _ _]. by apply _start_order_table, statics_table. Qed.

End Orchestrator.

(** ** Single flight *)

Section SingleFlight.

Variable env : Env.

(** [start_all] from a clear flag is its loop, run with the flag set,
    and the flag cleared at the end. *)
Lemma start_all_loop fuel w order r w' :
  _starting w = false -> _start_order (services w) = Some order ->
  start_all env fuel w = (r, w') ->
  exists w1, for_each order (start_all_step env fuel) (with_starting true w) = (r, w1) /\
             w' = with_starting false w1.
Proof.
  intros Hflag Horder. unfold start_all. rewrite bind_run. simpl. rewrite Hflag.
  rewrite bind_run. simpl. unfold try_finally. rewrite bind_run. simpl.
  rewrite Horder.
  destruct (for_each order (start_all_step env fuel) (with_starting true w))
    as [r1 w1] eqn:Hloop.
  intros [= <- <-]. by exists w1.
Qed.

(** C2: [start_all] is single-flight: while [_starting] is set it
    fails with "Already starting" and changes nothing.  Otherwise it
    sets the flag, walks the start order and clears the flag at the end,
    whatever the outcome; at every point between two iterations the flag
    is set, so a second call there is refused.  An iteration on a unit
    whose state reads "running" does nothing but record the skip; the
    other units are launched and waited for.  The units that reported
    healthy form a prefix of the order; when the run returns that is
    the whole order, and every unit was either skipped or launched and
    reported healthy.  A run that does not return was cut at the first
    unit that is not configured, that has a live process without being
    "running", that could not be spawned, whose [wait_healthy] returned
    [False] (the failure names it and its timeout), or whose polling
    used up the fuel, which does not happen when the fuel covers every
    polling loop.  Nothing is rolled back: no signal is sent, [stop] is
    never called, and the units that reported healthy are still
    [running] at the end. *)
Theorem start_all_single_flight (fuel : nat) (w : World) :
  (_starting w = true ->
     start_all env fuel w = (Raise (RuntimeError "Already starting"), w)) /\
  (forall sid s, svc_of sid w = Some s -> (state_getter s).1 = running ->
     exists w1, start_all_step env fuel sid w = (Ret tt, w1) /\
                trace w1 = trace w ++ [EvSkip sid] /\
                state_of sid w1 = Some running) /\
  (_starting w = false ->
     exists order, _start_order (services w) = Some order /\
     (forall done rest wm fuel', order = done ++ rest ->
        for_each done (start_all_step env fuel) (with_starting true w) = (Ret tt, wm) ->
        _starting wm = true /\
        start_all env fuel' wm = (Raise (RuntimeError "Already starting"), wm)) /\
     exists r w' evs,
         start_all env fuel w = (r, w') /\
         trace w' = trace w ++ evs /\ _starting w' = false /\
         (exists w1,
            for_each order (start_all_step env fuel) (with_starting true w) = (r, w1) /\
            w' = with_starting false w1) /\
         passed evs `prefix_of` order /\
         (r = Ret tt ->
            passed evs = order /\ visits evs = order /\
            forall u, u ∈ order ->
              EvSkip u ∈ evs \/ (u ∈ launches evs /\ EvWait u true ∈ evs)) /\
         (r = Ret tt \/ start_all_cut env fuel order (with_starting true w) r evs) /\
         (fuelled fuel (services w) -> r <> OutOfFuel) /\
         (forall u, EvSkip u ∈ evs -> state_of u w = Some running) /\
         launches evs `sublist_of` order /\
         (forall u, EvWait u false ∈ evs ->
            exists evs0 s, evs = evs0 ++ [EvWait u false] /\
              svc_of u w' = Some s /\
              r = Raise (RuntimeError
                     (name s +:+ " failed to become healthy within "
                      +:+ str_of_Z (startup_timeout s) +:+ "s"))) /\
         signals evs = [] /\ stop_calls evs = [] /\
         (forall u, u ∈ passed evs -> state_of u w' = Some running)).
Proof.
  split; [apply start_all_busy|]. split.
  { intros sid s Hs Hrun. unfold start_all_step.
    rewrite bind_run, the_run, Hs, bind_run, state_shape, Hs.
    rewrite decide_True by done. rewrite emit_run. eexists. split; [done|].
    split; [done|]. unfold state_of, svc_of in *. simpl.
    rewrite services_get_update, decide_True, Hs by done. simpl.
    by rewrite state_getter_state, Hrun. }
  intros Hflag.
  destruct (_start_order_total (services w)) as [order Horder].
  exists order. split; [done|]. split.
  { intros done rest wm fuel' _ Hdone.
    assert (Hm : _starting wm = true) by (by rewrite (start_loop_flag _ _ _ _ _ _ Hdone)).
    split; [done|]. by apply start_all_busy. }
  destruct (start_all env fuel w) as [r w'] eqn:Hrun.
  destruct (start_all_loop _ _ _ _ _ Hflag Horder Hrun) as (w1 & Hfor & ->).
  assert (Hloop : loop_run start_step order (with_starting true w) r w1).
  { eapply for_each_loop_run; [|exact Hfor]. intros. by eapply start_step_run. }
  destruct (_start_order_shape _ _ Horder) as (Hnd & _ & _).
  destruct (start_loop_events _ _ _ _ Hloop)
    as (evs & Htr & Hsig & Hstop & Hl & Hp & Hret & _ & Hun).
  destruct (start_loop_running _ _ _ _ Hnd Hloop) as (evs' & Htr' & Hst).
  assert (evs' = evs) as -> by (rewrite Htr in Htr'; by apply app_inv_head in Htr').
  destruct (start_loop_skips _ _ _ _ Hnd Hloop) as (evs'' & Htr'' & Hsk).
  assert (evs'' = evs) as -> by (rewrite Htr in Htr''; by apply app_inv_head in Htr'').
  destruct (start_loop_waited _ _ _ _ Hloop) as (evs3 & Htr3 & Hw).
  assert (evs3 = evs) as -> by (rewrite Htr in Htr3; by apply app_inv_head in Htr3).
  assert (Hcut : r = Ret tt \/ start_all_cut env fuel order (with_starting true w) r evs).
  { assert (Hdec : r = Ret tt \/ r <> Ret tt) by (destruct r as [[]| |]; auto).
    destruct Hdec as [->|Hr]; [by left|right].
    destruct (start_loop_cut _ _ _ _ _ _ Hfor Hr) as (evs4 & Htr4 & Hc).
    assert (evs4 = evs) as -> by (rewrite Htr in Htr4; by apply app_inv_head in Htr4).
    done. }
  exists r, (with_starting false w1), evs. split; [done|].
  split; [done|]. split; [done|]. split; [by exists w1|].
  split; [done|]. split.
  { intros Hr. destruct (Hret Hr) as [Hpa Hvi]. split; [done|]. split; [done|].
    intros u Hu. rewrite <- Hpa in Hu. apply elem_of_passed in Hu as [Hu|Hu]; [by left|].
    right. eauto. }
  split; [done|]. split.
  { intros Hf ->. destruct Hcut as [|Hc]; [done|].
    by apply (start_all_cut_fuelled env fuel order (with_starting true w) evs Hf) in Hc. }
  split; [exact Hsk|]. split; [done|].
  split; [exact Hun|]. split; [done|]. split; [done|]. exact Hst.
Qed.

End SingleFlight.

(** ** Stopping in reverse *)

Lemma sublist_rev_rev {A : Type} (l1 l2 : list A) :
  l1 `sublist_of` l2 -> rev l1 `sublist_of` rev l2.
Proof.
  induction 1 as [|x l1 l2 _ IH|x l1 l2 _ IH]; simpl.
  - done.
  - by apply sublist_app.
  - by apply sublist_inserts_r.
Qed.

Section StopOutcomes.

Variable env : Env.

(** The loop of [stop_all]: it stops every unit of the list, or ends
    with [KeyError] at the first identifier that is not configured. *)
Lemma stop_loop_outcome l w r w' :
  loop_run stop_step l w r w' ->
  exists evs, trace w' = trace w ++ evs /\
    (r = Ret tt /\ stop_calls evs = l \/
     exists done g rest, l = done ++ g :: rest /\ svc_of g w = None /\
       r = Raise (KeyError g) /\ stop_calls evs = done).
Proof.
  induction 1 as [w|x xs w w1 r w' [Hb Hf] Hrest IH|x xs w r w' Hr [Hb Hf]].
  - exists []. rewrite app_nil_r. split; [done|]. by left.
  - destruct IH as (e2 & Ht2 & Hcase).
    destruct (svc_of x w) as [s|] eqn:Hs; [|destruct Hb; discriminate].
    destruct Hb as (_ & sigs & Ht1 & Hsigs & Hst1).
    destruct (signals_silent sigs) as (_ & Hc1 & _).
    { eapply Forall_impl; [exact Hsigs|]. intros e [? ?]. eauto. }
    exists ((EvStop x :: sigs) ++ e2). split; [by rewrite Ht2, Ht1, <- app_assoc|].
    assert (Hcalls : stop_calls ((EvStop x :: sigs) ++ e2) = x :: stop_calls e2).
    { unfold stop_calls in *. rewrite omap_app. cbn. by rewrite Hc1. }
    rewrite Hcalls.
    destruct Hcase as [[-> ->]|(pre & g & rest & -> & Hg & -> & Hpre)]; [by left|right].
    exists (x :: pre), g, rest. split; [done|]. split; [|by rewrite Hpre].
    destruct (svc_of g w) as [sg|] eqn:Hsg; [|done].
    destruct (frame_svc_some _ _ _ _ _ Hf Hsg) as (s' & Hs' & _). congruence.
  - destruct (svc_of x w) as [s|] eqn:Hs.
    { by destruct Hb as [-> _]. }
    destruct Hb as [-> ->]. exists []. rewrite app_nil_r. split; [done|].
    right. by exists [], x, xs.
Qed.

End StopOutcomes.

Section Reverse.

Variable env : Env.

(** C4 (as amended): [stop_all] walks the start order backwards,
    whatever [start_all] did with each unit.  [start_all], from a clear
    flag, is the loop over the start order: it returns after going
    through every unit (skipping or launching each), or is cut at one
    unit; its launches follow the order.  [stop_all] calls [stop] on
    the units in the reverse of the start order, all of them unless it
    reaches an identifier that is not configured, where it raises
    [KeyError].  After a [start_all] that returned, [stop_all] returns,
    its [stop] calls are exactly the reverse of the order in which
    [start_all] went through the units, and the launched units are
    stopped in the reverse of their launch order; when no unit was
    running before, the [stop] calls are exactly the reverse of the
    launches. *)
Theorem stop_all_reverses_start_all (fuel : nat) (w : World) :
  exists order, _start_order (services w) = Some order /\ NoDup order /\
  exists r1 w1 evs1,
    start_all env fuel w = (r1, w1) /\ trace w1 = trace w ++ evs1 /\
    launches evs1 `sublist_of` order /\
    (_starting w = true -> r1 = Raise (RuntimeError "Already starting") /\ evs1 = []) /\
    (_starting w = false ->
       (exists w',
          for_each order (start_all_step env fuel) (with_starting true w) = (r1, w') /\
          w1 = with_starting false w') /\
       (r1 = Ret tt \/ start_all_cut env fuel order (with_starting true w) r1 evs1)) /\
    (fuelled fuel (services w) -> r1 <> OutOfFuel) /\
    (r1 = Ret tt -> visits evs1 = order) /\
    (r1 = Ret tt -> (forall u, u ∈ order -> state_of u w <> Some running) ->
     launches evs1 = order) /\
    exists r2 w2 evs2,
      stop_all env w1 = (r2, w2) /\ trace w2 = trace w1 ++ evs2 /\
      stop_calls evs2 `prefix_of` rev order /\
      launches evs2 = [] /\
      (r2 = Ret tt /\ stop_calls evs2 = rev order \/
       exists done g rest, rev order = done ++ g :: rest /\ svc_of g w = None /\
         r2 = Raise (KeyError g) /\ stop_calls evs2 = done) /\
      (r1 = Ret tt ->
         r2 = Ret tt /\ stop_calls evs2 = rev (visits evs1) /\
         rev (launches evs1) `sublist_of` stop_calls evs2) /\
      (r1 = Ret tt -> (forall u, u ∈ order -> state_of u w <> Some running) ->
         r2 = Ret tt /\ stop_calls evs2 = rev (launches evs1)) /\
      (deps_declared (services w) -> r2 = Ret tt /\ stop_calls evs2 = rev order).
Proof.
  destruct (_start_order_total (services w)) as [order Horder].
  destruct (_start_order_shape _ _ Horder) as (Hnd & _ & _).
  exists order. split; [done|]. split; [done|].
  destruct (start_all env fuel w) as [r1 w1] eqn:Hstart.
  assert (Hframe : frame (fun _ => True) w w1 /\
            exists evs1, trace w1 = trace w ++ evs1 /\
              launches evs1 `sublist_of` order /\
              (_starting w = true ->
                 r1 = Raise (RuntimeError "Already starting") /\ evs1 = []) /\
              (_starting w = false ->
                 (exists w',
                    for_each order (start_all_step env fuel) (with_starting true w)
                      = (r1, w') /\ w1 = with_starting false w') /\
                 (r1 = Ret tt \/
                  start_all_cut env fuel order (with_starting true w) r1 evs1)) /\
              (r1 = Ret tt -> visits evs1 = order /\
                 (forall u, u ∈ order -> is_Some (svc_of u w1)) /\
                 ((forall u, u ∈ order -> state_of u w <> Some running) ->
                  launches evs1 = order))).
  { destruct (_starting w) eqn:Hflag.
    { rewrite start_all_busy in Hstart by done. injection Hstart as <- <-.
      split; [apply frame_refl|]. exists []. rewrite app_nil_r.
      split; [done|]. split; [apply sublist_nil_l|]. done. }
    destruct (start_all_loop _ _ _ _ _ _ Hflag Horder Hstart) as (w' & Hfor & ->).
    assert (Hloop : loop_run start_step order (with_starting true w) r1 w').
    { eapply for_each_loop_run; [|exact Hfor]. intros. by eapply start_step_run. }
    split.
    { destruct (start_loop_frame _ _ _ _ Hloop) as [H1 H2 H3 H4 (evs & Ht & Hall)].
      split; simpl in *; [done| |by rewrite Hflag|done|].
      - intros v Hv. exfalso. by apply Hv.
      - exists evs. split; [done|]. eapply Forall_impl; [exact Hall|].
        intros e (u & Hu & _). eauto. }
    destruct (start_loop_events _ _ _ _ Hloop)
      as (evs & Htr & _ & _ & Hl & _ & Hret & _ & _).
    exists evs. split; [done|]. split; [done|]. split; [done|]. split.
    { intros _. split; [by exists w'|].
      assert (Hdec : r1 = Ret tt \/ r1 <> Ret tt) by (destruct r1 as [[]| |]; auto).
      destruct Hdec as [->|Hr]; [by left|right].
      destruct (start_loop_cut _ _ _ _ _ _ Hfor Hr) as (evs4 & Htr4 & Hc).
      assert (evs4 = evs) as -> by (rewrite Htr in Htr4; by apply app_inv_head in Htr4).
      done. }
    intros ->.
    destruct (Hret eq_refl) as [Hpassed Hvisits]. split; [done|]. split.
    - intros u Hu.
      destruct (start_loop_running _ _ _ _ Hnd Hloop) as (evs' & Htr' & Hst).
      assert (evs' = evs) as -> by (rewrite Htr in Htr'; by apply app_inv_head in Htr').
      rewrite <- Hpassed in Hu. apply Hst in Hu. unfold state_of in Hu.
      change (svc_of u (with_starting false w')) with (svc_of u w').
      by destruct (svc_of u w').
    - intros Hidle.
      destruct (start_loop_launches_all _ (with_starting true w) _ Hnd Hidle Hloop)
        as (evs' & Htr' & Hall).
      by assert (evs' = evs) as -> by (rewrite Htr in Htr'; by apply app_inv_head in Htr'). }
  destruct Hframe as (Hframe & evs1 & Htr1 & Hl1 & Hbusy & Hclear & Hret1).
  exists r1, w1, evs1. split; [done|].
  split; [done|]. split; [done|]. split; [done|]. split; [done|].
  split.
  { intros Hf ->. destruct (_starting w) eqn:Hflag.
    - by destruct (Hbusy eq_refl).
    - destruct (Hclear eq_refl) as [_ [|Hc]]; [done|].
      by apply (start_all_cut_fuelled env fuel order (with_starting true w) evs1 Hf) in Hc. }
  split; [by intros []%Hret1|]. split; [intros Hr Hidle; by apply Hret1|].
  destruct (stop_all env w1) as [r2 w2] eqn:Hstop.
  pose proof Hstop as Hstop_run.
  assert (Horder1 : _start_order (services w1) = Some order).
  { by rewrite (frame_start_order _ _ _ Hframe). }
  apply (stop_all_run _ _ _ _ _ Horder1) in Hstop.
  destruct (stop_loop_events _ _ _ _ Hstop) as (evs2 & Htr2 & Hl2 & _ & Hpre & Hret & Hall & _).
  assert (Hret2 : r1 = Ret tt -> r2 = Ret tt /\ stop_calls evs2 = rev (visits evs1)).
  { intros Hr. destruct (Hret1 Hr) as (Hv & Hsome & _).
    assert (r2 = Ret tt) as ->.
    { apply Hall. intros u Hu. apply Hsome. by apply elem_of_rev. }
    split; [done|]. rewrite Hv. by apply Hret. }
  exists r2, w2, evs2. split; [done|].
  split; [done|]. split; [done|]. split; [done|]. split.
  { destruct (stop_loop_outcome _ _ _ _ Hstop) as (evs2' & Htr2' & Hcase).
    assert (evs2' = evs2) as -> by (rewrite Htr2 in Htr2'; by apply app_inv_head in Htr2').
    destruct Hcase as [?|(done & g & rest & Hsplit & Hg & -> & Hc)]; [by left|right].
    exists done, g, rest. split; [done|]. split; [|done].
    destruct (svc_of g w) as [sg|] eqn:Hsg; [|done].
    destruct (frame_svc_some _ _ _ _ _ Hframe Hsg) as (s' & Hs' & _). congruence. }
  split.
  { intros Hr. destruct (Hret2 Hr) as [-> Hc]. split; [done|]. split; [done|].
    rewrite Hc. destruct (Hret1 Hr) as (-> & _). by apply sublist_rev_rev. }
  split.
  { intros Hr Hidle. destruct (Hret2 Hr) as [-> Hc]. split; [done|].
    destruct (Hret1 Hr) as (Hv & _ & Hall'). rewrite Hc, Hv. by rewrite (Hall' Hidle). }
  intros Hdecl.
  assert (r2 = Ret tt) as ->.
  { apply Hall. intros u Hu. apply (proj1 (elem_of_rev _ _)) in Hu.
    destruct (_start_order_declared _ _ Hdecl Horder u Hu) as [s Hs].
    destruct (frame_svc_some _ _ _ _ _ Hframe Hs) as (s' & Hs' & _). eauto. }
  split; [done|]. by apply Hret.
Qed.

End Reverse.


(** ** Model selection *)

Lemma state_getter_idem s :
  (state_getter (state_getter s).2).1 = (state_getter s).1.
Proof.
  destruct s as [i n c h d t p [[q [rc|]]|] lf st]; by destruct st.
Qed.

(** The test of [change_model]: it always answers, leaves trace and
    configuration alone, and answers [True] exactly when some unit is
    running or starting. *)
Lemma any_running_or_starting_run keys : forall w,
  (forall k, k ∈ keys -> is_Some (svc_of k w)) ->
  exists b w',
    any_running_or_starting keys w = (Ret b, w') /\
    trace w' = trace w /\ statics (services w') = statics (services w) /\
    _starting w' = _starting w /\ state_file w' = state_file w /\
    (b = true <->
     exists k s, k ∈ keys /\ svc_of k w = Some s /\
       ((state_getter s).1 = running \/ (state_getter s).1 = starting)).
Proof.
  induction keys as [|k ks IH]; intros w Hkeys; simpl.
  - exists false, w. repeat split; try done.
    intros (k & s & Hk & _). by apply elem_of_nil in Hk.
  - destruct (Hkeys k (list_elem_of_here _ _)) as [s Hs].
    rewrite bind_run, state_shape, Hs.
    set (w0 := with_services _ w).
    assert (Hget0 : forall v, svc_of v w0 =
              if decide (v = k) then Some (state_getter s).2 else svc_of v w).
    { intros v. subst w0. unfold svc_of. simpl. rewrite services_get_update.
      destruct (decide (v = k)) as [->|]; [|done]. unfold svc_of in Hs. by rewrite Hs. }
    assert (Hstat0 : statics (services w0) = statics (services w)).
    { subst w0. simpl. apply statics_update. intros s'. unfold state_getter.
      destruct (decide _); [done|]. by destruct (not_alive s'). }
    case_bool_decide as Hact.
    + exists true, w0. repeat split; try done.
      intros _. exists k, s. split; [apply list_elem_of_here|done].
    + destruct (IH w0) as (b & w' & Hrun & Htr & Hst & Hfl & Hsf & Hb).
      { intros k' Hk'. rewrite Hget0. destruct (decide (k' = k)); [done|].
        by apply Hkeys, list_elem_of_further. }
      exists b, w'. split; [done|]. split; [by rewrite Htr|].
      split; [by rewrite Hst|]. split; [by rewrite Hfl|]. split; [by rewrite Hsf|].
      rewrite Hb. split.
      * intros (k' & s' & Hk' & Hs' & Hact'). rewrite Hget0 in Hs'.
        destruct (decide (k' = k)) as [->|Hne].
        -- injection Hs' as <-. rewrite state_getter_idem in Hact'. done.
        -- exists k', s'. split; [by apply list_elem_of_further|done].
      * intros (k' & s' & [->|Hk']%elem_of_cons & Hs' & Hact').
        -- rewrite Hs in Hs'. injection Hs' as <-. done.
        -- destruct (decide (k' = k)) as [->|Hne].
           ++ rewrite Hs in Hs'. injection Hs' as <-. done.
           ++ exists k', s'. split; [done|]. rewrite Hget0, decide_False by done. done.
Qed.

Lemma runtimes_update sid f l :
  (forall s, runtime (f s) = runtime s) ->
  runtimes (services_update sid f l) = runtimes l.
Proof.
  intros Hf. induction l as [|[k s] rest IH]; simpl; [done|].
  destruct (decide (k = sid)); simpl; [by rewrite Hf|by rewrite IH].
Qed.

Lemma runtimes_get l l' v :
  runtimes l' = runtimes l ->
  runtime <$> services_get v l' = runtime <$> services_get v l.
Proof.
  revert l'. induction l as [|[k s] rest IH]; intros [|[k' s'] rest'] Heq;
    simpl in *; try discriminate; [done|].
  injection Heq; intros Hrest; intros; subst k'.
  destruct (decide (k = v)); [cbn; unfold runtime; congruence|auto].
Qed.

Lemma runtimes_table l l' :
  runtimes l' = runtimes l -> dependency_table l' = dependency_table l.
Proof.
  revert l'. induction l as [|[k s] rest IH]; intros [|[k' s'] rest'] Heq;
    simpl in *; try discriminate; [done|].
  injection Heq; intros Hrest; intros; subst k'. f_equal; [|auto].
  simpl. congruence.
Qed.

Lemma runtimes_state w w' v :
  runtimes (services w') = runtimes (services w) -> state_of v w' = state_of v w.
Proof.
  intros H. pose proof (runtimes_get _ _ v H) as Hv. unfold state_of, svc_of.
  destruct (services_get v (services w')) as [s'|],
           (services_get v (services w)) as [s|]; simpl in *; try done.
  unfold runtime in Hv. congruence.
Qed.

Lemma statics_update_congr sid f l1 l2 :
  statics l1 = statics l2 ->
  (forall s1 s2, static s1 = static s2 -> static (f s1) = static (f s2)) ->
  statics (services_update sid f l1) = statics (services_update sid f l2).
Proof.
  intros Heq Hf. revert l2 Heq.
  induction l1 as [|[k s] rest IH]; intros [|[k' s'] rest'] Heq;
    simpl in *; try discriminate; [done|].
  assert (Hk : k = k') by congruence.
  assert (Hs : static s = static s') by (unfold static in *; congruence).
  assert (Hrest : statics rest = statics rest') by congruence.
  subst k'. destruct (decide (k = sid)); simpl.
  - f_equal; [|done]. f_equal. by apply Hf.
  - f_equal; [by rewrite Hs|]. by apply IH.
Qed.

Lemma lift_sum_run {A : Type} (x : Exn + A) w :
  lift_sum x w = match x with inl e => (Raise e, w) | inr a => (Ret a, w) end.
Proof. by destruct x. Qed.

Lemma reconfigures_seq m1 m2 :
  reconfigures m1 -> reconfigures m2 -> reconfigures (m1 ;; m2).
Proof.
  intros H1 H2 w r w'. rewrite bind_run.
  destruct (m1 w) as [r1 w1] eqn:Hm1.
  destruct (H1 _ _ _ Hm1) as (Ht1 & Hf1 & Hs1 & Hr1 & Ho1 & Hd1).
  destruct r1 as [[]|e|].
  - intros Hm2. destruct (H2 _ _ _ Hm2) as (Ht2 & Hf2 & Hs2 & Hr2 & Ho2 & Hd2).
    repeat split; try congruence. intros w2 Hw2.
    destruct (Hd1 w2 Hw2) as (w2a & Ha & Hsa).
    destruct (Hd2 w2a Hsa) as (w2b & Hb & Hsb).
    exists w2b. by rewrite bind_run, Ha.
  - intros [= <- <-]. repeat split; try done. intros w2 Hw2.
    destruct (Hd1 w2 Hw2) as (w2a & Ha & Hsa). exists w2a. by rewrite bind_run, Ha.
  - by destruct Ho1 as [|[? ?]].
Qed.

Lemma substitute_command_arg_outcome flag value cmd :
  (exists cmd', substitute_command_arg flag value cmd = inr cmd') \/
  (exists msg, substitute_command_arg flag value cmd = inl (IndexError msg)).
Proof.
  unfold substitute_command_arg. destruct (list_index flag cmd); [|eauto].
  destruct (decide _); eauto.
Qed.

Lemma statics_command l l' v s s' :
  statics l' = statics l -> services_get v l = Some s ->
  services_get v l' = Some s' -> command s' = command s.
Proof.
  intros H Hs Hs'. pose proof (statics_get _ _ v H) as Hv.
  rewrite Hs, Hs' in Hv. cbn in Hv. unfold static in Hv. congruence.
Qed.

Lemma statics_get_some l l' v s :
  statics l' = statics l -> services_get v l = Some s ->
  exists s', services_get v l' = Some s'.
Proof.
  intros H Hs. pose proof (statics_get _ _ v H) as Hv. rewrite Hs in Hv.
  destruct (services_get v l'); [eauto|done].
Qed.

Lemma statics_get_none l l' v :
  statics l' = statics l -> services_get v l = None -> services_get v l' = None.
Proof.
  intros H Hs. pose proof (statics_get _ _ v H) as Hv. rewrite Hs in Hv.
  by destruct (services_get v l').
Qed.

Lemma set_command_static c s1 s2 :
  static s1 = static s2 -> static (set_command c s1) = static (set_command c s2).
Proof. unfold static. simpl. congruence. Qed.

Lemma set_name_static n s1 s2 :
  static s1 = static s2 -> static (set_name n s1) = static (set_name n s2).
Proof. unfold static. simpl. congruence. Qed.

Lemma apply_to_vllm_reconfigures model_id gpu :
  reconfigures (apply_to_vllm model_id gpu).
Proof.
  intros w r w'. unfold apply_to_vllm. rewrite bind_run. simpl.
  destruct (services_get "vllm" (services w)) as [s|] eqn:Hs.
  2:{ intros [= <- <-]. repeat split; auto. intros w2 Hw2. exists w2.
      rewrite bind_run. simpl. by rewrite (statics_get_none _ _ _ Hw2 Hs). }
  rewrite bind_run, lift_sum_run.
  destruct (substitute_command_arg_outcome "--model" model_id (command s))
    as [[c1 Hc1]|[msg Hc1]]; rewrite Hc1.
  2:{ intros [= <- <-]. repeat split; eauto. intros w2 Hw2. exists w2.
      rewrite bind_run. simpl.
      destruct (statics_get_some _ _ _ _ Hw2 Hs) as [s2 Hs2]. rewrite Hs2.
      rewrite bind_run, lift_sum_run, (statics_command _ _ _ _ _ Hw2 Hs Hs2), Hc1. done. }
  rewrite bind_run, lift_sum_run.
  destruct (substitute_command_arg_outcome "--gpu-memory-utilization" gpu c1)
    as [[c2 Hc2]|[msg Hc2]]; rewrite Hc2.
  2:{ intros [= <- <-]. repeat split; eauto. intros w2 Hw2. exists w2.
      rewrite bind_run. simpl.
      destruct (statics_get_some _ _ _ _ Hw2 Hs) as [s2 Hs2]. rewrite Hs2.
      rewrite bind_run, lift_sum_run, (statics_command _ _ _ _ _ Hw2 Hs Hs2), Hc1.
      rewrite bind_run, lift_sum_run, Hc2. done. }
  rewrite bind_run, !mutate_run. intros [= <- <-]. simpl.
  split; [done|]. split; [done|]. split; [done|]. split.
  { by rewrite !runtimes_update. }
  split; [by left|]. intros w2 Hw2. eexists. split.
  - rewrite bind_run. simpl.
    destruct (statics_get_some _ _ _ _ Hw2 Hs) as [s2 Hs2]. rewrite Hs2.
    rewrite bind_run, lift_sum_run, (statics_command _ _ _ _ _ Hw2 Hs Hs2), Hc1.
    rewrite bind_run, lift_sum_run, Hc2. rewrite bind_run, !mutate_run. reflexivity.
  - simpl. apply statics_update_congr; [|apply set_name_static].
    apply statics_update_congr; [done|apply set_command_static].
Qed.

Lemma apply_to_miotts_reconfigures model_id :
  reconfigures (apply_to_miotts model_id).
Proof.
  intros w r w'. unfold apply_to_miotts. rewrite bind_run. simpl.
  destruct (services_get "miotts" (services w)) as [s|] eqn:Hs.
  2:{ intros [= <- <-]. repeat split; auto. intros w2 Hw2. exists w2.
      rewrite bind_run. simpl. by rewrite (statics_get_none _ _ _ Hw2 Hs). }
  rewrite bind_run, lift_sum_run.
  destruct (substitute_command_arg_outcome "--llm-model" model_id (command s))
    as [[c1 Hc1]|[msg Hc1]]; rewrite Hc1.
  2:{ intros [= <- <-]. repeat split; eauto. intros w2 Hw2. exists w2.
      rewrite bind_run. simpl.
      destruct (statics_get_some _ _ _ _ Hw2 Hs) as [s2 Hs2]. rewrite Hs2.
      rewrite bind_run, lift_sum_run, (statics_command _ _ _ _ _ Hw2 Hs Hs2), Hc1. done. }
  rewrite mutate_run. intros [= <- <-]. simpl.
  split; [done|]. split; [done|]. split; [done|]. split.
  { by rewrite !runtimes_update. }
  split; [by left|]. intros w2 Hw2. eexists. split.
  - rewrite bind_run. simpl.
    destruct (statics_get_some _ _ _ _ Hw2 Hs) as [s2 Hs2]. rewrite Hs2.
    rewrite bind_run, lift_sum_run, (statics_command _ _ _ _ _ Hw2 Hs Hs2), Hc1.
    rewrite mutate_run. reflexivity.
  - simpl. apply statics_update_congr; [done|apply set_command_static].
Qed.

Lemma _apply_model_reconfigures model_id gpu :
  reconfigures (_apply_model_to_services model_id gpu).
Proof.
  apply reconfigures_seq;
    [apply apply_to_vllm_reconfigures|apply apply_to_miotts_reconfigures].
Qed.

Lemma fuelled_update fuel sid f l :
  (forall s, health_url (f s) = health_url s /\
             startup_timeout (f s) = startup_timeout s /\
             startup_poll_interval (f s) = startup_poll_interval s) ->
  fuelled fuel l -> fuelled fuel (services_update sid f l).
Proof.
  intros Hf H u s'. rewrite services_get_update.
  assert (Hcase : forall s, services_get u l = Some s -> s' = s \/ s' = f s ->
            no_health_url s' = false ->
            (0 < startup_poll_interval s')%Z /\ max_polls s' <= fuel).
  { intros s Hs [->| ->]; [by apply (H u)|].
    destruct (Hf s) as (Hu & HT & Hp). unfold no_health_url, max_polls.
    rewrite Hu, HT, Hp. by apply (H u). }
  destruct (decide (u = sid)).
  - destruct (services_get u l) as [s|] eqn:Hs; [|done].
    intros [= <-]. apply (Hcase s); auto.
  - intros Hs. apply (Hcase s'); auto.
Qed.

(** Rewriting the model arguments leaves health URLs, timeouts and poll
    intervals alone. *)
Lemma _apply_model_fuelled fuel model_id gpu w r w' :
  _apply_model_to_services model_id gpu w = (r, w') ->
  fuelled fuel (services w) -> fuelled fuel (services w').
Proof.
  assert (Hv : forall w r w', apply_to_vllm model_id gpu w = (r, w') ->
            fuelled fuel (services w) -> fuelled fuel (services w')).
  { clear. intros w r w'. unfold apply_to_vllm. rewrite bind_run. simpl.
    destruct (services_get "vllm" (services w)) as [s|]; [|by intros [= <- <-]].
    rewrite bind_run, lift_sum_run.
    destruct (substitute_command_arg "--model" model_id (command s)) as [e|c1];
      [by intros [= <- <-]|].
    rewrite bind_run, lift_sum_run.
    destruct (substitute_command_arg "--gpu-memory-utilization" gpu c1) as [e|c2];
      [by intros [= <- <-]|].
    rewrite bind_run, !mutate_run. intros [= <- <-] Hf. simpl.
    apply fuelled_update; [done|]. by apply fuelled_update. }
  assert (Hm : forall w r w', apply_to_miotts model_id w = (r, w') ->
            fuelled fuel (services w) -> fuelled fuel (services w')).
  { clear. intros w r w'. unfold apply_to_miotts. rewrite bind_run. simpl.
    destruct (services_get "miotts" (services w)) as [s|]; [|by intros [= <- <-]].
    rewrite bind_run, lift_sum_run.
    destruct (substitute_command_arg "--llm-model" model_id (command s)) as [e|c1];
      [by intros [= <- <-]|].
    rewrite mutate_run. intros [= <- <-] Hf. simpl. by apply fuelled_update. }
  unfold _apply_model_to_services. rewrite bind_run.
  destruct (apply_to_vllm model_id gpu w) as [[[]|e|] w1] eqn:H1.
  - intros H2 Hf. eapply Hm; [exact H2|]. eapply Hv; eauto.
  - intros [= <- <-] Hf. eapply Hv; eauto.
  - intros [= <- <-] Hf. eapply Hv; eauto.
Qed.

Section ChangeModel.

Variable env : Env.

Lemma _save_state_run model_id w :
  _save_state model_id w =
  (Ret tt, with_event (EvSaveState model_id) (with_state_file (Some model_id) w)).
Proof. reflexivity. Qed.

Lemma some_unit_active_keys w :
  some_unit_active w <->
  exists k s, k ∈ map fst (services w) /\ svc_of k w = Some s /\
    ((state_getter s).1 = running \/ (state_getter s).1 = starting).
Proof.
  split.
  - intros (u & s & Hs & Hact). exists u, s. split; [|done].
    eapply services_get_Some_key, Hs.
  - intros (u & s & _ & Hs & Hact). by exists u, s.
Qed.

Lemma NoDup_rev {A : Type} (l : list A) : NoDup l -> NoDup (rev l).
Proof. rewrite !NoDup_ListNoDup. apply List.NoDup_rev. Qed.

Lemma start_cut_launches fuel sid w r evs :
  start_cut env fuel sid w r evs -> launches evs = [] \/ launches evs = [sid].
Proof.
  destruct 1 as [| | |s p mid _ _ _ Hm|s p mid _ _ _ Hm]; try by left.
  - right. by apply launched_block.
  - right. rewrite <- (app_nil_r mid). by apply launched_block.
Qed.

Lemma start_cut_quiet fuel sid w r evs :
  start_cut env fuel sid w r evs -> r <> Ret tt.
Proof. by destruct 1. Qed.

(** [start_all] on a fleet in which no unit is running: it launches
    the units in start order, all of them when it returns. *)
Lemma start_all_from_idle fuel order w r w' :
  _start_order (services w) = Some order -> NoDup order ->
  (forall u, u ∈ order -> state_of u w <> Some running) ->
  start_all env fuel w = (r, w') ->
  exists evs, trace w' = trace w ++ evs /\
    stop_calls evs = [] /\ signals evs = [] /\
    launches evs `prefix_of` order /\
    state_file w' = state_file w /\
    statics (services w') = statics (services w) /\
    (r = Ret tt /\ launches evs = order \/
     _starting w = true /\ r = Raise (RuntimeError "Already starting") /\ evs = [] \/
     _starting w = false /\ r <> Ret tt /\
       start_all_cut env fuel order (with_starting true w) r evs).
Proof.
  intros Horder Hnd Hidle Hstart.
  destruct (_starting w) eqn:Hflag.
  { rewrite start_all_busy in Hstart by done. injection Hstart as <- <-.
    exists []. rewrite app_nil_r. split; [done|]. split; [done|]. split; [done|].
    split; [apply prefix_nil|]. split; [done|]. split; [done|]. right. by left. }
  destruct (start_all_loop _ _ _ _ _ _ Hflag Horder Hstart) as (w1 & Hfor & ->).
  assert (Hloop : loop_run start_step order (with_starting true w) r w1).
  { eapply for_each_loop_run; [|exact Hfor]. intros. by eapply start_step_run. }
  destruct (start_loop_events _ _ _ _ Hloop)
    as (evs & Htr & Hsig & Hstop & Hl & _).
  destruct (start_loop_frame _ _ _ _ Hloop) as [Hst _ _ Hsf _].
  exists evs. split; [done|]. split; [done|]. split; [done|].
  assert (Hdec : r = Ret tt \/ r <> Ret tt) by (destruct r as [[]| |]; auto).
  destruct Hdec as [->|Hr].
  - destruct (start_loop_launches_all _ (with_starting true w) _ Hnd Hidle Hloop)
      as (evs' & Htr' & Hall).
    assert (evs' = evs) as -> by (rewrite Htr in Htr'; by apply app_inv_head in Htr').
    rewrite Hall. split; [done|]. split; [done|]. split; [done|]. by left.
  - destruct (start_loop_cut _ _ _ _ _ _ Hfor Hr) as (evs4 & Htr4 & Hc).
    assert (evs4 = evs) as -> by (rewrite Htr in Htr4; by apply app_inv_head in Htr4).
    split; [|split; [done|split; [done|right; right; done]]].
    destruct Hc as (pre & u & rest & wu & ed & eu & -> & Hpre & Htu & -> & _ & Hcut).
    assert (Hpl : loop_run start_step pre (with_starting true w) (Ret tt) wu).
    { eapply for_each_loop_run; [|exact Hpre]. intros. by eapply start_step_run. }
    apply NoDup_app in Hnd as (Hnd1 & _ & _).
    destruct (start_loop_launches_all pre (with_starting true w) wu Hnd1)
      as (ed' & Htu' & Hall); [|done|].
    { intros v Hv. apply Hidle, elem_of_app. by left. }
    assert (ed' = ed) as -> by (rewrite Htu in Htu'; by apply app_inv_head in Htu').
    unfold launches in *. rewrite omap_app, Hall.
    destruct (start_cut_launches _ _ _ _ _ Hcut) as [Hu|Hu];
      unfold launches in Hu; rewrite Hu.
    + rewrite app_nil_r. by apply prefix_app_r.
    + apply prefix_app, prefix_cons, prefix_nil.
Qed.

(** C8 (as amended): with a known model, [change_model] tests whether
    some unit is running or starting.  When none is, it rewrites the
    arguments and persists the selection, stopping and launching
    nothing.  When one is, it calls [stop] on every unit in reverse
    start order, rewrites, persists, and runs [start_all], which
    launches the units in start order, the ones that were stopped
    before included: all of them when it returns.  The other outcomes:
    [KeyError] from [stop_all] at an identifier that is not configured;
    [IndexError] from the rewriting, with the units stopped and nothing
    persisted; and, the selection persisted, the failure of
    [start_all], cut at the first unit that still has a live process,
    that could not be spawned or that did not become healthy.  With
    fuel for every polling loop the outcome is never want of fuel. *)
Theorem change_model_restarts_every_unit (fuel : nat)
    (models : list (string * string)) (model_id : string) (w : World) :
  (List.find (fun m => bool_decide (m.1 = model_id)) models = None ->
   change_model env fuel models model_id w =
     (Raise (HTTPException 400 ("Unknown model: " +:+ model_id)), w)) /\
  (forall model,
     List.find (fun m => bool_decide (m.1 = model_id)) models = Some model ->
     exists order r w',
       _start_order (services w) = Some order /\
       change_model env fuel models model_id w = (r, w') /\
       (fuelled fuel (services w) -> r <> OutOfFuel) /\
       (forall x, r = Ret x ->
          x = model_id /\ state_file w' = Some model_id /\
          exists wa, _apply_model_to_services model_id model.2 w = (Ret tt, wa) /\
                     statics (services w') = statics (services wa)) /\
       (~ some_unit_active w ->
          r = Ret model_id /\ trace w' = trace w ++ [EvSaveState model_id] \/
          exists msg wa, r = Raise (IndexError msg) /\
            _apply_model_to_services model_id model.2 w = (Raise (IndexError msg), wa) /\
            trace w' = trace w /\ state_file w' = state_file w) /\
       (some_unit_active w ->
          exists evs_stop,
            stop_calls evs_stop `prefix_of` rev order /\ launches evs_stop = [] /\
            ((exists pre g rest, rev order = pre ++ g :: rest /\ svc_of g w = None /\
                r = Raise (KeyError g) /\ stop_calls evs_stop = pre /\
                trace w' = trace w ++ evs_stop /\ state_file w' = state_file w) \/
             stop_calls evs_stop = rev order /\
             ((exists msg wa, r = Raise (IndexError msg) /\
                 _apply_model_to_services model_id model.2 w
                   = (Raise (IndexError msg), wa) /\
                 trace w' = trace w ++ evs_stop /\ state_file w' = state_file w /\
                 forall u, u ∈ order -> state_of u w' = Some stopped) \/
              exists evs_start w4 r5,
                trace w' = trace w ++ evs_stop ++ EvSaveState model_id :: evs_start /\
                state_file w' = Some model_id /\
                (exists wa, _apply_model_to_services model_id model.2 w = (Ret tt, wa) /\
                            statics (services w') = statics (services wa)) /\
                stop_calls evs_start = [] /\ signals evs_start = [] /\
                launches evs_start `prefix_of` order /\
                trace w4 = trace w ++ evs_stop ++ [EvSaveState model_id] /\
                (forall u, u ∈ order -> state_of u w4 = Some stopped) /\
                start_all env fuel w4 = (r5, w') /\
                r = restart_outcome model_id r5 /\
                (r5 = Ret tt /\ launches evs_start = order \/
                 _starting w = true /\
                   r5 = Raise (RuntimeError "Already starting") /\ evs_start = [] \/
                 _starting w = false /\ r5 <> Ret tt /\
                   start_all_cut env fuel order (with_starting true w4) r5 evs_start))))).
Proof.
  split.
  { intros Hfind. unfold change_model. by rewrite Hfind. }
  intros model Hfind.
  destruct (change_model env fuel models model_id w) as [r w'] eqn:Hrun.
  destruct (_start_order_total (services w)) as [order Horder].
  exists order, r, w'. split; [done|]. split; [done|].
  revert Hrun. unfold change_model. rewrite Hfind.
  rewrite bind_run. simpl.
  destruct (any_running_or_starting_run (map fst (services w)) w)
    as (b & w0 & Hany & Htr0 & Hst0 & Hfl0 & Hsf0 & Hb).
  { intros k Hk. by apply services_get_key_Some. }
  rewrite <- some_unit_active_keys in Hb.
  rewrite bind_run, Hany.
  destruct (_start_order_shape _ _ Horder) as (Hnd & _ & _).
  assert (Horder0 : _start_order (services w0) = Some order).
  { by rewrite (_start_order_table _ _ (statics_table _ _ Hst0)). }
  destruct b.
  - (* some unit was running or starting *)
    assert (Hact : some_unit_active w) by (by apply Hb).
    rewrite bind_run. destruct (stop_all env w0) as [r2 w2] eqn:Hstop.
    apply (stop_all_run _ _ _ _ _ Horder0) in Hstop.
    destruct (stop_loop_events _ _ _ _ Hstop)
      as (evs2 & Htr2 & Hl2 & _ & Hpre2 & Hcalls & _ & Hstopped).
    specialize (Hstopped (NoDup_rev _ Hnd)).
    destruct (stop_loop_frame _ _ _ _ Hstop) as [Hst2 _ Hfl2 Hsf2 _].
    destruct (stop_loop_outcome _ _ _ _ Hstop) as (evs2' & Htr2' & Hcase).
    assert (evs2' = evs2) as -> by (rewrite Htr2 in Htr2'; by apply app_inv_head in Htr2').
    destruct Hcase as [[-> Hall2]|(pre & g & rest & Hsplit & Hg & -> & Hdone)].
    2:{ intros [= <- <-]. split; [done|]. split; [done|]. split; [done|].
        intros _. exists evs2. split; [done|]. split; [done|]. left.
        exists pre, g, rest. split; [done|]. split.
        { destruct (svc_of g w) as [sg|] eqn:Hsg; [|done].
          unfold svc_of in *.
          destruct (statics_get_some _ _ _ _ Hst0 Hsg) as [s0 Hs0]. congruence. }
        split; [done|]. split; [done|]. split; [by rewrite Htr2, Htr0|].
        by rewrite Hsf2, Hsf0. }
    rewrite bind_run.
    destruct (_apply_model_to_services model_id model.2 w2) as [r3 w3] eqn:Happly.
    destruct (_apply_model_reconfigures _ _ _ _ _ Happly)
      as (Htr3 & Hfl3 & Hsf3 & Hrt3 & Hout3 & Hdet).
    destruct (Hdet w) as (wa & Ha & Hsa); [by rewrite Hst2, Hst0|].
    assert (Hstopped3 : forall u, u ∈ order -> state_of u w3 = Some stopped).
    { intros u Hu. rewrite (runtimes_state _ _ _ Hrt3). apply Hstopped.
      rewrite Hall2. by apply elem_of_rev. }
    destruct Hout3 as [->|[msg ->]].
    2:{ intros [= <- <-]. split; [done|]. split; [done|]. split; [done|].
        intros _. exists evs2. split; [done|]. split; [done|]. right.
        split; [done|]. left. exists msg, wa. split; [done|]. split; [done|].
        split; [by rewrite Htr3, Htr2, Htr0|]. split; [by rewrite Hsf3, Hsf2, Hsf0|].
        done. }
    rewrite bind_run, _save_state_run.
    set (w4 := with_event _ _).
    rewrite bind_run. destruct (start_all env fuel w4) as [r5 w5] eqn:Hstart.
    assert (Horder4 : _start_order (services w4) = Some order).
    { subst w4. simpl.
      rewrite (_start_order_table _ _ (runtimes_table _ _ Hrt3)).
      by rewrite (_start_order_table _ _ (statics_table _ _ Hst2)). }
    assert (Hidle : forall u, u ∈ order -> state_of u w4 <> Some running).
    { intros u Hu. change (state_of u w4) with (state_of u w3).
      by rewrite Hstopped3. }
    assert (Htr4 : trace w4 = trace w ++ evs2 ++ [EvSaveState model_id]).
    { subst w4. simpl. rewrite Htr3, Htr2, Htr0. by rewrite <- app_assoc. }
    assert (Hfl4 : _starting w4 = _starting w).
    { subst w4. simpl. by rewrite Hfl3, Hfl2, Hfl0. }
    destruct (start_all_from_idle _ _ _ _ _ Horder4 Hnd Hidle Hstart)
      as (evs5 & Htr5 & Hstop5 & Hsig5 & Hl5 & Hsf5 & Hst5 & Hcase5).
    assert (Hres : (r, w') = (restart_outcome model_id r5, w5) -> 
                   r = restart_outcome model_id r5 /\ w' = w5) by (by intros [= -> ->]).
    intros Hfinal.
    assert (Hrw : r = restart_outcome model_id r5 /\ w' = w5).
    { apply Hres. rewrite <- Hfinal. by destruct r5 as [[]|e|]. }
    clear Hfinal Hres. destruct Hrw as [-> ->].
    assert (Happlied : exists wa, _apply_model_to_services model_id model.2 w = (Ret tt, wa) /\
                         statics (services w5) = statics (services wa)).
    { exists wa. split; [done|]. rewrite Hst5. subst w4. simpl. by rewrite Hsa. }
    assert (Hsf : state_file w5 = Some model_id) by (by rewrite Hsf5).
    split.
    { intros Hf Hr. destruct r5 as [[]|e|]; try done.
      destruct Hcase5 as [[? _]|[(_ & ? & _)|(_ & _ & Hc)]]; [done|done|].
      apply (start_all_cut_fuelled env fuel order (with_starting true w4) evs5) in Hc;
        [done|].
      change (services (with_starting true w4)) with (services w3).
      eapply _apply_model_fuelled; [exact Happly|].
      eapply fuelled_statics; [|exact Hf]. by rewrite Hst2, Hst0. }
    split.
    { intros x Hr. destruct r5 as [[]|e|]; try done. injection Hr as <-. done. }
    split; [intros Hno; by destruct Hno|]. intros _.
    exists evs2. split; [done|]. split; [done|]. right. split; [done|]. right.
    exists evs5, w4, r5. split.
    { rewrite Htr5, Htr4. by rewrite <- !app_assoc. }
    split; [done|]. split; [done|]. split; [done|]. split; [done|]. split; [done|].
    split; [done|]. split.
    { intros u Hu. change (state_of u w4) with (state_of u w3). by apply Hstopped3. }
    split; [done|]. split; [done|]. by rewrite <- Hfl4.
  - (* no unit was running or starting *)
    assert (Hno : ~ some_unit_active w) by (intros H; apply Hb in H; discriminate).
    rewrite bind_run. simpl. rewrite bind_run.
    destruct (_apply_model_to_services model_id model.2 w0) as [r3 w3] eqn:Happly.
    destruct (_apply_model_reconfigures _ _ _ _ _ Happly)
      as (Htr3 & Hfl3 & Hsf3 & Hrt3 & Hout3 & Hdet).
    destruct (Hdet w) as (wa & Ha & Hsa); [done|].
    destruct Hout3 as [->|[msg ->]].
    2:{ intros [= <- <-]. split; [done|]. split; [done|]. split.
        - intros _. right. exists msg, wa. split; [done|]. split; [done|].
          split; [by rewrite Htr3, Htr0|]. by rewrite Hsf3, Hsf0.
        - intros H. by destruct Hno. }
    rewrite bind_run, _save_state_run. rewrite bind_run. simpl.
    intros [= <- <-]. simpl. split; [done|]. split.
    { intros x [= <-]. split; [done|]. split; [done|]. exists wa. split; [done|].
      by rewrite Hsa. }
    split.
    + intros _. left. split; [done|]. by rewrite Htr3, Htr0.
    + intros H. by destruct Hno.
Qed.

End ChangeModel.


(** ** The health wait *)

Section HealthWait.

Variable env : Env.

Lemma wait_healthy_with_url fuel sid w s url :
  svc_of sid w = Some s -> health_url s = Some url -> url <> "" ->
  wait_healthy env fuel sid w =
  match wait_healthy_loop env fuel sid url 0 w with
  | (Ret b, w1) => (Ret b, with_event (EvWait sid b) w1)
  | (Raise e, w1) => (Raise e, w1)
  | (OutOfFuel, w1) => (OutOfFuel, w1)
  end.
Proof.
  intros Hs Hurl Hne. unfold wait_healthy. rewrite bind_run, the_run, Hs.
  rewrite bind_run. unfold no_health_url. rewrite Hurl.
  rewrite bool_decide_eq_false_2 by done. simpl.
  destruct (wait_healthy_loop env fuel sid url 0 w) as [[b|e|] w1]; try done.
Qed.

Lemma wait_healthy_loop_exited fuel sid url elapsed w s :
  svc_of sid w = Some s -> has_exited s = true ->
  (elapsed < startup_timeout s)%Z ->
  wait_healthy_loop env (S fuel) sid url elapsed w =
  (Ret false, with_services (services_update sid (set_state error)) w).
Proof.
  intros Hs Hex Hlt. simpl. rewrite bind_run, the_run, Hs.
  rewrite bool_decide_eq_true_2 by done. by rewrite Hex.
Qed.

(** C5 (as amended): with a health URL and a positive poll interval,
    timeout and interval being integers, [wait_healthy] is a bounded
    loop: given fuel for [max_polls] iterations it returns, after at
    most that many probes and that many sleeps of the poll interval, so the time slept stays below timeout
    plus one interval (probe time is extra).  It returns [True] only
    right after a probe answered 200; a probe that failed is followed by
    a sleep and another round; [False] comes with state "error", after
    the process was seen to have exited or the sleeps have used up the
    timeout; and a process that has already exited fails at once,
    before any probe. *)
Theorem wait_healthy_bounded (fuel : nat) (sid : string) (w : World)
    (s : ManagedService) (url : string) :
  svc_of sid w = Some s -> health_url s = Some url -> url <> "" ->
  (0 < startup_poll_interval s)%Z -> max_polls s <= fuel ->
  exists b w' evs,
    wait_healthy env fuel sid w = (Ret b, w') /\
    trace w' = trace w ++ evs ++ [EvWait sid b] /\
    Forall (polling sid) evs /\
    probes evs <= max_polls s /\
    (0 <= slept evs <= startup_poll_interval s * Z.of_nat (max_polls s))%Z /\
    ((0 < startup_timeout s)%Z ->
     (slept evs < startup_timeout s + startup_poll_interval s)%Z) /\
    state_of sid w' = Some (if b then running else error) /\
    (b = true -> exists evs0, evs = evs0 ++ [EvProbe sid (Some 200%Z)]) /\
    (b = false ->
       slept evs = (startup_poll_interval s * Z.of_nat (probes evs))%Z /\
       ((has_exited <$> svc_of sid w') = Some true \/
        (startup_timeout s <= slept evs)%Z)) /\
    (has_exited s = true -> (0 < startup_timeout s)%Z -> evs = [] /\ b = false).
Proof.
  intros Hs Hurl Hne Hp Hfuel.
  rewrite (wait_healthy_with_url fuel sid w s url Hs Hurl Hne).
  destruct (wait_healthy_loop env fuel sid url 0 w) as [r w1] eqn:Hloop.
  pose proof Hloop as Hloop'.
  apply (wait_healthy_loop_run env sid url (startup_timeout s) (startup_poll_interval s))
    in Hloop as (evs & Htr & Hpoll & Hlast & Hres); [| by rewrite Hs..].
  pose proof (max_polls_covers s Hp) as Hcover.
  rewrite Z.add_0_l in Hlast.
  pose proof (max_polls_bound s (probes evs) Hp Hlast) as Hbound.
  assert (Hfast : forall b, r = Ret b -> has_exited s = true ->
            (0 < startup_timeout s)%Z -> evs = [] /\ b = false).
  { intros b -> Hex HT. destruct fuel as [|fuel].
    { pose proof (max_polls_pos s Hp HT). lia. }
    rewrite (wait_healthy_loop_exited fuel sid url 0 w s Hs Hex HT) in Hloop'.
    injection Hloop' as <- <-. simpl in Htr. split; [|done].
    rewrite <- (app_nil_r (trace w)) in Htr at 1. by apply app_inv_head in Htr. }
  revert Hp Hfuel Hcover Hbound Hlast Hres Hfast.
  generalize (max_polls s) (startup_timeout s) (startup_poll_interval s).
  intros N T p Hp Hfuel Hcover Hbound Hlast Hres Hfast.
  destruct r as [[|]|e|].
  - destruct Hres as (Hst & Hsl & evs0 & Hev).
    exists true, (with_event (EvWait sid true) w1), evs.
    split; [done|]. split; [simpl; by rewrite Htr, <- app_assoc|].
    split; [done|]. split; [done|].
    assert (0 < probes evs).
    { rewrite Hev. unfold probes. rewrite List.filter_app, length_app. simpl. lia. }
    split. { rewrite Hsl. split; [apply Z.mul_nonneg_nonneg; lia|].
             apply Z.mul_le_mono_nonneg_l; lia. }
    split. { intros HT. rewrite Hsl. lia. }
    split; [done|]. split; [by eauto|].
    split; [done|]. intros Hex HT. by destruct (Hfast true eq_refl Hex HT).
  - destruct Hres as (Hst & Hsl & Hwhy).
    exists false, (with_event (EvWait sid false) w1), evs.
    split; [done|]. split; [simpl; by rewrite Htr, <- app_assoc|].
    split; [done|]. split; [done|].
    split. { rewrite Hsl. split; [apply Z.mul_nonneg_nonneg; lia|].
             apply Z.mul_le_mono_nonneg_l; lia. }
    split. { intros HT. rewrite Hsl.
             destruct (probes evs) as [|n] eqn:Hn; [lia|].
             specialize (Hlast ltac:(lia)). lia. }
    split; [done|]. split; [done|].
    split; [|intros Hex HT; by apply Hfast].
    intros _. split; [done|]. destruct Hwhy as [Hex|Hle]; [by left|right; lia].
  - done.
  - destruct Hres as (Hn & Hsl & Hlt). exfalso.
    assert (p * Z.of_nat N <= p * Z.of_nat fuel)%Z
      by (apply Z.mul_le_mono_nonneg_l; lia).
    lia.
Qed.

(** With a poll interval of zero or less the loop never ends while the
    probe fails and the process lives: no amount of fuel suffices. *)
Lemma wait_healthy_loop_diverges sid url :
  (forall t, http_get env url t <> Some 200%Z) ->
  (forall q t, exit_status env q t = None) ->
  forall fuel elapsed w s,
    svc_of sid w = Some s -> has_exited s = false ->
    (startup_poll_interval s <= 0)%Z -> (elapsed < startup_timeout s)%Z ->
    exists w', wait_healthy_loop env fuel sid url elapsed w = (OutOfFuel, w').
Proof.
  intros Hprobe Hexit. induction fuel as [|fuel IH]; intros elapsed w s Hs Hex Hp Hlt.
  - simpl. rewrite bind_run, the_run, Hs. rewrite bool_decide_eq_true_2 by done.
    by eexists.
  - simpl. rewrite bind_run, the_run, Hs. rewrite bool_decide_eq_true_2 by done.
    rewrite Hex. rewrite bind_run. unfold await at 1, modify_world at 1.
    rewrite bind_run. unfold get_world at 1.
    cbn [clock services _starting state_file trace].
    rewrite bind_run, emit_run.
    rewrite bool_decide_eq_false_2 by apply Hprobe.
    rewrite bind_run. unfold await at 1, modify_world at 1.
    cbn [clock services _starting state_file trace with_event].
    match goal with |- context [(the sid ≫= _) ?x] => set (w2 := x) end.
    assert (Hreap : forall t s0, has_exited s0 = false ->
              reap env t s0 = s0 \/
              exists q, process s0 = Some (mkProcess q None) /\
                        reap env t s0 = set_process (Some (mkProcess q None)) s0).
    { intros t s0 Hs0. unfold reap, has_exited in *.
      destruct (process s0) as [[q [c|]]|]; auto.
      right. exists q. by rewrite Hexit. }
    set (s2 := reap env (S (S (clock w))) (reap env (S (clock w)) s)).
    assert (Hs2 : svc_of sid w2 = Some s2).
    { subst w2 s2. unfold svc_of in *. simpl. rewrite !services_get_map, Hs. done. }
    assert (Hsame : has_exited s2 = false /\ static s2 = static s).
    { subst s2. split; [|by rewrite !reap_static].
      destruct (Hreap (S (clock w)) s Hex) as [->|(q & Hq & ->)].
      - destruct (Hreap (S (S (clock w))) s Hex) as [->|(q & Hq & ->)]; [done|].
        reflexivity.
      - assert (Hex1 : has_exited (set_process (Some (mkProcess q None)) s) = false).
        { reflexivity. }
        destruct (Hreap (S (S (clock w))) _ Hex1) as [->|(q' & Hq' & ->)]; [done|].
        reflexivity. }
    destruct Hsame as [Hex2 Hstat2].
    rewrite bind_run, the_run, Hs2, bind_run, emit_run.
    assert (Hp2 : startup_poll_interval s2 = startup_poll_interval s)
      by (unfold static in Hstat2; congruence).
    assert (HT2 : startup_timeout s2 = startup_timeout s)
      by (unfold static in Hstat2; congruence).
    apply (IH _ _ s2); [done|done|lia|lia].
Qed.

End HealthWait.

(** ** Stopping *)

Section Stop.

Variable env : Env.

(** [stop], by the three ways through it: no live process; the exit is
    recorded during the wait; the wait times out and SIGKILL is sent,
    after which the handle still has no exit code. *)
Lemma stop_cases sid w s :
  svc_of sid w = Some s ->
  exists w1 sigs s1,
    stop env sid w = (Ret tt, w1) /\
    trace w1 = trace w ++ EvStop sid :: sigs /\
    svc_of sid w1 = Some s1 /\ _state s1 = stopped /\
    (if not_alive s then sigs = [] /\ not_alive s1 = true
     else
       let p := default 0 (pid <$> process s) in
       if not_alive (reap env (S (clock w)) s)
       then sigs = [EvKillpg sid SIGTERM (killpg env p (clock w))] /\
            not_alive s1 = true
       else sigs = [EvKillpg sid SIGTERM (killpg env p (clock w));
                    EvKillpg sid SIGKILL (killpg env p (S (clock w)))] /\
            not_alive s1 = false).
Proof.
  intros Hs. unfold stop. rewrite bind_run, the_run, Hs.
  rewrite bind_run, emit_run. unfold svc_of in Hs.
  destruct (not_alive s) eqn:Hal.
  - rewrite mutate_run. eexists _, [], _. split; [done|]. split; [done|].
    get_simpl. rewrite Hs. simpl. split; [done|]. split; [done|]. split; [done|].
    exact Hal.
  - run_simpl.
    match goal with |- context [services_get sid ?l] =>
      assert (Hs1 : services_get sid l = Some (reap env (S (clock w)) s))
        by (get_simpl; by rewrite Hs) end.
    rewrite Hs1.
    destruct (not_alive (reap env (S (clock w)) s)) eqn:Hal1.
    + eexists _, [_], _. split; [done|]. simpl. rewrite <- app_assoc.
      split; [done|]. get_simpl. rewrite Hs. simpl.
      split; [done|]. split; [done|]. split; [done|]. exact Hal1.
    + eexists _, [_; _], _. split; [done|]. simpl. rewrite <- !app_assoc.
      split; [done|]. get_simpl. rewrite Hs. simpl.
      split; [done|]. split; [done|]. split; [done|]. exact Hal1.
Qed.

(** C6 (as amended): [stop] returns on every configured unit, whatever
    [os.killpg] answers, and leaves it "stopped"; so do two calls in a
    row.  A unit without a live process gets no signal, from either
    call.  A live process gets SIGTERM first; when its exit is recorded
    during the wait that follows, the second call sends nothing.  When
    the wait times out the first call sends SIGKILL and returns without
    waiting: the handle has no exit code yet, and the second call
    signals again. *)
Theorem stop_idempotent (sid : string) (w : World) (s : ManagedService) :
  svc_of sid w = Some s ->
  exists w1 sigs1 w2 sigs2,
    stop env sid w = (Ret tt, w1) /\
    trace w1 = trace w ++ EvStop sid :: sigs1 /\
    state_of sid w1 = Some stopped /\
    stop env sid w1 = (Ret tt, w2) /\
    trace w2 = trace w1 ++ EvStop sid :: sigs2 /\
    state_of sid w2 = Some stopped /\
    (stop env sid ≫= fun _ => stop env sid) w = (Ret tt, w2) /\
    Forall (fun e => is_signal e = true /\ ev_unit e = Some sid) (sigs1 ++ sigs2) /\
    (not_alive s = true ->
       sigs1 = [] /\ sigs2 = [] /\
       trace w2 = trace w ++ [EvStop sid; EvStop sid]) /\
    (not_alive s = false ->
       exists rest,
         sigs1 = EvKillpg sid SIGTERM
                   (killpg env (default 0 (pid <$> process s)) (clock w)) :: rest) /\
    (stop_escalates env w s = false ->
       sigs2 = [] /\ forall d, EvKillpg sid SIGKILL d ∉ sigs1) /\
    (stop_escalates env w s = true ->
       (exists d1 d2, sigs1 = [EvKillpg sid SIGTERM d1; EvKillpg sid SIGKILL d2]) /\
       exists d rest, sigs2 = EvKillpg sid SIGTERM d :: rest).
Proof.
  intros Hs.
  destruct (stop_cases sid w s Hs) as (w1 & sigs1 & s1 & Hrun1 & Htr1 & Hs1 & Hst1 & Hc1).
  destruct (stop_cases sid w1 s1 Hs1) as (w2 & sigs2 & s2 & Hrun2 & Htr2 & Hs2 & Hst2 & Hc2).
  exists w1, sigs1, w2, sigs2.
  split; [done|]. split; [done|]. split; [unfold state_of; by rewrite Hs1, <- Hst1|].
  split; [done|]. split; [done|]. split; [unfold state_of; by rewrite Hs2, <- Hst2|].
  split; [by rewrite bind_run, Hrun1|].
  assert (Hsig1 : Forall (fun e => is_signal e = true /\ ev_unit e = Some sid) sigs1).
  { destruct (not_alive s); [by destruct Hc1 as [-> _]|].
    simpl in Hc1. destruct (not_alive (reap env _ s)); destruct Hc1 as [-> _];
      by repeat constructor. }
  assert (Hsig2 : Forall (fun e => is_signal e = true /\ ev_unit e = Some sid) sigs2).
  { destruct (not_alive s1); [by destruct Hc2 as [-> _]|].
    simpl in Hc2. destruct (not_alive (reap env _ s1)); destruct Hc2 as [-> _];
      by repeat constructor. }
  split; [by apply Forall_app|].
  unfold stop_escalates.
  destruct (not_alive s) eqn:Hal; simpl in *.
  - destruct Hc1 as [-> Hal1]. rewrite Hal1 in Hc2. destruct Hc2 as [-> _].
    split.
    { intros _. split; [done|]. split; [done|]. by rewrite Htr2, Htr1, <- app_assoc. }
    split; [done|]. split; [|done]. intros _. split; [done|].
    intros d. apply not_elem_of_nil.
  - split; [done|].
    destruct (not_alive (reap env (S (clock w)) s)) eqn:Hal'; simpl;
      destruct Hc1 as [-> Hal1]; rewrite Hal1 in Hc2.
    + destruct Hc2 as [-> _]. split; [by eexists|]. split; [|done].
      intros _. split; [done|]. intros d Hin.
      apply list_elem_of_singleton in Hin. discriminate.
    + split; [by eexists|]. split; [done|]. intros _. split; [by eexists _, _|].
      destruct (not_alive (reap env (S (clock w1)) s1)); destruct Hc2 as [-> _];
        by eexists _, _.
Qed.

End Stop.

(** ** Log retrieval *)

Lemma length_last_n {A : Type} (n : nat) (xs : list A) : length (last_n n xs) <= n.
Proof. unfold last_n. rewrite length_drop. lia. Qed.

Lemma length_last_n_full {A : Type} (n : nat) (xs : list A) :
  n <= length xs -> length (last_n n xs) = n.
Proof. unfold last_n. rewrite length_drop. lia. Qed.

Lemma elem_of_last_n {A : Type} (n : nat) (xs : list A) x :
  x ∈ last_n n xs -> x ∈ xs.
Proof.
  unfold last_n. intros H. rewrite <- (take_drop (length xs - n) xs).
  apply elem_of_app. by right.
Qed.

Lemma is_meaningful_spec pats l :
  is_meaningful pats l = true <-> forall p, p ∈ pats -> contains p l = false.
Proof.
  unfold is_meaningful. rewrite negb_true_iff. split.
  - intros H p Hp. destruct (contains p l) eqn:Hc; [|done].
    assert (existsb (fun p0 => contains p0 l) pats = true); [|congruence].
    apply existsb_exists. exists p. split; [by apply list_elem_of_In|done].
  - intros H. destruct (existsb _ pats) eqn:He; [|done].
    apply existsb_exists in He as (p & Hp%list_elem_of_In & Hc).
    rewrite H in Hc; done.
Qed.

(** C7 (as amended): with noise filtering and [lines = N >= 0],
    [get_logs] returns the last [N] noise-free lines among the last
    [3 * N] lines of the log: at most [N] lines, none containing a noise
    pattern, and exactly [N] whenever those [3 * N] lines hold at least
    [N] noise-free ones; a log file that does not exist gives the empty
    string. *)
Theorem get_logs_filtered (f : list string) (lines : Z) (pats : list string) :
  pats <> [] -> (0 <= lines)%Z ->
  exists ls,
    get_logs_lines (Some f) lines (Some pats) = inr ls /\
    get_logs (Some f) lines (Some pats) = inr (String.concat "" ls) /\
    ls = last_n (Z.to_nat lines)
           (List.filter (is_meaningful pats) (last_n (3 * Z.to_nat lines) f)) /\
    length ls <= Z.to_nat lines /\
    Forall (fun l => forall p, p ∈ pats -> contains p l = false) ls /\
    (Z.to_nat lines <=
       length (List.filter (is_meaningful pats) (last_n (3 * Z.to_nat lines) f)) ->
     length ls = Z.to_nat lines) /\
    get_logs None lines (Some pats) = inr "".
Proof.
  intros Hpats Hlines.
  set (window := List.filter (is_meaningful pats) (last_n (3 * Z.to_nat lines) f)).
  assert (Hrun : get_logs_lines (Some f) lines (Some pats)
                 = inr (last_n (Z.to_nat lines) window)).
  { unfold get_logs_lines. rewrite decide_False by lia.
    destruct pats as [|p ps]; [done|].
    replace (Z.to_nat (lines * 3)) with (3 * Z.to_nat lines) by lia.
    fold window. unfold slice_from_neg. destruct (decide (0 < lines)%Z) as [Hpos|Hzero].
    - done.
    - assert (lines = 0%Z) as -> by lia.
      assert (window = []) as ->.
      { subst window. unfold last_n. simpl. by rewrite Nat.sub_0_r, drop_all. }
      done. }
  exists (last_n (Z.to_nat lines) window).
  split; [done|]. split; [unfold get_logs; by rewrite Hrun|]. split; [done|].
  split; [apply length_last_n|]. split.
  - apply Forall_forall. intros l Hl%elem_of_last_n.
    apply list_elem_of_In, filter_In in Hl as [_ Hl]. by apply is_meaningful_spec.
  - split; [apply length_last_n_full|done].
Qed.

(** ** The substitution of a command argument *)

Lemma list_index_absent flag cmd : flag ∉ cmd -> list_index flag cmd = None.
Proof.
  induction cmd as [|x rest IH]; intros Hnot; simpl; [done|].
  rewrite decide_False by set_solver. rewrite IH by set_solver. done.
Qed.

Lemma list_index_first flag pre post :
  flag ∉ pre -> list_index flag (pre ++ flag :: post) = Some (length pre).
Proof.
  induction pre as [|x pre IH]; intros Hnot; simpl.
  - by rewrite decide_True.
  - rewrite decide_False by set_solver. rewrite IH by set_solver. done.
Qed.

(** C10: the substitution is skipped when the flag is absent and
    replaces the token after the first occurrence of the flag when
    there is one, but when the first occurrence of the flag is the last
    element it raises [IndexError], and so does
    [_apply_model_to_services] on a "vllm" command that ends in
    "--model", leaving the world as it was. *)
Theorem substitute_command_arg_cases (flag value : string) (cmd : list string) :
  (flag ∉ cmd -> substitute_command_arg flag value cmd = inr cmd) /\
  (forall pre old post, cmd = pre ++ flag :: old :: post -> flag ∉ pre ->
     substitute_command_arg flag value cmd = inr (pre ++ flag :: value :: post)) /\
  (forall pre, cmd = pre ++ [flag] -> flag ∉ pre ->
     substitute_command_arg flag value cmd =
       inl (IndexError "list assignment index out of range")) /\
  (forall gpu w vllm_svc pre,
     services_get "vllm" (services w) = Some vllm_svc ->
     command vllm_svc = pre ++ ["--model"] -> "--model" ∉ pre ->
     _apply_model_to_services value gpu w =
       (Raise (IndexError "list assignment index out of range"), w)).
Proof.
  assert (Hlast : forall f v pre, f ∉ pre ->
            substitute_command_arg f v (pre ++ [f]) =
              inl (IndexError "list assignment index out of range")).
  { intros f v pre Hpre. unfold substitute_command_arg.
    rewrite list_index_first by done. rewrite decide_False; [done|].
    rewrite length_app. simpl. lia. }
  split; [|split; [|split]].
  - intros Habs. unfold substitute_command_arg. by rewrite list_index_absent.
  - intros pre old post -> Hpre. unfold substitute_command_arg.
    rewrite list_index_first by done. rewrite decide_True.
    2:{ rewrite length_app. simpl. lia. }
    f_equal. by rewrite insert_app_r.
  - intros pre -> Hpre. by apply Hlast.
  - intros gpu w vllm_svc pre Hget Hcmd Hpre.
    unfold _apply_model_to_services, apply_to_vllm.
    rewrite !bind_run. simpl. rewrite Hget, bind_run, lift_sum_run, Hcmd.
    by rewrite Hlast.
Qed.

(** ** The lifecycle *)

Section Lifecycle.

Variable env : Env.

Lemma start_state sid w r w' :
  start env sid w = (r, w') ->
  state_of sid w' = state_of sid w \/ state_of sid w' = Some starting.
Proof.
  unfold start. rewrite bind_run, the_run.
  destruct (svc_of sid w) as [s|] eqn:Hs; [|intros [= <- <-]; by left].
  destruct (not_alive s); simpl; [|intros [= <- <-]; by left].
  run_simpl. unfold svc_of in Hs.
  destruct (spawn env _ _) as [p|]; intros [= <- <-]; right; get_simpl;
    rewrite Hs; simpl; by rewrite ?reap_state.
Qed.

Lemma wait_healthy_loop_state sid url fuel : forall elapsed w r w',
  wait_healthy_loop env fuel sid url elapsed w = (r, w') ->
  match r with
  | Ret true => state_of sid w' = Some running
  | Ret false => state_of sid w' = Some error
  | _ => state_of sid w' = state_of sid w
  end.
Proof.
  induction fuel as [|fuel IH]; intros elapsed w r w'; simpl;
    rewrite bind_run, the_run;
    (destruct (svc_of sid w) as [s|] eqn:Hs; [|by intros [= <- <-]]);
    unfold svc_of in Hs.
  - case_bool_decide; [by intros [= <- <-]|].
    run_simpl. intros [= <- <-]. get_simpl. by rewrite Hs.
  - case_bool_decide.
    2:{ run_simpl. intros [= <- <-]. get_simpl. by rewrite Hs. }
    destruct (has_exited s).
    { run_simpl. intros [= <- <-]. get_simpl. by rewrite Hs. }
    rewrite bind_run. unfold await at 1, modify_world at 1.
    rewrite bind_run. unfold get_world at 1.
    cbn [clock services _starting state_file trace].
    rewrite bind_run, emit_run.
    case_bool_decide.
    { run_simpl. intros [= <- <-]. get_simpl. by rewrite Hs. }
    rewrite bind_run. unfold await at 1, modify_world at 1.
    cbn [clock services _starting state_file trace with_event].
    match goal with |- context [(the sid ≫= _) ?x] => set (w2 := x) end.
    assert (Hst2 : state_of sid w2 = state_of sid w).
    { subst w2. get_simpl. rewrite Hs. simpl. by rewrite !reap_state. }
    rewrite bind_run, the_run.
    destruct (svc_of sid w2) as [s2|] eqn:Hs2.
    2:{ intros [= <- <-]. done. }
    rewrite bind_run, emit_run. intros Hrec. apply IH in Hrec.
    change (state_of sid (with_event (EvSleep sid (startup_poll_interval s2)) w2))
      with (state_of sid w2) in Hrec.
    rewrite Hst2 in Hrec. exact Hrec.
Qed.

Lemma wait_healthy_state fuel sid w r w' :
  wait_healthy env fuel sid w = (r, w') ->
  match r with
  | Ret true => state_of sid w' = Some running
  | Ret false => state_of sid w' = Some error
  | _ => state_of sid w' = state_of sid w
  end.
Proof.
  unfold wait_healthy. rewrite bind_run, the_run.
  destruct (svc_of sid w) as [s|] eqn:Hs; [|by intros [= <- <-]].
  rewrite bind_run. destruct (no_health_url s).
  - run_simpl. intros [= <- <-]. get_simpl. unfold svc_of in Hs. by rewrite Hs.
  - destruct (wait_healthy_loop _ _ _ _ _ _) as [r1 w1] eqn:Hloop.
    apply wait_healthy_loop_state in Hloop.
    destruct r1 as [b| |]; [|by intros [= <- <-]..].
    rewrite bind_run, emit_run. intros [= <- <-].
    by destruct b.
Qed.

(** C9 (as amended): "error" is written by [wait_healthy] only, when
    it returns [False], and the loop of [start_all] runs it right after
    a [start] that left the unit "starting".  A unit in "error" whose process is alive stays in
    "error" when its state is read, and [start] on it is refused; once
    its process has exited, reading the state turns it "stopped", and
    [start] takes it to "starting"; [stop] takes it to "stopped". *)
Theorem error_state_transitions (fuel : nat) (sid : string) (w : World)
    (s : ManagedService) :
  svc_of sid w = Some s -> _state s = error ->
  (exists w1,
     state sid w = (Ret (if not_alive s then stopped else error), w1) /\
     state_of sid w1 = Some (if not_alive s then stopped else error)) /\
  (not_alive s = false ->
   start env sid w = (Raise (RuntimeError (name s +:+ " is already running")), w)) /\
  (not_alive s = true ->
   forall r w', start env sid w = (r, w') -> state_of sid w' = Some starting) /\
  (forall r w', stop env sid w = (r, w') ->
     r = Ret tt /\ state_of sid w' = Some stopped) /\
  (forall w0, state_of sid w0 <> Some error ->
     (forall r w', state sid w0 = (r, w') -> state_of sid w' <> Some error) /\
     (forall r w', start env sid w0 = (r, w') -> state_of sid w' <> Some error) /\
     (forall r w', stop env sid w0 = (r, w') -> state_of sid w' <> Some error) /\
     (forall r w', wait_healthy env fuel sid w0 = (r, w') ->
        state_of sid w' = Some error -> r = Ret false) /\
     (forall r w', start_all_step env fuel sid w0 = (r, w') ->
        state_of sid w' = Some error ->
        exists wa wb,
          start env sid wa = (Ret tt, wb) /\ state_of sid wb = Some starting /\
          wait_healthy env fuel sid wb = (Ret false, w'))).
Proof.
  intros Hs Herr.
  assert (Hget : state_getter s =
            if not_alive s then (stopped, set_state stopped s) else (error, s)).
  { unfold state_getter. rewrite Herr. rewrite decide_False by done.
    by destruct (not_alive s). }
  split; [|split; [|split; [|split]]].
  - rewrite state_shape, Hs. eexists. split.
    + rewrite Hget. by destruct (not_alive s).
    + get_simpl. unfold svc_of in Hs. rewrite Hs. simpl.
      rewrite state_getter_state, Hget. by destruct (not_alive s).
  - intros Hal. unfold start. rewrite bind_run, the_run, Hs. by rewrite Hal.
  - intros Hal r w' Hstart. unfold start in Hstart.
    rewrite bind_run, the_run, Hs, Hal in Hstart. simpl in Hstart.
    run_simpl. unfold svc_of in Hs.
    destruct (spawn env _ _); injection Hstart as <- <-; get_simpl;
      rewrite Hs; simpl; by rewrite ?reap_state.
  - intros r w' Hstop. apply stop_run in Hstop. rewrite Hs in Hstop.
    by destruct Hstop as (-> & sigs & _ & _ & Hst & _).
  - intros w0 Hne. split; [|split; [|split; [|split]]].
    + intros r w' Hrun. apply state_run in Hrun as [_ Hrun].
      destruct r as [st|e|]; [| |done].
      * destruct Hrun as (s0 & Hs0 & -> & Hs'). unfold state_of in *.
        rewrite Hs'. rewrite Hs0 in Hne. simpl in *. rewrite state_getter_state.
        unfold state_getter. destruct (decide _) as [->|]; [done|].
        destruct (not_alive s0); [done|]. simpl. congruence.
      * by destruct Hrun as [-> _].
    + intros r w' Hrun. destruct (start_state _ _ _ _ Hrun) as [->| ->]; done.
    + intros r w' Hrun. apply stop_run in Hrun.
      destruct (svc_of sid w0) as [s0|] eqn:Hs0.
      * destruct Hrun as (_ & sigs & _ & _ & -> & _). done.
      * by destruct Hrun as [_ ->].
    + intros r w' Hrun Herr'. apply wait_healthy_state in Hrun.
      destruct r as [[|]|e|]; [congruence|done|congruence..].
    + intros r w'. unfold start_all_step. rewrite bind_run, the_run.
      destruct (svc_of sid w0) as [s0|] eqn:Hs0; [|by intros [= <- <-]].
      rewrite bind_run, state_shape, Hs0.
      set (wa := with_services _ w0).
      assert (Hsa : state_of sid wa <> Some error).
      { subst wa. get_simpl. unfold svc_of in Hs0. rewrite Hs0. simpl.
        rewrite state_getter_state. unfold state_of in Hne. rewrite Hs0 in Hne.
        simpl in Hne. unfold state_getter. destruct (decide _) as [->|]; [done|].
        destruct (not_alive s0); [done|]. simpl. congruence. }
      destruct (decide ((state_getter s0).1 = running)) as [Hrun|Hrun].
      { rewrite emit_run. by intros [= <- <-]. }
      rewrite bind_run. destruct (start env sid wa) as [r1 wb] eqn:Hstart.
      pose proof (start_state _ _ _ _ Hstart) as Hsb.
      destruct r1 as [[]|e|].
      2,3: intros [= <- <-] Herr'; destruct Hsb as [Hsb|Hsb]; congruence.
      apply start_run in Hstart as Hshape.
      destruct Hshape as (s1 & p & s2 & _ & _ & _ & Hs2 & Hst2 & _).
      rewrite bind_run. destruct (wait_healthy env fuel sid wb) as [r2 wc] eqn:Hwait.
      pose proof (wait_healthy_state _ _ _ _ _ Hwait) as Hsc.
      assert (Hstarting : state_of sid wb = Some starting).
      { unfold state_of. by rewrite Hs2, <- Hst2. }
      destruct r2 as [[|]|e|].
      * intros [= <- <-]. congruence.
      * rewrite bind_run, the_run. destruct (svc_of sid wc); intros [= <- <-] _;
          by exists wa, wb.
      * intros [= <- <-]. congruence.
      * intros [= <- <-]. congruence.
Qed.

End Lifecycle.


(** ** The specification on sample runs *)

Lemma services_get_In sid svcs s :
  services_get sid svcs = Some s -> In (sid, s) svcs.
Proof.
  induction svcs as [|[k v] rest IH]; simpl; [done|].
  destruct (decide (k = sid)) as [->|]; [intros [= ->]; by left|auto].
Qed.

Lemma acyclic_of_order svcs order : respects_order order svcs = true -> acyclic svcs.
Proof.
  intros Hok.
  assert (Hedge : forall u d, declares svcs u d ->
            exists i j, list_index d order = Some i /\ list_index u order = Some j /\ i < j).
  { intros u d (svc & Hget & Hd). apply services_get_In in Hget.
    unfold respects_order in Hok. rewrite forallb_forall in Hok.
    specialize (Hok _ Hget). simpl in Hok. rewrite forallb_forall in Hok.
    specialize (Hok d (proj1 (list_elem_of_In _ _) Hd)).
    destruct (list_index d order) as [i|]; [|done].
    destruct (list_index u order) as [j|]; [|done].
    apply bool_decide_eq_true in Hok. eauto. }
  assert (Hpath : forall u v, tc (declares svcs) u v ->
            exists i j, list_index v order = Some i /\ list_index u order = Some j /\ i < j).
  { induction 1 as [u v Huv|u v z Huv _ IH]; [auto|].
    destruct (Hedge _ _ Huv) as (i & j & Hi & Hj & Hij).
    destruct IH as (i' & j' & Hi' & Hj' & Hij').
    exists i', j. split; [done|]. split; [done|]. 
    assert (i = j') by congruence. lia. }
  intros u Hloop. destruct (Hpath _ _ Hloop) as (i & j & Hi & Hj & Hij).
  assert (i = j) by congruence. lia.
Qed.

Example chain_start_order : _start_order chain = Some ["A"; "B"; "C"].
Proof. vm_compute. reflexivity. Qed.

Example chain_start_all :
  launches (trace (start_all env_healthy 1 (boot chain)).2) = ["A"; "B"; "C"] /\
  stop_calls (trace (stop_all env_healthy (start_all env_healthy 1 (boot chain)).2).2)
    = ["C"; "B"; "A"].
Proof. split; vm_compute; reflexivity. Qed.

Example chain_start_all_unready :
  (start_all env_unready 24 (boot chain)).1 =
    Raise (RuntimeError "A failed to become healthy within 120s") /\
  launches (trace (start_all env_unready 24 (boot chain)).2) = ["A"].
Proof. split; vm_compute; reflexivity. Qed.

(** C3, on the chain. *)
Lemma start_order_topological_witness :
  acyclic chain /\
  exists order,
    _start_order chain = Some order /\ NoDup order /\
    (forall u d, declares chain u d -> strictly_before d u order) /\
    (forall svcs', dependency_table svcs' = dependency_table chain ->
                   _start_order svcs' = Some order).
Proof.
  assert (Hac : acyclic chain).
  { apply (acyclic_of_order chain ["A"; "B"; "C"]). vm_compute. reflexivity. }
  split; [exact Hac|]. exact (start_order_topological chain Hac).
Defined.

(** C1 as stated fails: [start_service "C"] launches "B" although "A",
    which "B" declares, was neither found running nor waited for; "A"
    is still stopped at the end. *)
Lemma start_service_shallow_counterexample :
  exists t1 argv p t2,
    trace (start_service env_healthy 1 "C" (boot chain)).2
      = t1 ++ EvSpawn "B" argv p :: t2 /\
    declares chain "B" "A" /\
    (EvSkip "A" ∉ t1) /\ (EvWait "A" true ∉ t1) /\
    state_of "A" (start_service env_healthy 1 "C" (boot chain)).2 = Some stopped.
Proof.
  exists [], ["run-b"], 101,
    [EvProbe "B" (Some 200%Z); EvWait "B" true; EvSpawn "C" ["run-c"] 103;
     EvProbe "C" (Some 200%Z); EvWait "C" true].
  split; [vm_compute; reflexivity|]. split.
  { eexists. split; [reflexivity|]. simpl. apply list_elem_of_here. }
  split; [apply not_elem_of_nil|]. split; [apply not_elem_of_nil|].
  vm_compute. reflexivity.
Qed.

(** C4 as stated fails.  On the chain with "A" already running,
    [start_all] launches "B" and "C" and [stop_all] then stops "C", "B"
    and "A": not the reverse of what was started.  With a dependency
    that is not configured, [start_all] launches "A" and raises
    [KeyError]; [stop_all] stops "B", which was never started, and
    raises [KeyError], leaving "A" running. *)
Lemma stop_all_not_reverse_counterexample :
  ((start_all env_healthy 1 (boot chain_a_running)).1 = Ret tt /\
   launches (trace (start_all env_healthy 1 (boot chain_a_running)).2) = ["B"; "C"] /\
   (stop_all env_healthy (start_all env_healthy 1 (boot chain_a_running)).2).1 = Ret tt /\
   stop_calls
     (trace (stop_all env_healthy (start_all env_healthy 1 (boot chain_a_running)).2).2)
     = ["C"; "B"; "A"] /\
   ["C"; "B"; "A"] <> rev ["B"; "C"]) /\
  ((start_all env_healthy 1 (boot dangling)).1 = Raise (KeyError "ghost") /\
   launches (trace (start_all env_healthy 1 (boot dangling)).2) = ["A"] /\
   (stop_all env_healthy (start_all env_healthy 1 (boot dangling)).2).1
     = Raise (KeyError "ghost") /\
   stop_calls
     (trace (stop_all env_healthy (start_all env_healthy 1 (boot dangling)).2).2)
     = ["B"] /\
   state_of "A" (stop_all env_healthy (start_all env_healthy 1 (boot dangling)).2).2
     = Some running /\
   ["B"] <> rev ["A"]).
Proof.
  split.
  - split; [vm_compute; reflexivity|]. split; [vm_compute; reflexivity|].
    split; [vm_compute; reflexivity|]. split; [vm_compute; reflexivity|]. discriminate.
  - split; [vm_compute; reflexivity|]. split; [vm_compute; reflexivity|].
    split; [vm_compute; reflexivity|]. split; [vm_compute; reflexivity|].
    split; [vm_compute; reflexivity|]. discriminate.
Qed.

(** C5 as stated fails.  With a poll interval of 0 the loop is not
    bounded: while the probe fails and the process lives it never
    returns, whatever the fuel.  With timeout 12 and interval 5 it
    returns after three rounds, having slept 15 seconds, more than the
    timeout. *)
Lemma wait_healthy_unbounded_counterexample :
  (forall fuel, exists w',
     wait_healthy env_unready fuel "A"
       (boot [("A", set_process (Some (mkProcess 7 None))
                      (sample_unit "A" ["run-a"] [] 1 0))])
     = (OutOfFuel, w')) /\
  (exists w',
     wait_healthy env_unready 3 "A"
       (boot [("A", set_process (Some (mkProcess 7 None))
                      (sample_unit "A" ["run-a"] [] 12 5))])
     = (Ret false, w') /\
     slept (trace w') = 15%Z /\ (12 < slept (trace w'))%Z).
Proof.
  split.
  - intros fuel.
    set (s := set_process (Some (mkProcess 7 None)) (sample_unit "A" ["run-a"] [] 1 0)).
    set (w := boot [("A", s)]).
    rewrite (wait_healthy_with_url env_unready fuel "A" w s "http://localhost/A");
      [|reflexivity|reflexivity|done].
    destruct (wait_healthy_loop_diverges env_unready "A" "http://localhost/A")
      with (fuel := fuel) (elapsed := 0%Z) (w := w) (s := s) as [w' Hw'];
      try done.
    rewrite Hw'. by exists w'.
  - eexists. split; [vm_compute; reflexivity|]. split; [vm_compute; reflexivity|].
    vm_compute. reflexivity.
Qed.

(** C5, on a unit with the default timeout 120 and interval 5. *)
Lemma wait_healthy_bounded_witness :
  (0 < startup_poll_interval (sample_unit "A" ["run-a"] [] 120 5))%Z /\
  max_polls (sample_unit "A" ["run-a"] [] 120 5) <= 24 /\
  exists b w',
    wait_healthy env_unready 24 "A"
      (boot [("A", sample_unit "A" ["run-a"] [] 120 5)]) = (Ret b, w') /\
    (slept (trace w') < 120 + 5)%Z.
Proof.
  assert (Hp : (0 < startup_poll_interval (sample_unit "A" ["run-a"] [] 120 5))%Z)
    by (vm_compute; reflexivity).
  assert (Hn : max_polls (sample_unit "A" ["run-a"] [] 120 5) <= 24)
    by (vm_compute; lia).
  split; [exact Hp|]. split; [exact Hn|].
  destruct (wait_healthy_bounded env_unready 24 "A"
              (boot [("A", sample_unit "A" ["run-a"] [] 120 5)])
              (sample_unit "A" ["run-a"] [] 120 5) "http://localhost/A"
              eq_refl eq_refl ltac:(discriminate) Hp Hn)
    as (b & w' & evs & Hrun & Htr & _ & _ & _ & Hslept & _).
  exists b, w'. split; [exact Hrun|].
  rewrite Htr. simpl.
  assert (Hsl : forall l1 l2, slept (l1 ++ l2) = (slept l1 + slept l2)%Z).
  { intros l1 l2. induction l1 as [|e l1 IH]; simpl; [done|]. rewrite IH. lia. }
  rewrite Hsl. simpl. specialize (Hslept ltac:(vm_compute; reflexivity)).
  simpl in Hslept. lia.
Defined.

(** C6 as stated fails.  "vllm" is running and does not exit within
    the grace period: [stop] sends SIGTERM, then SIGKILL, and returns.
    The unit now reads "stopped"; [stop] called twice in a row on it
    succeeds both times, and the second call still sends SIGTERM and
    SIGKILL. *)
Lemma stop_twice_signals_counterexample :
  exists w1 w2 w3,
    stop env_healthy "vllm" (boot cockpit) = (Ret tt, w1) /\
    (state "vllm" w1).1 = Ret stopped /\
    stop env_healthy "vllm" w1 = (Ret tt, w2) /\
    stop env_healthy "vllm" w2 = (Ret tt, w3) /\
    trace w3 = trace w2 ++ [EvStop "vllm"; EvKillpg "vllm" SIGTERM true;
                            EvKillpg "vllm" SIGKILL true] /\
    signals (trace w3) <> signals (trace w2).
Proof.
  eexists _, _, _. split; [vm_compute; reflexivity|].
  split; [vm_compute; reflexivity|]. split; [vm_compute; reflexivity|].
  split; [vm_compute; reflexivity|]. split; [vm_compute; reflexivity|].
  vm_compute. discriminate.
Qed.

(** C6, on a running unit whose exit is recorded during the wait. *)
Lemma stop_idempotent_witness :
  svc_of "vllm" (boot cockpit) = Some vllm_running /\
  exists w1 w2,
    stop env_old_exits "vllm" (boot cockpit) = (Ret tt, w1) /\
    trace w1 = [EvStop "vllm"; EvKillpg "vllm" SIGTERM true] /\
    stop env_old_exits "vllm" w1 = (Ret tt, w2) /\
    trace w2 = trace w1 ++ [EvStop "vllm"] /\
    state_of "vllm" w2 = Some stopped.
Proof.
  split; [reflexivity|].
  destruct (stop_idempotent env_old_exits "vllm" (boot cockpit) vllm_running eq_refl)
    as (w1 & sigs1 & w2 & sigs2 & Hrun1 & Htr1 & _ & Hrun2 & Htr2 & Hst2 & _ & _ & _
        & Hterm & Hquiet & _).
  destruct (Hquiet ltac:(vm_compute; reflexivity)) as [-> Hnokill].
  exists w1, w2. split; [exact Hrun1|]. split; [|done].
  assert (Hw1 : (stop env_old_exits "vllm" (boot cockpit)).2 = w1) by (by rewrite Hrun1).
  rewrite <- Hw1. vm_compute. reflexivity.
Defined.

(** C7 as stated fails: with [lines = 1] the three trailing probe
    lines fill the window of [3 * 1] lines, so nothing is returned
    although the log holds a meaningful line. *)
Lemma get_logs_window_counterexample :
  get_logs_lines (Some noisy_log) 1 (Some HEALTH_CHECK_PATTERNS) = inr [] /\
  get_logs (Some noisy_log) 1 (Some HEALTH_CHECK_PATTERNS) = inr "" /\
  last_n 1 (List.filter (is_meaningful HEALTH_CHECK_PATTERNS) noisy_log)
    = ["INFO model loaded"].
Proof. repeat split; vm_compute; reflexivity. Qed.

(** C7, on the same log with [lines = 2]. *)
Lemma get_logs_filtered_witness :
  HEALTH_CHECK_PATTERNS <> [] /\ (0 <= 2)%Z /\
  get_logs_lines (Some noisy_log) 2 (Some HEALTH_CHECK_PATTERNS)
    = inr ["INFO model loaded"].
Proof.
  assert (H1 : HEALTH_CHECK_PATTERNS <> []) by discriminate.
  assert (H2 : (0 <= 2)%Z) by lia.
  split; [exact H1|]. split; [exact H2|].
  destruct (get_logs_filtered noisy_log 2 HEALTH_CHECK_PATTERNS H1 H2)
    as (ls & Hrun & _ & Hls & _).
  rewrite Hrun, Hls. vm_compute. reflexivity.
Defined.

Example start_all_reentrant :
  start_all env_healthy 1 (with_starting true (boot chain))
    = (Raise (RuntimeError "Already starting"), with_starting true (boot chain)) /\
  _starting (start_all env_unready 24 (boot chain)).2 = false.
Proof. split; vm_compute; reflexivity. Qed.

(** C8 as stated fails: "miotts" was stopped before the model change
    and is launched by it. *)
Lemma change_model_counterexample :
  state_of "miotts" (boot cockpit) = Some stopped /\
  (change_model env_old_exits 1 [("new/model", "0.9")] "new/model" (boot cockpit)).1
    = Ret "new/model" /\
  launches (trace (change_model env_old_exits 1 [("new/model", "0.9")] "new/model"
                     (boot cockpit)).2)
    = ["vllm"; "miotts"].
Proof. repeat split; vm_compute; reflexivity. Qed.

(** "vllm" does not exit within the grace period: it is killed, and
    [start_all] then refuses to start it over its live handle.  The
    selection is persisted and nothing is relaunched. *)
Example change_model_after_kill :
  (change_model env_healthy 1 [("new/model", "0.9")] "new/model" (boot cockpit)).1
    = Raise (RuntimeError "vLLM (model) is already running") /\
  state_file (change_model env_healthy 1 [("new/model", "0.9")] "new/model"
                (boot cockpit)).2 = Some "new/model" /\
  trace (change_model env_healthy 1 [("new/model", "0.9")] "new/model"
           (boot cockpit)).2
    = [EvStop "miotts"; EvStop "vllm"; EvKillpg "vllm" SIGTERM true;
       EvKillpg "vllm" SIGKILL true; EvSaveState "new/model"].
Proof. repeat split; vm_compute; reflexivity. Qed.

(** The command of "vllm" ends with the flag: the fleet is stopped,
    the rewriting raises [IndexError] and nothing is persisted. *)
Example change_model_trailing_flag :
  (change_model env_old_exits 1 [("new/model", "0.9")] "new/model"
     (boot [("vllm", set_command ["vllm"; "serve"; "--model"] vllm_running)])).1
    = Raise (IndexError "list assignment index out of range") /\
  state_file
    (change_model env_old_exits 1 [("new/model", "0.9")] "new/model"
       (boot [("vllm", set_command ["vllm"; "serve"; "--model"] vllm_running)])).2
    = None /\
  trace
    (change_model env_old_exits 1 [("new/model", "0.9")] "new/model"
       (boot [("vllm", set_command ["vllm"; "serve"; "--model"] vllm_running)])).2
    = [EvStop "vllm"; EvKillpg "vllm" SIGTERM true].
Proof. repeat split; vm_compute; reflexivity. Qed.

Example change_model_rewrites :
  (command <$> svc_of "vllm"
     (change_model env_old_exits 1 [("new/model", "0.9")] "new/model"
        (boot cockpit)).2)
    = Some ["vllm"; "serve"; "--model"; "new/model";
            "--gpu-memory-utilization"; "0.9"] /\
  (name <$> svc_of "vllm"
     (change_model env_old_exits 1 [("new/model", "0.9")] "new/model"
        (boot cockpit)).2)
    = Some "vLLM (model)".
Proof. split; vm_compute; reflexivity. Qed.

(** C9 as stated fails: the process of "A" exits during startup, so
    [wait_healthy] leaves it in "error"; the next read of its state
    answers "stopped" and stores it, without any [start]. *)
Lemma error_drifts_counterexample :
  exists w1,
    (start env_crashing "A" ≫= fun _ => wait_healthy env_crashing 24 "A")
      (boot chain) = (Ret false, w1) /\
    state_of "A" w1 = Some error /\
    (state "A" w1).1 = Ret stopped /\
    state_of "A" (state "A" w1).2 = Some stopped.
Proof.
  eexists. split; [vm_compute; reflexivity|].
  repeat split; vm_compute; reflexivity.
Qed.

(** C9, on a unit whose startup failed. *)
Lemma error_state_transitions_witness :
  svc_of "A" (boot [("A", crashed_unit)]) = Some crashed_unit /\
  _state crashed_unit = error /\
  exists w1,
    state "A" (boot [("A", crashed_unit)]) = (Ret stopped, w1) /\
    state_of "A" w1 = Some stopped.
Proof.
  split; [reflexivity|]. split; [reflexivity|].
  destruct (error_state_transitions env_healthy 1 "A" (boot [("A", crashed_unit)])
              crashed_unit eq_refl eq_refl) as [Hread _].
  exact Hread.
Defined.

Example substitute_at_end :
  substitute_command_arg "--model" "new/model" ["vllm"; "serve"; "--model"]
    = inl (IndexError "list assignment index out of range").
Proof. reflexivity. Qed.
